(** * everydAI server: device registry, call sessions and message router

    A shallow embedding of the real-time coordinator of the everydAI relay
    server:

    - [DeviceManager]  (services/deviceManager.js): the connection registry;
    - [CallService]    (services/twilio.js): call sessions, audio ingest,
      transcript pipeline and observer fan-out;
    - [Router]         (index.js): the WebSocket message and close handlers.

    JavaScript [Map]s are finite maps ([gmap]) keyed by strings, so that the
    order of a [forEach] over a [Map] is not represented; a [Set] of
    observers is a duplicate-free list in insertion order; [Date]s are
    integers counting milliseconds; and every effect the code issues on the
    outside world (a transport write, a request to the speech service, a
    WhatsApp notice, a timer) is an [Event] in the list an operation
    returns.  The clock is an argument [now] of each operation that reads
    it.  An [async] method is run to its end, each [await] answered at
    once, unless its definition says otherwise. *)

From stdpp Require Import gmap strings list fin_maps pretty.
From Stdlib Require Import ZArith Lia.

(** ** JavaScript primitives the server relies on *)

Module Js.

(** [Math.round(ms / 1000)] for an integer number of milliseconds:
    [Math.round x] is [floor (x + 1/2)]. *)
Definition round_seconds (ms : Z) : Z := ((ms + 500) / 1000)%Z.

(** Truthiness of a value that is a string, [null] or [undefined]. *)
Definition truthy (v : option string) : bool :=
  match v with
  | Some s => negb (String.eqb s "")
  | None => false
  end.

(** [v || d] on such a value. *)
Definition or_else (v : option string) (d : string) : string :=
  match v with
  | Some s => if String.eqb s "" then d else s
  | None => d
  end.

(** White space removed by [String.prototype.trim], among the code units
    below 256: TAB, LF, VT, FF, CR, SPACE and NBSP. *)
Definition is_white_space (c : Ascii.ascii) : bool :=
  let n := Ascii.nat_of_ascii c in
  ((9 <=? n) && (n <=? 13)) || (n =? 32) || (n =? 160).

Fixpoint all_white_space (s : string) : bool :=
  match s with
  | EmptyString => true
  | String c s' => is_white_space c && all_white_space s'
  end.

(** [s.trim().length === 0] *)
Definition trim_is_empty (s : string) : bool := all_white_space s.

(** A [Set] of strings, iterated in insertion order. *)
Definition set_add (x : string) (s : list string) : list string :=
  if bool_decide (x ∈ s) then s else s ++ [x].

Definition set_delete (x : string) (s : list string) : list string :=
  filter (λ y, y ≠ x) s.

(** A value as [JSON.parse] or [express.json()] gives it.  A number is kept
    by its decimal form, the one [String(n)] gives; an object by its own
    properties in the order of its keys, each key once.  Such a value has
    [Object.prototype] or [Array.prototype] above it and nothing callable
    in it. *)
#[local] Unset Elimination Schemes.
Inductive Value :=
| JNull
| JBool (b : bool)
| JNumber (shown : string)
| JString (s : string)
| JArray (items : list Value)
| JObject (fields : list (string * Value)).
#[local] Set Elimination Schemes.

(** The value bound to a key in a list of properties. *)
Fixpoint assoc {A : Type} (k : string) (fields : list (string * A)) : option A :=
  match fields with
  | [] => None
  | kv :: rest => if bool_decide (kv.1 = k) then Some kv.2 else assoc k rest
  end.

(** [v.k] for a value [v] other than [null] and a key that no prototype
    defines ([type], [callId], [audio], ...): the own property of an
    object, [undefined] ([None]) otherwise. *)
Definition field (k : string) (v : Value) : option Value :=
  match v with
  | JObject fields => assoc k fields
  | _ => None
  end.

(** [String(v)], the conversion a template literal applies; [None] when it
    throws a [TypeError].  An array is joined with commas, [null] elements
    giving the empty string.  An object without an own [toString] is
    written by [Object.prototype.toString]; an own [toString] hides that
    method and is not callable, and [valueOf] gives no primitive either, so
    the conversion throws. *)
Fixpoint to_string (v : Value) : option string :=
  match v with
  | JNull => Some "null"
  | JBool b => Some (if b then "true" else "false")
  | JNumber shown => Some shown
  | JString s => Some s
  | JArray items =>
      (fix join (l : list Value) : option string :=
         match l with
         | [] => Some ""
         | x :: rest =>
             match (match x with JNull => Some "" | _ => to_string x end) with
             | None => None
             | Some s =>
                 match rest with
                 | [] => Some s
                 | _ :: _ =>
                     match join rest with
                     | None => None
                     | Some r => Some (s +:+ "," +:+ r)
                     end
                 end
             end
         end) items
  | JObject fields =>
      if bool_decide ("toString" ∈ fields.*1) then None else Some "[object Object]"
  end.

(** [`${v}`] for a value that may be [undefined]. *)
Definition template (v : option Value) : option string :=
  match v with
  | None => Some "undefined"
  | Some v => to_string v
  end.

(** Truthiness of such a value: [undefined], [null], [false], [0] and the
    empty string are falsy, every array and object is truthy. *)
Definition truthy_value (v : option Value) : bool :=
  match v with
  | None | Some JNull => false
  | Some (JBool b) => b
  | Some (JNumber shown) => negb (String.eqb shown "0")
  | Some (JString s) => negb (String.eqb s "")
  | Some (JArray _) | Some (JObject _) => true
  end.

(** Whether a property key is an array index: the canonical decimal form
    of an integer below 2^32 - 1. *)
Definition digit (c : Ascii.ascii) : option N :=
  let n := Ascii.N_of_ascii c in
  if (48 <=? n)%N && (n <=? 57)%N then Some (n - 48)%N else None.

Fixpoint digits (acc : N) (s : string) : option N :=
  match s with
  | EmptyString => Some acc
  | String c s' =>
      match digit c with
      | Some d => digits (acc * 10 + d)%N s'
      | None => None
      end
  end.

Definition array_index (k : string) : option N :=
  match k with
  | EmptyString => None
  | String c rest =>
      if (Ascii.nat_of_ascii c =? 48) && negb (String.eqb rest "") then None
      else
        match digits 0 k with
        | Some n => if (n <? 4294967295)%N then Some n else None
        | None => None
        end
  end.

(** The order of the own keys of an object whose properties were created
    in the order of the list: the array indices ascending, then the other
    keys in the order of their creation. *)
Fixpoint insert_index {A : Type} (n : N) (kv : string * A) (l : list (string * A))
    : list (string * A) :=
  match l with
  | [] => [kv]
  | kv' :: rest =>
      match array_index kv'.1 with
      | Some m => if (m <? n)%N then kv' :: insert_index n kv rest else kv :: l
      | None => kv :: l
      end
  end.

Definition own_keys {A : Type} (created : list (string * A)) : list (string * A) :=
  foldr (λ kv sorted,
           match array_index kv.1 with
           | Some n => insert_index n kv sorted
           | None => sorted
           end) [] created
  ++ filter (λ kv, array_index kv.1 = None) created.

(** The lower-case form of an ASCII letter, as a route matched without
    regard to case sees it. *)
Definition lower (c : Ascii.ascii) : Ascii.ascii :=
  let n := Ascii.nat_of_ascii c in
  if (65 <=? n) && (n <=? 90) then Ascii.ascii_of_nat (n + 32) else c.

Fixpoint lower_case (s : string) : string :=
  match s with
  | EmptyString => EmptyString
  | String c s' => String (lower c) (lower_case s')
  end.

End Js.

(** ** Transport, messages and effects *)

(** The [ws] handle of a connection.  [peer] names the remote end;
    [sendError = Some e] is a socket on which [ws.send] throws [Error(e)]. *)
Record WebSocket := mkWebSocket {
  peer : string;
  sendError : option string
}.

(** A call record of [CallService.activeCalls].  [answeredAt], [endedAt],
    [duration] and [summary] are absent until the code assigns them. *)
Record Call := mkCall {
  callId : string;
  phoneNumber : string;
  deviceId : string;
  startTime : Z;
  isIncoming : bool;
  status : string;
  transcript : string;
  processingTime : Z;
  answeredAt : option Z;
  endedAt : option Z;
  duration : option Z;
  summary : option string
}.

(** [Buffer.from(base64Audio, 'base64')], kept symbolic. *)
Inductive Buffer := BufferFromBase64 (base64Audio : string).

(** Outbound JSON messages, one constructor per object literal handed to
    [JSON.stringify]; [MsgJson] is a message built by a caller of the
    registry. *)
Inductive Message :=
| MsgInfo (message connectionId : string)
| MsgError (message : string)
| MsgCallUpdate (callId : string) (call : Call)
| MsgCallTranscript (callId transcript : string) (isFinal : bool) (timestamp : Z)
| MsgCallAiResponse (callId response : string) (timestamp : Z)
| MsgCallCommand (callId responseType text : string)
| MsgCallSummary (callId : string) (summary : option string) (timestamp : Z)
| MsgJson (payload : string).

(** Which of the three [processSpeech] call sites issued a request. *)
Inductive SpeechUse := Transcribe | Respond | Summarize.

(** What the server does to the outside world. *)
Inductive Event :=
| WsSend (ws : WebSocket) (m : Message)
| WsClose (ws : WebSocket)
| SpeechRequest (use : SpeechUse) (callId text : string)
| WhatsAppCall (callId phoneNumber : string) (isIncoming : bool)
| WhatsAppSummary (callId : string) (summary : string)
| SetTimeoutCleanup (callId : string) (delay : Z)
| LogWarn (text : string).

Global Instance WebSocket_eq_dec : EqDecision WebSocket.
Proof. solve_decision. Defined.
Global Instance Call_eq_dec : EqDecision Call.
Proof. solve_decision. Defined.
Global Instance Buffer_eq_dec : EqDecision Buffer.
Proof. solve_decision. Defined.
Global Instance Message_eq_dec : EqDecision Message.
Proof. solve_decision. Defined.
Global Instance SpeechUse_eq_dec : EqDecision SpeechUse.
Proof. solve_decision. Defined.
Global Instance Event_eq_dec : EqDecision Event.
Proof. solve_decision. Defined.

(** [ws.send(JSON.stringify(m))]: [None] when the write returns, [Some e]
    when it throws. *)
Definition ws_send (ws : WebSocket) : option string := sendError ws.

(** ** The connection registry (services/deviceManager.js) *)

Module DeviceManager.

Record Device := mkDevice {
  id : string;
  ws : WebSocket;
  connectedAt : Z;
  lastActive : Z;
  deviceInfo : list (string * string);
  isActive : bool
}.

Definition set_lastActive (d : Device) (t : Z) : Device :=
  mkDevice (id d) (ws d) (connectedAt d) t (deviceInfo d) (isActive d).

Definition set_deviceInfo (d : Device) (i : list (string * string)) : Device :=
  mkDevice (id d) (ws d) (connectedAt d) (lastActive d) i (isActive d).

Definition registerDevice (devices : gmap string Device) (i : string) (w : WebSocket)
    (now : Z) : Device * gmap string Device :=
  let device := mkDevice i w now now [] true in
  (device, <[i := device]> devices).

Definition unregisterDevice (devices : gmap string Device) (i : string) : gmap string Device :=
  if bool_decide (is_Some (devices !! i)) then delete i devices else devices.

(** [{ ...device.deviceInfo, ...info }]: a key of [deviceInfo] keeps its
    place and takes the value [info] has for it, if any; the keys [info]
    alone has follow in their order; the keys of the new object come in the
    order of own keys. *)
Definition merge_info (old info : list (string * string)) : list (string * string) :=
  Js.own_keys
    (((λ kv, (kv.1, default kv.2 (Js.assoc kv.1 info))) <$> old)
     ++ filter (λ kv, kv.1 ∉ old.*1) info).

Definition updateDeviceInfo (devices : gmap string Device) (i : string)
    (info : list (string * string)) (now : Z) : gmap string Device :=
  match devices !! i with
  | Some device =>
      let merged := merge_info (deviceInfo device) info in
      <[i := set_lastActive (set_deviceInfo device merged) now]> devices
  | None => devices
  end.

Definition getDevice (devices : gmap string Device) (i : string) : option Device :=
  devices !! i.

Definition sendToDevice (devices : gmap string Device) (i : string) (message : Message)
    (now : Z) : bool * gmap string Device * list Event :=
  match devices !! i with
  | None => (false, devices, [])
  | Some device =>
      match ws_send (ws device) with
      | None =>
          (true, <[i := set_lastActive device now]> devices,
           [WsSend (ws device) message])
      | Some _ => (false, devices, [])
      end
  end.

(** One iteration of the [forEach] of [broadcastToAll]. *)
Definition deliver (now : Z) (device : Device) : Device :=
  match ws_send (ws device) with
  | None => set_lastActive device now
  | Some _ => device
  end.

Definition delivered (device : Device) : bool :=
  bool_decide (ws_send (ws device) = None).

Record BroadcastStatus := mkStatus { successCount : nat; failedCount : nat }.

Definition broadcastToAll (devices : gmap string Device) (message : Message) (now : Z)
    : BroadcastStatus * gmap string Device * list Event :=
  let ok := filter (λ kv, delivered kv.2 = true) devices in
  (mkStatus (size ok) (size devices - size ok),
   deliver now <$> devices,
   (λ kv, WsSend (ws kv.2) message) <$> map_to_list ok).

(** [const { ws, ...deviceInfo } = device] *)
Record DeviceView := mkView {
  view_id : string;
  view_connectedAt : Z;
  view_lastActive : Z;
  view_deviceInfo : list (string * string);
  view_isActive : bool
}.

Definition getAllDevices (devices : gmap string Device) : list DeviceView :=
  (λ kv, let d := kv.2 in
         mkView (id d) (connectedAt d) (lastActive d) (deviceInfo d) (isActive d))
  <$> map_to_list devices.

(** [30 * 60 * 1000] *)
Definition defaultMaxInactiveTime : Z := (30 * 60 * 1000)%Z.

Definition inactive (now maxInactiveTime : Z) (device : Device) : Prop :=
  (now - lastActive device > maxInactiveTime)%Z.

Global Instance inactive_dec now m d : Decision (inactive now m d).
Proof. unfold inactive. apply _. Defined.

Definition cleanInactiveDevices (devices : gmap string Device) (maxInactiveTime now : Z)
    : nat * gmap string Device * list Event :=
  let gone := filter (λ kv, inactive now maxInactiveTime kv.2) devices in
  (size gone,
   filter (λ kv, ¬ inactive now maxInactiveTime kv.2) devices,
   (λ kv, WsClose (ws kv.2)) <$> map_to_list gone).

End DeviceManager.

(** ** Call sessions (services/twilio.js, class CallService) *)

Module CallService.

(** The four [Map]s the constructor creates. *)
Record State := mkState {
  activeCalls : gmap string Call;
  callAudioChunks : gmap string (list Buffer);
  callTranscriptions : gmap string string;
  callObservers : gmap string (list string)
}.

(** [new CallService()] *)
Definition initial : State := mkState ∅ ∅ ∅ ∅.

(** [{ success: true, call }], [{ success: true }] and
    [{ success: false, error }]. *)
Inductive Result :=
| Success (call : option Call)
| Failure (error : string).

Definition set_activeCalls (st : State) (m : gmap string Call) : State :=
  mkState m (callAudioChunks st) (callTranscriptions st) (callObservers st).

Definition set_callAudioChunks (st : State) (m : gmap string (list Buffer)) : State :=
  mkState (activeCalls st) m (callTranscriptions st) (callObservers st).

Definition set_callTranscriptions (st : State) (m : gmap string string) : State :=
  mkState (activeCalls st) (callAudioChunks st) m (callObservers st).

Definition set_callObservers (st : State) (m : gmap string (list string)) : State :=
  mkState (activeCalls st) (callAudioChunks st) (callTranscriptions st) m.

Definition set_status (c : Call) (s : string) : Call :=
  mkCall (callId c) (phoneNumber c) (deviceId c) (startTime c) (isIncoming c) s
    (transcript c) (processingTime c) (answeredAt c) (endedAt c) (duration c) (summary c).

Definition set_answeredAt (c : Call) (t : Z) : Call :=
  mkCall (callId c) (phoneNumber c) (deviceId c) (startTime c) (isIncoming c) (status c)
    (transcript c) (processingTime c) (Some t) (endedAt c) (duration c) (summary c).

Definition set_endedAt (c : Call) (t : Z) : Call :=
  mkCall (callId c) (phoneNumber c) (deviceId c) (startTime c) (isIncoming c) (status c)
    (transcript c) (processingTime c) (answeredAt c) (Some t) (duration c) (summary c).

Definition set_duration (c : Call) (d : Z) : Call :=
  mkCall (callId c) (phoneNumber c) (deviceId c) (startTime c) (isIncoming c) (status c)
    (transcript c) (processingTime c) (answeredAt c) (endedAt c) (Some d) (summary c).

Definition set_transcript (c : Call) (t : string) : Call :=
  mkCall (callId c) (phoneNumber c) (deviceId c) (startTime c) (isIncoming c) (status c)
    t (processingTime c) (answeredAt c) (endedAt c) (duration c) (summary c).

Definition set_summary (c : Call) (s : option string) : Call :=
  mkCall (callId c) (phoneNumber c) (deviceId c) (startTime c) (isIncoming c) (status c)
    (transcript c) (processingTime c) (answeredAt c) (endedAt c) (duration c) s.

(** The [metadata] argument of [processSpeech]. *)
Record SpeechMeta := mkMeta {
  meta_callId : string;
  meta_phoneNumber : option string;
  meta_duration : option Z;
  meta_inProgress : bool
}.

(** The body shared by the four [broadcast...] methods:
    [observers.forEach(clientId => { const client = getDevice(clientId);
    if (client && client.ws) client.ws.send(...) })].  The result is the
    writes made and, when a write threw, the error that left the loop. *)
Fixpoint sendEach (devices : gmap string DeviceManager.Device)
    (observers : list string) (message : Message) : list Event * option string :=
  match observers with
  | [] => ([], None)
  | clientId :: rest =>
      match DeviceManager.getDevice devices clientId with
      | None => sendEach devices rest message
      | Some client =>
          match ws_send (DeviceManager.ws client) with
          | Some e => ([], Some e)
          | None =>
              let '(sent, thrown) := sendEach devices rest message in
              (WsSend (DeviceManager.ws client) message :: sent, thrown)
          end
      end
  end.

Definition broadcast (devices : gmap string DeviceManager.Device) (st : State)
    (callId : string) (message : Message) : list Event * option string :=
  match callObservers st !! callId with
  | None => ([], None)
  | Some observers =>
      if bool_decide (length observers = 0) then ([], None)
      else sendEach devices observers message
  end.

(** [{ ...call, transcript: undefined }]: the transcript is left out of the
    update; the view carries the empty string in its place. *)
Definition broadcastCallUpdate (devices : gmap string DeviceManager.Device)
    (st : State) (callId : string) (call : Call) : list Event * option string :=
  broadcast devices st callId (MsgCallUpdate callId (set_transcript call "")).

Definition broadcastTranscriptionUpdate (devices : gmap string DeviceManager.Device)
    (st : State) (callId transcript : string) (isFinal : bool) (now : Z)
    : list Event * option string :=
  broadcast devices st callId (MsgCallTranscript callId transcript isFinal now).

Definition broadcastAiResponse (devices : gmap string DeviceManager.Device)
    (st : State) (callId response : string) (now : Z) : list Event * option string :=
  broadcast devices st callId (MsgCallAiResponse callId response now).

Definition broadcastCallSummary (devices : gmap string DeviceManager.Device)
    (st : State) (callId : string) (summary : option string) (now : Z)
    : list Event * option string :=
  broadcast devices st callId (MsgCallSummary callId summary now).

Definition addCallObserver (st : State) (callId clientId : string) : State :=
  let observers := default [] (callObservers st !! callId) in
  set_callObservers st (<[callId := Js.set_add clientId observers]> (callObservers st)).

Definition removeCallObserver (st : State) (callId clientId : string) : State :=
  match callObservers st !! callId with
  | Some observers =>
      set_callObservers st (<[callId := Js.set_delete clientId observers]> (callObservers st))
  | None => st
  end.

Definition cleanupCall (st : State) (callId : string) : State :=
  set_callAudioChunks st (delete callId (callAudioChunks st)).

(** [Array.from(this.activeCalls.values())], up to the order of the
    entries. *)
Definition getActiveCalls (st : State) : list Call :=
  (map_to_list (activeCalls st)).*2.

Definition getCall (st : State) (callId : string) : option Call :=
  activeCalls st !! callId.

(** The delay of the [setTimeout] that runs [cleanupCall]. *)
Definition cleanupDelay : Z := 60000%Z.

Section WithCollaborators.

(** [processSpeech] of the AI service: the reply to a text, [None] for a
    nullish one.  It catches its own failures and never throws. *)
Variable processSpeech : string → SpeechMeta → option string.

(** [whatsappClient.isReady && whatsappClient.assistantGroup] *)
Variable whatsappReady : bool.

Definition registerCall (devices : gmap string DeviceManager.Device) (st : State)
    (callId phoneNumber deviceId : string) (isIncoming : bool) (now : Z)
    : Result * State * list Event :=
  let call := mkCall callId phoneNumber deviceId now isIncoming "ringing" "" 0
                None None None None in
  let st' := mkState (<[callId := call]> (activeCalls st))
                     (<[callId := []]> (callAudioChunks st))
                     (<[callId := ""]> (callTranscriptions st))
                     (callObservers st) in
  let notice := if whatsappReady then [WhatsAppCall callId phoneNumber isIncoming] else [] in
  let '(sent, thrown) := broadcastCallUpdate devices st' callId call in
  (match thrown with None => Success (Some call) | Some e => Failure e end,
   st', notice ++ sent).

(** [finalizeCallProcessing] up to its [await]: the summary request it
    issues, if it issues one. *)
Definition finalizeBegin (st : State) (callId : string) : option (string * SpeechMeta) :=
  match activeCalls st !! callId with
  | None => None
  | Some call =>
      let fullTranscript := default "" (callTranscriptions st !! callId) in
      if Js.trim_is_empty fullTranscript then None
      else Some (fullTranscript,
                 mkMeta callId (Some (phoneNumber call))
                        (Some (default 0%Z (duration call))) false)
  end.

(** [finalizeCallProcessing] from the reply to its summary request on, at
    the call record the map holds. *)
Definition finalizeResume (devices : gmap string DeviceManager.Device) (st : State)
    (callId : string) (reply : option string) (now : Z) : State * list Event :=
  match activeCalls st !! callId with
  | None => (st, [])
  | Some call =>
      let st' := set_activeCalls st (<[callId := set_summary call reply]> (activeCalls st)) in
      let notice :=
        if Js.truthy reply && whatsappReady
        then [WhatsAppSummary callId (default "" reply)] else [] in
      let '(sent, thrown) := broadcastCallSummary devices st' callId reply now in
      (st', notice ++ sent ++
            match thrown with
            | None => [SetTimeoutCleanup callId cleanupDelay]
            | Some _ => []
            end)
  end.

(** The assignments [updateCallStatus] makes to the call record:
    [call.status = status], then [answeredAt], or [endedAt] and
    [duration = Math.round((endedAt - (answeredAt || startTime)) / 1000)]. *)
Definition withStatus (call0 : Call) (status : string) (now : Z) : Call :=
  let call1 := set_status call0 status in
  if String.eqb status "answered" then set_answeredAt call1 now
  else if String.eqb status "ended" then
    set_duration (set_endedAt call1 now)
      (Js.round_seconds (now - default (startTime call1) (answeredAt call1)))
  else call1.

(** [updateCallStatus] as its caller sees it return; a finalization it
    started is then waiting for the summary ([finalizeBegin] of the
    returned state tells). *)
Definition updateCallStatus (devices : gmap string DeviceManager.Device) (st : State)
    (callId status : string) (now : Z) : Result * State * list Event :=
  match activeCalls st !! callId with
  | None => (Failure "Call not found", st, [])
  | Some call0 =>
      let call := withStatus call0 status now in
      let st' := set_activeCalls st (<[callId := call]> (activeCalls st)) in
      let request :=
        if String.eqb status "ended" then
          match finalizeBegin st' callId with
          | Some (text, meta) => [SpeechRequest Summarize callId text]
          | None => []
          end
        else [] in
      let '(sent, thrown) := broadcastCallUpdate devices st' callId call in
      (match thrown with None => Success (Some call) | Some e => Failure e end,
       st', request ++ sent)
  end.

(** [updateCallStatus] followed by the rest of the finalization it started,
    resumed at time [later] with the reply of the speech service. *)
Definition updateCallStatusSettled (devices : gmap string DeviceManager.Device)
    (st : State) (callId status : string) (now later : Z)
    : Result * State * list Event :=
  let '(r, st1, evs) := updateCallStatus devices st callId status now in
  if String.eqb status "ended" then
    match finalizeBegin st1 callId with
    | Some (text, meta) =>
        let '(st2, evs2) := finalizeResume devices st1 callId (processSpeech text meta) later in
        (r, st2, evs ++ evs2)
    | None => (r, st1, evs)
    end
  else (r, st1, evs).

(** [audioChunks.length % 20 !== 0 && audioChunks.length > 1]: the chunks
    for which [processAudioForTranscription] returns [null] at once. *)
Definition skipsTranscription (n : nat) : bool :=
  negb (n mod 20 =? 0) && (1 <? n).

(** The transcript update ([null] is [None]) and the request made. *)
Definition processAudioForTranscription (st : State) (callId : string)
    : option string * list Event :=
  let audioChunks := default [] (callAudioChunks st !! callId) in
  if skipsTranscription (length audioChunks) then (None, [])
  else
    match activeCalls st !! callId with
    | None => (None, [])
    | Some call =>
        let text := "Audio chunk " +:+ pretty (length audioChunks) +:+
                    " from call with " +:+ phoneNumber call in
        let recentTranscript := processSpeech text (mkMeta callId None None true) in
        (Some (Js.or_else recentTranscript "Unintelligible audio"),
         [SpeechRequest Transcribe callId text])
    end.

(** Exceptions are caught and logged inside: only the effects remain. *)
Definition processTranscriptForResponse (devices : gmap string DeviceManager.Device)
    (st : State) (callId transcript : string) (now : Z) : list Event :=
  match activeCalls st !! callId with
  | None => []
  | Some call =>
      let aiResponse :=
        processSpeech transcript (mkMeta callId (Some (phoneNumber call)) None true) in
      SpeechRequest Respond callId transcript ::
      if Js.truthy aiResponse then
        let response := default "" aiResponse in
        match DeviceManager.getDevice devices (deviceId call) with
        | Some device =>
            match ws_send (DeviceManager.ws device) with
            | Some _ => []
            | None =>
                WsSend (DeviceManager.ws device) (MsgCallCommand callId "speak" response)
                :: (broadcastAiResponse devices st callId response now).1
            end
        | None => (broadcastAiResponse devices st callId response now).1
        end
      else []
  end.

(** [processCallAudio], each [await] answered before anything else runs. *)
Definition processCallAudio (devices : gmap string DeviceManager.Device) (st : State)
    (callId base64Audio : string) (now : Z) : Result * State * list Event :=
  match activeCalls st !! callId with
  | None => (Failure "Call not found", st, [])
  | Some call =>
      let audioBuffer := BufferFromBase64 base64Audio in
      let chunks :=
        match callAudioChunks st !! callId with
        | Some stored => stored ++ [audioBuffer]
        | None => [audioBuffer]
        end in
      let st1 := set_callAudioChunks st (<[callId := chunks]> (callAudioChunks st)) in
      let '(transcriptionUpdate, requested) := processAudioForTranscription st1 callId in
      if Js.truthy transcriptionUpdate then
        let delta := default "" transcriptionUpdate in
        let call' := set_transcript call (transcript call +:+ " " +:+ delta) in
        let st2 := mkState (<[callId := call']> (activeCalls st1))
                           (callAudioChunks st1)
                           (<[callId := transcript call']> (callTranscriptions st1))
                           (callObservers st1) in
        let '(sent, thrown) :=
          broadcastTranscriptionUpdate devices st2 callId delta false now in
        match thrown with
        | Some e => (Failure e, st2, requested ++ sent)
        | None =>
            (Success None, st2,
             requested ++ sent ++ processTranscriptForResponse devices st2 callId delta now)
        end
      else (Success None, st1, requested)
  end.

Definition sendCallCommand (devices : gmap string DeviceManager.Device) (st : State)
    (callId command text : string) : Result * list Event :=
  match activeCalls st !! callId with
  | None => (Failure "Call not found", [])
  | Some call =>
      match DeviceManager.getDevice devices (deviceId call) with
      | None => (Failure "Device not connected", [])
      | Some device =>
          match ws_send (DeviceManager.ws device) with
          | Some e => (Failure e, [])
          | None =>
              (Success None,
               [WsSend (DeviceManager.ws device) (MsgCallCommand callId command text)])
          end
      end
  end.

(** Ingesting a sequence of fragments, one [processCallAudio] after the
    other; the events of all of them, in order. *)
Fixpoint ingestAll (devices : gmap string DeviceManager.Device) (st : State)
    (callId : string) (fragments : list string) (now : Z) : State * list Event :=
  match fragments with
  | [] => (st, [])
  | f :: rest =>
      let '(_, st1, evs) := processCallAudio devices st callId f now in
      let '(st2, evs') := ingestAll devices st1 callId rest now in
      (st2, evs ++ evs')
  end.

(** [n] status updates to [ended] in a row, each one settled. *)
Fixpoint endRepeatedly (devices : gmap string DeviceManager.Device) (st : State)
    (callId : string) (n : nat) (now : Z) : State * list Event :=
  match n with
  | O => (st, [])
  | S n' =>
      let '(_, st1, evs) := updateCallStatusSettled devices st callId "ended" now now in
      let '(st2, evs') := endRepeatedly devices st1 callId n' now in
      (st2, evs ++ evs')
  end.

End WithCollaborators.

(** The status a reader finds stored for the call after each of a sequence
    of status updates. *)
Fixpoint statusHistory (devices : gmap string DeviceManager.Device) (st : State)
    (callId : string) (updates : list string) (now : Z) : list (option string) :=
  match updates with
  | [] => []
  | s :: rest =>
      let st1 := (updateCallStatus devices st callId s now).1.2 in
      (status <$> activeCalls st1 !! callId)
      :: statusHistory devices st1 callId rest now
  end.

(** The transcription attempts for a call among some events. *)
Definition isTranscriptionAttempt (callId : string) (e : Event) : bool :=
  match e with
  | SpeechRequest Transcribe c _ => bool_decide (c = callId)
  | _ => false
  end.


(** The three effects of the finalize step among some events. *)
Definition isSummaryRequest (callId : string) (e : Event) : bool :=
  match e with
  | SpeechRequest Summarize c _ => bool_decide (c = callId)
  | _ => false
  end.

Definition isSummaryBroadcast (callId : string) (e : Event) : bool :=
  match e with
  | WsSend _ (MsgCallSummary c _ _) => bool_decide (c = callId)
  | _ => false
  end.

Definition isCleanupTimer (callId : string) (e : Event) : bool :=
  match e with
  | SetTimeoutCleanup c _ => bool_decide (c = callId)
  | _ => false
  end.

(** Every observer of the list that is registered has a socket that takes
    writes. *)
Definition allWritable (devices : gmap string DeviceManager.Device)
    (observers : list string) : Prop :=
  ∀ o d, o ∈ observers → devices !! o = Some d →
         sendError (DeviceManager.ws d) = None.

(** The registered observers of a list, in order. *)
Definition present (devices : gmap string DeviceManager.Device)
    (observers : list string) : list DeviceManager.Device :=
  omap (λ o, devices !! o) observers.

Definition count (p : Event → bool) (evs : list Event) : nat :=
  length (filter (λ e, p e = true) evs).

Definition transcriptionAttempts (callId : string) (evs : list Event) : nat :=
  count (isTranscriptionAttempt callId) evs.

(** The number of fragments, among the first [n] of a call, that are the
    first one or a twentieth one. *)
Definition firstAndTwentieths (n : nat) : nat :=
  (if n =? 0 then 0 else 1) + n / 20.

End CallService.

(** ** The WebSocket handlers of the server (index.js) *)

Module Router.

(** [data], the value [JSON.parse(message)] gives, and the fields the
    message handler reads off it; [None] is [undefined]. *)
Definition Data := Js.Value.

Definition type (data : Data) : option Js.Value := Js.field "type" data.
Definition callId (data : Data) : option Js.Value := Js.field "callId" data.
Definition phoneNumber (data : Data) : option Js.Value := Js.field "phoneNumber" data.
Definition audio (data : Data) : option Js.Value := Js.field "audio" data.
Definition status (data : Data) : option Js.Value := Js.field "status" data.
Definition isIncoming (data : Data) : option Js.Value := Js.field "isIncoming" data.

(** [JSON.parse(message)]: a syntax error, or the value parsed. *)
Inductive Parsed :=
| SyntaxError
| JsonValue (data : Data).

(** What a message is handed to, with the arguments as the handler passes
    them on. *)
Inductive Dispatch :=
| UpdateDeviceInfo (connectionId : string) (data : Data)
| HandleNotification (data : Data)
| HandleSMS (data : Data)
| HandleCall (data : Data)
| ProcessCallAudio (callId audio : option Js.Value)
| RegisterCall (callId phoneNumber : option Js.Value) (deviceId : string)
    (isIncoming : option Js.Value)
| UpdateCallStatus (callId status : option Js.Value)
| AddCallObserver (callId : option Js.Value) (clientId : string)
| Command
| WarnUnknown (type : option Js.Value).

(** [data.type === t] for a string [t]: no value but that string is
    strictly equal to it. *)
Definition typeIs (data : Data) (t : string) : bool :=
  match type data with
  | Some (Js.JString s) => bool_decide (s = t)
  | _ => false
  end.

(** The [if (data.type === 'init')] and the [switch (data.type)]. *)
Definition route (connectionId : string) (data : Data) : Dispatch :=
  if typeIs data "init" then UpdateDeviceInfo connectionId data
  else if typeIs data "notification" then HandleNotification data
  else if typeIs data "sms" then HandleSMS data
  else if typeIs data "call" then HandleCall data
  else if typeIs data "call_audio" then ProcessCallAudio (callId data) (audio data)
  else if typeIs data "call_register" then
    RegisterCall (callId data) (phoneNumber data) connectionId (isIncoming data)
  else if typeIs data "call_status" then UpdateCallStatus (callId data) (status data)
  else if typeIs data "call_observe" then AddCallObserver (callId data) connectionId
  else if typeIs data "command" then Command
  else WarnUnknown (type data).

(** The types the handler has a case for. *)
Definition knownTypes : list string :=
  ["init"; "notification"; "sms"; "call"; "call_audio"; "call_register";
   "call_status"; "call_observe"; "command"].

Definition errorReply : Message := MsgError "Failed to process message".

(** The reply of the [catch] block; nothing is sent if that write throws
    too. *)
Definition replyError (w : WebSocket) : list Event :=
  match ws_send w with
  | None => [WsSend w errorReply]
  | Some _ => []
  end.

Section WithHandlers.

(** Whether the awaited [handleNotification], [handleSMS] or [handleCall]
    rejects.  The methods of the call service and of the device manager
    catch their own exceptions and return. *)
Variable rejects : Data → bool.

Definition handlerThrows (d : Dispatch) : bool :=
  match d with
  | HandleNotification data | HandleSMS data | HandleCall data => rejects data
  | _ => false
  end.

(** [ws.on('message', ...)]: what the message was handed to and what the
    handler itself writes or logs.  Inside the [try], [JSON.parse] throws
    on a syntax error, reading [data.type] throws on [null], and the
    template literal of the first log line throws on a type that has no
    string form; the [switch] comes after that line. *)
Definition onMessage (connectionId : string) (w : WebSocket) (message : Parsed)
    : option Dispatch * list Event :=
  match message with
  | SyntaxError => (None, replyError w)
  | JsonValue Js.JNull => (None, replyError w)
  | JsonValue data =>
      match Js.template (type data) with
      | None => (None, replyError w)
      | Some shown =>
          let d := route connectionId data in
          (Some d,
           match d with
           | WarnUnknown _ => [LogWarn ("Unknown message type: " +:+ shown)]
           | _ => if handlerThrows d then replyError w else []
           end)
      end
  end.

End WithHandlers.

(** The registry and the call service: the two singletons of the server. *)
Record Server := mkServer {
  devices : gmap string DeviceManager.Device;
  calls : CallService.State
}.

(** [wss.on('connection', ...)] up to the welcome message. *)
Definition onConnection (s : Server) (connectionId : string) (w : WebSocket) (now : Z)
    : Server * list Event :=
  (mkServer (DeviceManager.registerDevice (devices s) connectionId w now).2 (calls s),
   match ws_send w with
   | None => [WsSend w (MsgInfo "Connected to everydAI server" connectionId)]
   | Some _ => []
   end).

(** [ws.on('close', ...)] *)
Definition onClose (s : Server) (connectionId : string) : Server :=
  mkServer (DeviceManager.unregisterDevice (devices s) connectionId) (calls s).

(** A [call_observe] message of a connection, all fields present. *)
Definition onCallObserve (s : Server) (connectionId callId : string) : Server :=
  mkServer (devices s) (CallService.addCallObserver (calls s) callId connectionId).

(** The replies among some events. *)
Definition isReply (e : Event) : bool :=
  match e with
  | WsSend _ _ => true
  | _ => false
  end.

End Router.

(** ** The state machine of the specification *)

Module Spec.

(** The legal successors as the specification words them:
    [ringing -> answered -> in_progress -> ended], and [ended] from any
    state that is not terminal. *)
Definition legalSuccessor (current next : string) : bool :=
  (String.eqb current "ringing" && String.eqb next "answered")
  || (String.eqb current "answered" && String.eqb next "in_progress")
  || (String.eqb current "in_progress" && String.eqb next "ended")
  || (negb (String.eqb current "ended") && String.eqb next "ended").

End Spec.

(** ** Concrete runs *)

Module Scenario.

(** A speech service that answers every request with the same words. *)
Definition speech (text : string) (meta : CallService.SpeechMeta) : option string :=
  Some "hello".

(** No WhatsApp group is attached. *)
Definition whatsapp : bool := false.

Definition socket (name : string) : WebSocket := mkWebSocket name None.

(** Two observers, [o1] and [o2], connected at time 0. *)
Definition observers : gmap string DeviceManager.Device :=
  (DeviceManager.registerDevice
     (DeviceManager.registerDevice ∅ "o1" (socket "o1") 0).2
     "o2" (socket "o2") 0).2.

(** Call [c1] from [+15551234567] on device [d1], registered at time 0. *)
Definition registered : CallService.State :=
  (CallService.registerCall whatsapp ∅ CallService.initial
     "c1" "+15551234567" "d1" true 0).1.2.

(** ... answered one second later. *)
Definition answered : CallService.State :=
  (CallService.updateCallStatus ∅ registered "c1" "answered" 1000).1.2.

(** ... and ended 42 seconds after that. *)
Definition ended : CallService.State :=
  (CallService.updateCallStatus ∅ answered "c1" "ended" 43000).1.2.

(** A second [ended] update ten seconds later. *)
Definition endedAgain : CallService.State :=
  (CallService.updateCallStatus ∅ ended "c1" "ended" 53000).1.2.

(** [c1] registered a second time, four seconds after it was answered. *)
Definition reRegistered : CallService.Result * CallService.State * list Event :=
  CallService.registerCall whatsapp ∅ answered "c1" "+15551234567" "d1" true 5000.

(** [c1] ended straight from [ringing], then set back to [in_progress]. *)
Definition endedEarly : CallService.State :=
  (CallService.updateCallStatus ∅ registered "c1" "ended" 1000).1.2.

Definition resumed : CallService.Result * CallService.State * list Event :=
  CallService.updateCallStatus ∅ endedEarly "c1" "in_progress" 2000.

(** [o1] observes [c1], which then receives one audio fragment. *)
Definition observed : CallService.State :=
  CallService.addCallObserver registered "c1" "o1".

Definition heard : CallService.State :=
  (CallService.processCallAudio speech observers observed "c1" "AAAA" 500).1.2.

(** Two [ended] updates for that call. *)
Definition endedTwice : CallService.State * list Event :=
  CallService.endRepeatedly speech whatsapp observers heard "c1" 2 1000.

(** Nineteen fragments, then one more. *)
Definition nineteen : list string := replicate 19 "AAAA".

Definition afterNineteen : CallService.State * list Event :=
  CallService.ingestAll speech ∅ registered "c1" nineteen 500.

Definition afterTwentieth : CallService.Result * CallService.State * list Event :=
  CallService.processCallAudio speech ∅ afterNineteen.1 "c1" "AAAA" 600.

(** [o1] connects, observes [c1] and disconnects. *)
Definition connected : Router.Server :=
  (Router.onConnection (Router.mkServer ∅ registered) "o1" (socket "o1") 0).1.

Definition disconnected : Router.Server :=
  Router.onClose (Router.onCallObserve connected "o1" "c1") "o1".

(** A message of a type the server does not know, and a registration
    without any of its fields. *)
Definition bogus : Router.Data :=
  Js.JObject [("type", Js.JString "bogus")].

Definition bareRegister : Router.Data :=
  Js.JObject [("type", Js.JString "call_register")].

(** A message whose type has no string form. *)
Definition unprintable : Router.Data :=
  Js.JObject [("type", Js.JObject [("toString", Js.JNull)])].

Definition neverRejects (data : Router.Data) : bool := false.

(** [o1] and [o2] observe [c1]; so does [ghost], which never connected. *)
Definition threeObservers : CallService.State :=
  CallService.addCallObserver
    (CallService.addCallObserver
       (CallService.addCallObserver registered "c1" "o1") "c1" "o2") "c1" "ghost".

(** [c1] ended with a transcript, its finalization settled at time 2000 and
    the cleanup run when the timer fires. *)
Definition expired : CallService.State :=
  CallService.cleanupCall
    (CallService.updateCallStatusSettled speech whatsapp observers heard
       "c1" "ended" 1000 2000).1.2 "c1".

End Scenario.

(** ** Sequences of requests to the call service *)

Module Requests.
Import CallService.

(** The requests that change the state of the call service: the five that
    arrive over the WebSocket or HTTP, [removeCallObserver], and the timer
    that runs [cleanupCall]. *)
Inductive Request :=
| Register (callId phoneNumber deviceId : string) (isIncoming : bool)
| Status (callId status : string)
| Audio (callId base64Audio : string)
| Observe (callId clientId : string)
| Unobserve (callId clientId : string)
| Cleanup (callId : string).

Section WithCollaborators.

Variable processSpeech : string → SpeechMeta → option string.
Variable whatsappReady : bool.

(** One request, served at time [now] while the registry is [devices];
    a status update is followed by the finalization it starts. *)
Definition serve (st : State)
    (r : gmap string DeviceManager.Device * Request * Z) : State :=
  let '(devices, request, now) := r in
  match request with
  | Register callId phoneNumber deviceId isIncoming =>
      (registerCall whatsappReady devices st callId phoneNumber deviceId isIncoming now).1.2
  | Status callId status =>
      (updateCallStatusSettled processSpeech whatsappReady devices st
         callId status now now).1.2
  | Audio callId base64Audio =>
      (processCallAudio processSpeech devices st callId base64Audio now).1.2
  | Observe callId clientId => addCallObserver st callId clientId
  | Unobserve callId clientId => removeCallObserver st callId clientId
  | Cleanup callId => cleanupCall st callId
  end.

Definition serveAll (st : State)
    (rs : list (gmap string DeviceManager.Device * Request * Z)) : State :=
  foldl serve st rs.

End WithCollaborators.

(** A request that registers the call [callId]. *)
Definition registers (callId : string)
    (r : gmap string DeviceManager.Device * Request * Z) : Prop :=
  match r.1.2 with
  | Register c _ _ _ => c = callId
  | _ => False
  end.

(** What holds of the four maps of the call service whatever requests it
    has served. *)
Record Consistent (st : State) : Prop := mkConsistent {
  transcript_mirrored : ∀ cid call,
    activeCalls st !! cid = Some call →
    callTranscriptions st !! cid = Some (transcript call);
  keyed_by_callId : ∀ cid call,
    activeCalls st !! cid = Some call → callId call = cid;
  buffer_has_session : ∀ cid chunks,
    callAudioChunks st !! cid = Some chunks → is_Some (activeCalls st !! cid);
  transcription_has_session : ∀ cid text,
    callTranscriptions st !! cid = Some text → is_Some (activeCalls st !! cid);
  observers_distinct : ∀ cid observers,
    callObservers st !! cid = Some observers → NoDup observers;
  ended_with_duration : ∀ cid call,
    activeCalls st !! cid = Some call →
    (is_Some (endedAt call) ↔ is_Some (duration call));
  processingTime_zero : ∀ cid call,
    activeCalls st !! cid = Some call → processingTime call = 0%Z
}.

End Requests.

(** ** HTTP responses *)

Module Http.

(** The JSON bodies the routes answer with. *)
Inductive Body :=
| Error (error : string)
| Done (message : string)
| ActiveCalls (count : nat) (calls : list Call)
| OneCall (call : Call)
| Devices (count : nat) (devices : list DeviceManager.DeviceView)
| Broadcast (successCount failedCount : nat).

(** [res.status(code).json(body)] *)
Record Response := mkResponse { code : nat; body : Body }.

End Http.

(** ** The HTTP routes of the call service (routes/calls.js) *)

Module CallRoutes.
Import CallService Http.

(** The fields of a request body are strings, or missing ([None]). *)

Section WithCollaborators.

Variable processSpeech : string → SpeechMeta → option string.
Variable whatsappReady : bool.

(** [POST /register] *)
Definition postRegister (devices : gmap string DeviceManager.Device) (st : State)
    (callId phoneNumber deviceId : option string) (isIncoming : option bool)
    (now : Z) : Response * State * list Event :=
  if negb (Js.truthy callId) || negb (Js.truthy phoneNumber)
     || negb (Js.truthy deviceId)
  then (mkResponse 400 (Error "callId, phoneNumber, and deviceId are required"), st, [])
  else
    let cid := default "" callId in
    let '(result, st', evs) :=
      registerCall whatsappReady devices st cid (default "" phoneNumber)
        (default "" deviceId) (negb (bool_decide (isIncoming = Some false))) now in
    (match result with
     | Success _ => mkResponse 200 (Done ("Call registered: " +:+ cid))
     | Failure e => mkResponse 500 (Error (Js.or_else (Some e) "Failed to register call"))
     end, st', evs).

(** [['ringing', 'answered', 'in_progress', 'ended']] *)
Definition statuses : list string := ["ringing"; "answered"; "in_progress"; "ended"].

(** [POST /status], up to the response. *)
Definition postStatus (devices : gmap string DeviceManager.Device) (st : State)
    (callId status : option string) (now : Z) : Response * State * list Event :=
  if negb (Js.truthy callId) || negb (Js.truthy status)
  then (mkResponse 400 (Error "callId and status are required"), st, [])
  else
    let cid := default "" callId in
    let s := default "" status in
    if negb (bool_decide (s ∈ statuses))
    then (mkResponse 400 (Error "Invalid status"), st, [])
    else
      let '(result, st', evs) := updateCallStatus devices st cid s now in
      (match result with
       | Success _ =>
           mkResponse 200 (Done ("Call status updated: " +:+ cid +:+ " -> " +:+ s))
       | Failure e =>
           mkResponse 500 (Error (Js.or_else (Some e) "Failed to update call status"))
       end, st', evs).

(** [POST /audio] *)
Definition postAudio (devices : gmap string DeviceManager.Device) (st : State)
    (callId audio : option string) (now : Z) : Response * State * list Event :=
  if negb (Js.truthy callId) || negb (Js.truthy audio)
  then (mkResponse 400 (Error "callId and audio are required"), st, [])
  else
    let cid := default "" callId in
    let '(result, st', evs) :=
      processCallAudio processSpeech devices st cid (default "" audio) now in
    (match result with
     | Success _ => mkResponse 200 (Done ("Audio processed for call: " +:+ cid))
     | Failure e => mkResponse 500 (Error (Js.or_else (Some e) "Failed to process audio"))
     end, st', evs).

End WithCollaborators.

(** [['speak', 'end_call']] *)
Definition commands : list string := ["speak"; "end_call"].

(** [POST /command] *)
Definition postCommand (devices : gmap string DeviceManager.Device) (st : State)
    (callId command text : option string) : Response * list Event :=
  if negb (Js.truthy callId) || negb (Js.truthy command)
  then (mkResponse 400 (Error "callId and command are required"), [])
  else
    let cid := default "" callId in
    let c := default "" command in
    if negb (bool_decide (c ∈ commands))
    then (mkResponse 400 (Error "Invalid command"), [])
    else
      let '(result, evs) := sendCallCommand devices st cid c (Js.or_else text "") in
      (match result with
       | Success _ =>
           mkResponse 200 (Done ("Command sent: " +:+ c +:+ " to call " +:+ cid))
       | Failure e => mkResponse 500 (Error (Js.or_else (Some e) "Failed to send command"))
       end, evs).

(** [GET /active] *)
Definition getActive (st : State) : Response :=
  let calls := getActiveCalls st in
  mkResponse 200 (ActiveCalls (length calls) calls).

(** [GET /:callId] *)
Definition getOne (st : State) (callId : string) : Response :=
  match getCall st callId with
  | None => mkResponse 404 (Error "Call not found")
  | Some call => mkResponse 200 (OneCall call)
  end.

(** The path of a GET request is taken below the mount point of the
    router, between its leading slash and an optional trailing one.  It
    matches the route [/active] when it is that word: the router is created
    without options, so it matches without regard to case. *)
Definition matchesActive (path : string) : bool :=
  bool_decide (Js.lower_case path = "active").

(** It matches the route [/:callId] when it is one segment: not empty and
    without a slash. *)
Fixpoint noSlash (path : string) : bool :=
  match path with
  | EmptyString => true
  | String c rest => negb (Ascii.nat_of_ascii c =? 47) && noSlash rest
  end.

Definition oneSegment (path : string) : bool :=
  negb (String.eqb path "") && noSlash path.

Section WithDecoding.

(** [decodeURIComponent], by which the router fills [req.params]; [None]
    when it throws, which the router answers itself. *)
Variable decodeURIComponent : string → option string.

(** A GET request: the routes are tried in the order of their
    registration, [/active] before [/:callId], so a path that matches
    [/active] never reaches the handler of [/:callId].  [None] when no
    handler of the file runs. *)
Definition get (st : State) (path : string) : option Response :=
  if matchesActive path then Some (getActive st)
  else if oneSegment path then
    match decodeURIComponent path with
    | Some callId => Some (getOne st callId)
    | None => None
    end
  else None.

End WithDecoding.

(** [POST /:callId/observe] *)
Definition postObserve (st : State) (callId : string) (clientId : option string)
    : Response * State :=
  if negb (Js.truthy clientId)
  then (mkResponse 400 (Error "clientId is required"), st)
  else
    let client := default "" clientId in
    (mkResponse 200
       (Done ("Client " +:+ client +:+ " now observing call " +:+ callId)),
     addCallObserver st callId client).

End CallRoutes.

(** ** The HTTP routes of the registry (routes/events.js) *)

Module EventRoutes.
Import DeviceManager Http.

(** The two object literals the routes hand to the registry. *)
Inductive Outbound :=
| CommandMessage (command : Js.Value) (data : option Js.Value)
| BroadcastMessage (type message : string) (timestamp : Z).

Section WithStringify.

(** [JSON.stringify] on those. *)
Variable stringify : Outbound → string.

(** [GET /devices] *)
Definition getDevices (devices : gmap string Device) : Response :=
  let views := getAllDevices devices in
  mkResponse 200 (Devices (length views) views).

(** [POST /devices/:id/command]; [command] and [data] are whatever the
    body holds.  The message of the answer is built with a template literal
    after the write: when [command] has no string form the literal throws
    and the [catch] answers 500, the write made. *)
Definition postDeviceCommand (devices : gmap string Device) (i : string)
    (command data : option Js.Value) (now : Z)
    : Response * gmap string Device * list Event :=
  match command with
  | Some c =>
      if negb (Js.truthy_value command)
      then (mkResponse 400 (Error "Command is required"), devices, [])
      else
        match getDevice devices i with
        | None => (mkResponse 404 (Error "Device not found"), devices, [])
        | Some _ =>
            let '(success, devices', evs) :=
              sendToDevice devices i (MsgJson (stringify (CommandMessage c data))) now in
            (if success
             then
               match Js.template command with
               | Some shown =>
                   mkResponse 200
                     (Done ("Command " +:+ shown +:+ " sent to device " +:+ i))
               | None => mkResponse 500 (Error "Failed to send command")
               end
             else mkResponse 500 (Error "Failed to send command"),
             devices', evs)
        end
  | None => (mkResponse 400 (Error "Command is required"), devices, [])
  end.

(** [POST /broadcast] *)
Definition postBroadcast (devices : gmap string Device)
    (message type : option string) (now : Z)
    : Response * gmap string Device * list Event :=
  if negb (Js.truthy message)
  then (mkResponse 400 (Error "Message is required"), devices, [])
  else
    let m := MsgJson (stringify (BroadcastMessage (Js.or_else type "broadcast")
                                   (default "" message) now)) in
    let '(result, devices', evs) := broadcastToAll devices m now in
    (mkResponse 200 (Broadcast (successCount result) (failedCount result)),
     devices', evs).

End WithStringify.

End EventRoutes.

(** ** The authentication middleware (middleware/auth.js) *)

Module Auth.

(** [s.split(sep)] for a separator of one character. *)
Fixpoint split (sep : Ascii.ascii) (s : string) : list string :=
  match s with
  | EmptyString => [EmptyString]
  | String c s' =>
      if Ascii.eqb c sep then EmptyString :: split sep s'
      else
        match split sep s' with
        | [] => [String c EmptyString]
        | word :: words => String c word :: words
        end
  end.

(** [parts.join(sep)] *)
Fixpoint join (sep : Ascii.ascii) (parts : list string) : string :=
  match parts with
  | [] => EmptyString
  | [word] => word
  | word :: rest => word +:+ String sep (join sep rest)
  end.

Fixpoint occurs (c : Ascii.ascii) (s : string) : bool :=
  match s with
  | EmptyString => false
  | String c' s' => Ascii.eqb c' c || occurs c s'
  end.

Definition space : Ascii.ascii := Ascii.Ascii false false false false false true false false.

(** What the middleware does with a request: it answers it, or hands it
    on with [req.user] set. *)
Inductive Outcome (User : Type) :=
| Rejected (code : nat) (error : string)
| Next (user : User).

Arguments Rejected {User} code error.
Arguments Next {User} user.

Section WithJwt.

Context {User : Type}.

(** [jwt.verify(token, process.env.JWT_SECRET, callback)]: the decoded
    payload, or [None] when the callback gets an error. *)
Variable verify : string → option User.

Definition authMiddleware (authorization : option string) : Outcome User :=
  if negb (Js.truthy authorization)
  then Rejected 401 "Authorization header missing"
  else
    let parts := split space (default "" authorization) in
    match parts with
    | [scheme; token] =>
        if negb (String.eqb scheme "Bearer")
        then Rejected 401 "Invalid authorization format"
        else if String.eqb token ""
        then Rejected 401 "No token provided"
        else
          match verify token with
          | None => Rejected 401 "Invalid token"
          | Some decoded => Next decoded
          end
    | _ => Rejected 401 "Invalid authorization format"
    end.

End WithJwt.

End Auth.

(** ** More concrete runs *)

Module Example.

(** A socket on which every write throws. *)
Definition brokenSocket (name : string) : WebSocket :=
  mkWebSocket name (Some "WebSocket is not open").

(** [d1] with a socket that takes writes, [d2] with a broken one, both
    connected at time 0. *)
Definition mixed : gmap string DeviceManager.Device :=
  (DeviceManager.registerDevice
     (DeviceManager.registerDevice ∅ "d1" (Scenario.socket "d1") 0).2
     "d2" (brokenSocket "d2") 0).2.

(** [d1], [d2] and [o1] observe the call [c1], in this order. *)
Definition watched : CallService.State :=
  CallService.addCallObserver
    (CallService.addCallObserver
       (CallService.addCallObserver Scenario.registered "c1" "d1") "c1" "d2")
    "c1" "o1".

(** [mixed] and [o1], which has a socket that takes writes. *)
Definition crowd : gmap string DeviceManager.Device :=
  (DeviceManager.registerDevice mixed "o1" (Scenario.socket "o1") 0).2.

(** A path without escapes, which decodes to itself. *)
Definition plain (path : string) : option string := Some path.

(** A token check that knows one token. *)
Definition verify (token : string) : option string :=
  if String.eqb token "t0k3n" then Some "alice" else None.

End Example.

(** * Properties *)

(** ** The connection registry *)

Module RegistryProofs.
Import DeviceManager.

Lemma sendToDevice_unknown (devices : gmap string Device) i m now :
  devices !! i = None → sendToDevice devices i m now = (false, devices, []).
Proof. intros H. unfold sendToDevice. by rewrite H. Qed.

Lemma sendToDevice_delivered (devices : gmap string Device) i d m now :
  devices !! i = Some d → sendError (ws d) = None →
  sendToDevice devices i m now
  = (true, <[i := set_lastActive d now]> devices, [WsSend (ws d) m]).
Proof. intros H Hw. unfold sendToDevice, ws_send. by rewrite H, Hw. Qed.

Lemma sendToDevice_failed (devices : gmap string Device) i d e m now :
  devices !! i = Some d → sendError (ws d) = Some e →
  sendToDevice devices i m now = (false, devices, []).
Proof. intros H Hw. unfold sendToDevice, ws_send. by rewrite H, Hw. Qed.

Lemma broadcastToAll_lookup (devices : gmap string Device) i m now :
  (broadcastToAll devices m now).1.2 !! i = deliver now <$> devices !! i.
Proof. unfold broadcastToAll. simpl. apply lookup_fmap. Qed.

Lemma cleanInactiveDevices_lookup (devices : gmap string Device) i maxT now :
  (cleanInactiveDevices devices maxT now).1.2 !! i
  = d ← devices !! i; if decide (inactive now maxT d) then None else Some d.
Proof.
  unfold cleanInactiveDevices. simpl.
  destruct (devices !! i) as [d|] eqn:Hd; simpl.
  - destruct (decide (inactive now maxT d)) as [Hi|Hi].
    + apply map_lookup_filter_None. right. intros d' Hd'. simpl.
      rewrite Hd in Hd'. injection Hd' as <-. tauto.
    + apply map_lookup_filter_Some. split; [done | exact Hi].
  - apply map_lookup_filter_None. by left.
Qed.

Lemma set_lastActive_frame d t :
  id (set_lastActive d t) = id d ∧ ws (set_lastActive d t) = ws d
  ∧ connectedAt (set_lastActive d t) = connectedAt d
  ∧ deviceInfo (set_lastActive d t) = deviceInfo d
  ∧ isActive (set_lastActive d t) = isActive d
  ∧ lastActive (set_lastActive d t) = t.
Proof. by destruct d. Qed.

(** C10. A directed send that succeeds, and each delivery of a broadcast
    that succeeds, sets [lastActive] of that registry entry to the current
    time and changes nothing else of it (nor any other entry, for the
    directed send); a send that fails leaves the entry as it was.  An entry
    refreshed at [now] survives every eviction run at a time [later] with
    [later - now] within the threshold, by default 30 minutes: eviction
    removes exactly the entries with [later - lastActive > threshold]. *)
Theorem delivery_refreshes_lastActive (devices : gmap string Device) i d m now :
  devices !! i = Some d →
  (* directed send *)
  (sendError (ws d) = None →
     let '(ok, devices', evs) := sendToDevice devices i m now in
     ok = true
     ∧ devices' !! i = Some (set_lastActive d now)
     ∧ (∀ j, j ≠ i → devices' !! j = devices !! j)
     ∧ evs = [WsSend (ws d) m]
     ∧ ∀ later, (later - now ≤ defaultMaxInactiveTime)%Z →
         (cleanInactiveDevices devices' defaultMaxInactiveTime later).1.2 !! i
         = Some (set_lastActive d now))
  ∧ (∀ e, sendError (ws d) = Some e →
       sendToDevice devices i m now = (false, devices, []))
  (* broadcast *)
  ∧ (sendError (ws d) = None →
       let devices' := (broadcastToAll devices m now).1.2 in
       devices' !! i = Some (set_lastActive d now)
       ∧ ∀ later, (later - now ≤ defaultMaxInactiveTime)%Z →
           (cleanInactiveDevices devices' defaultMaxInactiveTime later).1.2 !! i
           = Some (set_lastActive d now))
  ∧ (∀ e, sendError (ws d) = Some e →
       (broadcastToAll devices m now).1.2 !! i = Some d)
  (* the refreshed entry, field by field *)
  ∧ (id (set_lastActive d now) = id d ∧ ws (set_lastActive d now) = ws d
     ∧ connectedAt (set_lastActive d now) = connectedAt d
     ∧ deviceInfo (set_lastActive d now) = deviceInfo d
     ∧ isActive (set_lastActive d now) = isActive d
     ∧ lastActive (set_lastActive d now) = now)
  (* eviction *)
  ∧ (∀ maxT later,
       (cleanInactiveDevices devices maxT later).1.2 !! i
       = if decide (later - lastActive d > maxT)%Z then None else Some d)
  ∧ defaultMaxInactiveTime = 1800000%Z.
Proof.
  intros Hd.
  assert (Hkeep : ∀ (ds : gmap string Device) later,
             ds !! i = Some (set_lastActive d now) →
             (later - now ≤ defaultMaxInactiveTime)%Z →
             (cleanInactiveDevices ds defaultMaxInactiveTime later).1.2 !! i
             = Some (set_lastActive d now)).
  { intros ds later Hds Hle. rewrite cleanInactiveDevices_lookup, Hds. simpl.
    destruct (decide _) as [Hi|Hi]; [|done].
    unfold inactive in Hi. destruct d; simpl in *. lia. }
  split; [|split; [|split; [|split; [|split; [|split]]]]].
  - intros Hw. rewrite (sendToDevice_delivered _ _ _ _ _ Hd Hw).
    split; [done|]. split; [apply lookup_insert_eq|].
    split; [intros j Hj; by apply lookup_insert_ne|].
    split; [done|]. intros later Hle. apply Hkeep; [apply lookup_insert_eq|done].
  - intros e Hw. by apply (sendToDevice_failed _ _ d e).
  - intros Hw. simpl.
    assert (Hb : (broadcastToAll devices m now).1.2 !! i = Some (set_lastActive d now)).
    { rewrite broadcastToAll_lookup, Hd. simpl. unfold deliver, ws_send. by rewrite Hw. }
    split; [done|]. intros later Hle. by apply Hkeep.
  - intros e Hw. rewrite broadcastToAll_lookup, Hd. simpl.
    unfold deliver, ws_send. by rewrite Hw.
  - apply set_lastActive_frame.
  - intros maxT later. rewrite cleanInactiveDevices_lookup, Hd. simpl.
    repeat case_decide; unfold inactive in *; done.
  - reflexivity.
Qed.

End RegistryProofs.

(** ** The WebSocket handlers *)

Module RouterProofs.
Import Router.

Lemma unregisterDevice_delete (ds : gmap string DeviceManager.Device) i :
  DeviceManager.unregisterDevice ds i = delete i ds.
Proof.
  unfold DeviceManager.unregisterDevice. case_bool_decide as H; [done|].
  symmetry. apply delete_id. by apply eq_None_not_Some.
Qed.

(** C6, counterexample. [o1] connects, subscribes to call [c1] and
    disconnects: it is gone from the registry and still in the observer
    set of [c1]. *)
Lemma closed_connection_stays_observer :
  devices Scenario.connected !! "o1" ≠ None
  ∧ devices Scenario.disconnected !! "o1" = None
  ∧ CallService.callObservers (calls Scenario.disconnected) !! "c1" = Some ["o1"].
Proof. vm_compute. by repeat split. Qed.

(** C6, amended. When a connection closes, it is removed from the
    connection registry, the registry entries of the other connections are
    not affected, and the call service, with every observer set, is left
    as it was: the observer sets keep the identifier. *)
Theorem onClose_touches_registry_only (s : Server) (connectionId : string) :
  devices (onClose s connectionId) !! connectionId = None
  ∧ (∀ other, other ≠ connectionId →
       devices (onClose s connectionId) !! other = devices s !! other)
  ∧ calls (onClose s connectionId) = calls s
  ∧ ∀ callId, CallService.callObservers (calls (onClose s connectionId)) !! callId
              = CallService.callObservers (calls s) !! callId.
Proof.
  unfold onClose. simpl. rewrite unregisterDevice_delete.
  split; [apply lookup_delete_eq|].
  split; [intros other Hne; by apply lookup_delete_ne|]. done.
Qed.

Lemma route_unknown connectionId data :
  (∀ t, t ∈ knownTypes → type data ≠ Some (Js.JString t)) →
  route connectionId data = WarnUnknown (type data).
Proof.
  intros Hu. unfold route, typeIs.
  destruct (type data) as [[| | |s| |]|] eqn:Ht; try done.
  repeat (case_bool_decide as H;
          [exfalso; apply (Hu s); [rewrite H; unfold knownTypes; set_solver|done]|];
          clear H).
  done.
Qed.

Lemma onMessage_value rejects connectionId w data :
  data ≠ Js.JNull →
  onMessage rejects connectionId w (JsonValue data)
  = match Js.template (type data) with
    | None => (None, replyError w)
    | Some shown =>
        (Some (route connectionId data),
         match route connectionId data with
         | WarnUnknown _ => [LogWarn ("Unknown message type: " +:+ shown)]
         | _ => if handlerThrows rejects (route connectionId data)
                then replyError w else []
         end)
    end.
Proof. intros Hn. by destruct data. Qed.

Lemma replyError_elem w e : e ∈ replyError w → e = WsSend w errorReply.
Proof.
  unfold replyError. destruct (ws_send w); [by intros ?%elem_of_nil|].
  by intros ->%list_elem_of_singleton.
Qed.

(** C7, counterexample. A message of the unknown type [bogus] gets a log
    line and no reply; a [call_register] message without [callId] and
    [phoneNumber] is handed to [registerCall] with both undefined, and no
    error is returned. *)
Lemma unknown_type_and_missing_fields_get_no_error :
  onMessage Scenario.neverRejects "x" (Scenario.socket "x") (JsonValue Scenario.bogus)
  = (Some (WarnUnknown (Some (Js.JString "bogus"))),
     [LogWarn "Unknown message type: bogus"])
  ∧ onMessage Scenario.neverRejects "x" (Scenario.socket "x")
      (JsonValue Scenario.bareRegister)
    = (Some (RegisterCall None None "x" None), []).
Proof. by vm_compute. Qed.

(** C7, amended. A message whose type is unknown and can be written into
    the log line is logged and gets no reply.  A message of a known type is
    handed to its handler with the fields as they are, present or not; the
    handler of the message sends nothing itself unless the awaited handler
    rejects.  The error reply is what is sent, on a writable socket, when
    processing throws, and only then: the message does not parse, is
    [null], has a type without string form, on which the first log line
    throws before the type is looked at, or an awaited handler rejects. *)
Theorem onMessage_replies_only_on_exception (rejects : Data → bool)
    (connectionId : string) (w : WebSocket) :
  (∀ data shown,
     data ≠ Js.JNull →
     (∀ t, t ∈ knownTypes → type data ≠ Some (Js.JString t)) →
     Js.template (type data) = Some shown →
     onMessage rejects connectionId w (JsonValue data)
     = (Some (WarnUnknown (type data)),
        [LogWarn ("Unknown message type: " +:+ shown)]))
  ∧ (∀ data,
       data ≠ Js.JNull → is_Some (Js.template (type data)) →
       (onMessage rejects connectionId w (JsonValue data)).1
       = Some (route connectionId data)
       ∧ (handlerThrows rejects (route connectionId data) = false →
          filter (λ e, isReply e = true)
            (onMessage rejects connectionId w (JsonValue data)).2 = [])
       ∧ (handlerThrows rejects (route connectionId data) = true →
          (onMessage rejects connectionId w (JsonValue data)).2 = replyError w))
  ∧ (∀ data, type data = Some (Js.JString "call_register") →
       route connectionId data
       = RegisterCall (callId data) (phoneNumber data) connectionId (isIncoming data))
  ∧ (∀ data, type data = Some (Js.JString "call_status") →
       route connectionId data = UpdateCallStatus (callId data) (status data))
  ∧ (∀ data, type data = Some (Js.JString "call_audio") →
       route connectionId data = ProcessCallAudio (callId data) (audio data))
  ∧ (∀ data, type data = Some (Js.JString "call_observe") →
       route connectionId data = AddCallObserver (callId data) connectionId)
  ∧ onMessage rejects connectionId w SyntaxError = (None, replyError w)
  ∧ onMessage rejects connectionId w (JsonValue Js.JNull) = (None, replyError w)
  ∧ (∀ data, Js.template (type data) = None →
       onMessage rejects connectionId w (JsonValue data) = (None, replyError w))
  ∧ (sendError w = None → replyError w = [WsSend w errorReply])
  ∧ (∀ message e,
       e ∈ (onMessage rejects connectionId w message).2 → isReply e = true →
       e = WsSend w errorReply
       ∧ (message = SyntaxError ∨ message = JsonValue Js.JNull
          ∨ ∃ data, message = JsonValue data
               ∧ (Js.template (type data) = None
                  ∨ handlerThrows rejects (route connectionId data) = true))).
Proof.
  split; [|split; [|split; [|split; [|split; [|split; [|split; [|split;
    [|split; [|split]]]]]]]]].
  - intros data shown Hn Hu Hs. rewrite onMessage_value, Hs by done.
    by rewrite route_unknown.
  - intros data Hn [shown Hs]. rewrite onMessage_value, Hs by done.
    split; [done|]. simpl.
    destruct (route connectionId data) eqn:Hr; simpl;
      (split; [intros Hf; rewrite ?Hf; done | intros Ht; rewrite ?Ht; done]).
  - intros data Ht. unfold route, typeIs. rewrite Ht.
    repeat case_bool_decide; congruence.
  - intros data Ht. unfold route, typeIs. rewrite Ht.
    repeat case_bool_decide; congruence.
  - intros data Ht. unfold route, typeIs. rewrite Ht.
    repeat case_bool_decide; congruence.
  - intros data Ht. unfold route, typeIs. rewrite Ht.
    repeat case_bool_decide; congruence.
  - done.
  - done.
  - intros data Hs. assert (Hn : data ≠ Js.JNull) by (by intros ->).
    by rewrite onMessage_value, Hs.
  - intros Hw. unfold replyError, ws_send. by rewrite Hw.
  - intros [|data] e.
    { simpl. intros He _. split; [by apply replyError_elem|]. by left. }
    assert (Hd : data = Js.JNull ∨ data ≠ Js.JNull)
      by (destruct data; [by left|by right..]).
    destruct Hd as [->|Hn].
    { simpl. intros He _. split; [by apply replyError_elem|]. right. by left. }
    rewrite onMessage_value by done.
    destruct (Js.template (type data)) as [shown|] eqn:Hs; simpl.
    + destruct (handlerThrows rejects (route connectionId data)) eqn:Hh.
      * intros He Hr. split.
        -- destruct (route connectionId data); by apply replyError_elem.
        -- right. right. exists data. split; [done|]. by right.
      * intros He Hr. exfalso.
        destruct (route connectionId data);
          try by apply elem_of_nil in He.
        apply list_elem_of_singleton in He as ->. done.
    + intros He _. split; [by apply replyError_elem|].
      right. right. exists data. split; [done|]. by left.
Qed.

End RouterProofs.

(** ** The call service *)

Module CallProofs.
Import CallService.

(** *** The fan-out loop *)

Lemma sendEach_thrown devices observers m sent e :
  sendEach devices observers m = (sent, Some e) →
  ∃ o d, o ∈ observers ∧ devices !! o = Some d
         ∧ sendError (DeviceManager.ws d) = Some e.
Proof.
  revert sent. induction observers as [|o rest IH]; intros sent; simpl; [done|].
  unfold DeviceManager.getDevice, ws_send.
  destruct (devices !! o) as [d|] eqn:Hd.
  - destruct (sendError (DeviceManager.ws d)) as [e'|] eqn:Hw.
    + intros [= <- <-]. exists o, d. set_solver.
    + destruct (sendEach devices rest m) as [sent' thrown] eqn:Hrest.
      intros [= <- ->]. destruct (IH _ eq_refl) as (o' & d' & ? & ? & ?).
      exists o', d'. set_solver.
  - intros H. destruct (IH _ H) as (o' & d' & ? & ? & ?).
    exists o', d'. set_solver.
Qed.

Lemma sendEach_writable devices observers m :
  allWritable devices observers →
  sendEach devices observers m
  = ((λ d, WsSend (DeviceManager.ws d) m) <$> present devices observers, None).
Proof.
  induction observers as [|o rest IH]; intros Hw; simpl; [done|].
  assert (Hrest : allWritable devices rest).
  { intros o' d' Ho'. apply Hw. set_solver. }
  unfold present in *. simpl.
  unfold DeviceManager.getDevice, ws_send.
  destruct (devices !! o) as [d|] eqn:Hd; simpl.
  - rewrite (Hw o d); [|set_solver|done]. by rewrite (IH Hrest).
  - by apply IH.
Qed.

Lemma sendEach_skips_absent devices observers m :
  sendEach devices observers m
  = sendEach devices (filter (λ o, is_Some (devices !! o)) observers) m.
Proof.
  induction observers as [|o rest IH]; simpl; [done|].
  unfold DeviceManager.getDevice.
  destruct (devices !! o) as [d|] eqn:Hd.
  - rewrite filter_cons_True by (by rewrite Hd). simpl.
    unfold DeviceManager.getDevice. rewrite Hd. by rewrite IH.
  - rewrite filter_cons_False by (rewrite Hd; by intros [? ?]). done.
Qed.

Lemma broadcast_thrown devices st callId m sent e :
  broadcast devices st callId m = (sent, Some e) →
  ∃ observers o d, callObservers st !! callId = Some observers ∧ o ∈ observers
    ∧ devices !! o = Some d ∧ sendError (DeviceManager.ws d) = Some e.
Proof.
  unfold broadcast. destruct (callObservers st !! callId) as [obs|]; [|done].
  case_bool_decide as Hlen; [done|]. intros Hs.
  destruct (sendEach_thrown _ _ _ _ _ Hs) as (o & d & ?). by exists obs, o, d.
Qed.

Lemma broadcast_writable devices st callId m observers :
  callObservers st !! callId = Some observers →
  allWritable devices observers →
  broadcast devices st callId m
  = ((λ d, WsSend (DeviceManager.ws d) m) <$> present devices observers, None).
Proof.
  intros Ho Hw. unfold broadcast. rewrite Ho. case_bool_decide as Hl.
  - by destruct observers.
  - by apply sendEach_writable.
Qed.

Lemma broadcast_unobserved devices st callId m :
  callObservers st !! callId = None → broadcast devices st callId m = ([], None).
Proof. intros H. unfold broadcast. by rewrite H. Qed.

Lemma present_elem devices observers o d :
  o ∈ observers → devices !! o = Some d → d ∈ present devices observers.
Proof.
  intros Ho Hd. unfold present. apply list_elem_of_omap. by exists o.
Qed.

Lemma present_absent devices observers d :
  d ∈ present devices observers → ∃ o, o ∈ observers ∧ devices !! o = Some d.
Proof. unfold present. intros H. by apply list_elem_of_omap in H. Qed.

Lemma broadcast_sendEach devices st callId m observers :
  callObservers st !! callId = Some observers →
  broadcast devices st callId m = sendEach devices observers m.
Proof.
  intros Ho. unfold broadcast. rewrite Ho. case_bool_decide as Hl; [|done].
  by destruct observers.
Qed.

Lemma sendEach_sent devices observers m sent thrown e :
  sendEach devices observers m = (sent, thrown) → e ∈ sent →
  ∃ o d, o ∈ observers ∧ devices !! o = Some d
         ∧ sendError (DeviceManager.ws d) = None
         ∧ e = WsSend (DeviceManager.ws d) m.
Proof.
  revert sent. induction observers as [|o rest IH]; intros sent; simpl.
  - intros [= <- <-] He. by apply elem_of_nil in He.
  - unfold DeviceManager.getDevice, ws_send.
    destruct (devices !! o) as [d|] eqn:Hd.
    + destruct (sendError (DeviceManager.ws d)) as [e'|] eqn:Hw.
      * intros [= <- <-] He. by apply elem_of_nil in He.
      * destruct (sendEach devices rest m) as [sent' thrown'] eqn:Hrest.
        intros [= <- <-] He. apply elem_of_cons in He as [->|He].
        -- exists o, d. split; [apply list_elem_of_here|done].
        -- destruct (IH _ eq_refl He) as (o' & d' & ? & ?).
           exists o', d'. split; [by apply list_elem_of_further|done].
    + intros Hs He. destruct (IH _ Hs He) as (o' & d' & ? & ?).
      exists o', d'. split; [by apply list_elem_of_further|done].
Qed.

Lemma sendEach_returned devices observers m sent :
  sendEach devices observers m = (sent, None) → allWritable devices observers.
Proof.
  revert sent. induction observers as [|o rest IH]; intros sent; simpl.
  - intros _ x dx Hx. by apply elem_of_nil in Hx.
  - unfold DeviceManager.getDevice, ws_send.
    destruct (devices !! o) as [d|] eqn:Hd.
    + destruct (sendError (DeviceManager.ws d)) as [e'|] eqn:Hw; [done|].
      destruct (sendEach devices rest m) as [sent' thrown'] eqn:Hrest.
      intros [= <- ->] x dx Hx Hdx. apply elem_of_cons in Hx as [->|Hx].
      * rewrite Hd in Hdx. by injection Hdx as <-.
      * by apply (IH _ eq_refl x dx).
    + intros Hs x dx Hx Hdx. apply elem_of_cons in Hx as [->|Hx].
      * by rewrite Hd in Hdx.
      * by apply (IH _ Hs x dx).
Qed.

Lemma sendEach_stops devices before o after d e m :
  allWritable devices before →
  devices !! o = Some d →
  sendError (DeviceManager.ws d) = Some e →
  sendEach devices (before ++ o :: after) m
  = ((λ d', WsSend (DeviceManager.ws d') m) <$> present devices before, Some e).
Proof.
  intros Hw Hd He. induction before as [|b before IH]; simpl.
  - unfold DeviceManager.getDevice, ws_send. by rewrite Hd, He.
  - assert (Hw' : allWritable devices before).
    { intros x dx Hx. apply Hw. by apply list_elem_of_further. }
    unfold present. simpl. unfold DeviceManager.getDevice, ws_send.
    destruct (devices !! b) as [db|] eqn:Hb; simpl.
    + rewrite (Hw b db); [|apply list_elem_of_here|done].
      unfold present in IH. by rewrite (IH Hw').
    + by apply IH.
Qed.

(** C8, counterexample. [d1], [d2] and [o1] observe [c1] and all three are
    in the registry; the socket of [d2] throws on the write.  The transcript
    delta reaches [d1] alone: [o1], registered and with a socket that takes
    writes, gets nothing, and the error of [d2] leaves the method. *)
Lemma registered_observer_behind_a_broken_socket_gets_nothing :
  callObservers Example.watched !! "c1" = Some ["d1"; "d2"; "o1"]
  ∧ Example.crowd !! "o1"
    = Some (DeviceManager.mkDevice "o1" (Scenario.socket "o1") 0 0 [] true)
  ∧ broadcastTranscriptionUpdate Example.crowd Example.watched "c1" "hi" false 7
    = ([WsSend (Scenario.socket "d1") (MsgCallTranscript "c1" "hi" false 7)],
       Some "WebSocket is not open").
Proof. by vm_compute. Qed.

(** C8, amended. When a transcript delta is published for a call, its
    observers are tried in the order of subscription.  An observer that is
    not in the registry is skipped without an error: the outcome is the one
    the registered observers alone would give.  Every write made is the
    same [call_transcript] message, with the [callId] and the [transcript]
    published, to a registered observer whose socket took it.  The
    publication returns without an exception exactly when no registered
    observer has a socket that throws, and every registered observer has
    then got the message; otherwise the first registered observer whose
    write throws ends the loop: the observers before it have got the
    message, those after it get nothing, and its error leaves the method. *)
Theorem broadcastTranscriptionUpdate_delivers_until_a_write_throws
    devices st callId transcript isFinal now observers :
  callObservers st !! callId = Some observers →
  let message := MsgCallTranscript callId transcript isFinal now in
  let '(sent, thrown) :=
    broadcastTranscriptionUpdate devices st callId transcript isFinal now in
  (sent, thrown)
  = sendEach devices (filter (λ o, is_Some (devices !! o)) observers) message
  ∧ (∀ e, e ∈ sent → ∃ o d, o ∈ observers ∧ devices !! o = Some d
                            ∧ sendError (DeviceManager.ws d) = None
                            ∧ e = WsSend (DeviceManager.ws d) message)
  ∧ (thrown = None ↔ allWritable devices observers)
  ∧ (allWritable devices observers →
     sent = (λ d, WsSend (DeviceManager.ws d) message) <$> present devices observers
     ∧ ∀ o d, o ∈ observers → devices !! o = Some d →
              WsSend (DeviceManager.ws d) message ∈ sent)
  ∧ (∀ before o after d e,
       observers = before ++ o :: after →
       allWritable devices before →
       devices !! o = Some d →
       sendError (DeviceManager.ws d) = Some e →
       thrown = Some e
       ∧ sent = (λ d', WsSend (DeviceManager.ws d') message) <$> present devices before).
Proof.
  intros Ho message. unfold broadcastTranscriptionUpdate.
  rewrite (broadcast_sendEach _ _ _ _ _ Ho). fold message.
  destruct (sendEach devices observers message) as [sent thrown] eqn:Hs.
  split; [by rewrite <- sendEach_skips_absent|].
  split; [intros e He; by eapply sendEach_sent|].
  split; [split|split].
  - intros ->. by eapply sendEach_returned.
  - intros Hw. rewrite (sendEach_writable _ _ _ Hw) in Hs. by injection Hs as <- <-.
  - intros Hw. rewrite (sendEach_writable _ _ _ Hw) in Hs. injection Hs as <- <-.
    split; [done|]. intros o d Hin Hd. apply list_elem_of_fmap. exists d.
    split; [done|]. by apply (present_elem _ _ o).
  - intros before o after d e -> Hw Hd He.
    rewrite (sendEach_stops _ _ _ _ _ _ _ Hw Hd He) in Hs. by injection Hs as <- <-.
Qed.

(** *** Registration and status updates *)

Ltac split_all := repeat match goal with |- _ ∧ _ => split end.

Lemma registerCall_unfold whatsappReady devices st cid ph dev inc now :
  let fresh := mkCall cid ph dev now inc "ringing" "" 0 None None None None in
  let st' := mkState (<[cid := fresh]> (activeCalls st))
                     (<[cid := []]> (callAudioChunks st))
                     (<[cid := ""]> (callTranscriptions st))
                     (callObservers st) in
  ∃ sent thrown,
    broadcastCallUpdate devices st' cid fresh = (sent, thrown)
    ∧ registerCall whatsappReady devices st cid ph dev inc now
      = (match thrown with None => Success (Some fresh) | Some e => Failure e end,
         st',
         (if whatsappReady then [WhatsAppCall cid ph inc] else []) ++ sent).
Proof.
  intros fresh st'. unfold registerCall. fold fresh. fold st'.
  destruct (broadcastCallUpdate devices st' cid fresh) as [sent thrown].
  by exists sent, thrown.
Qed.

Lemma updateCallStatus_unfold devices st cid s now call0 :
  activeCalls st !! cid = Some call0 →
  let call := withStatus call0 s now in
  let st' := set_activeCalls st (<[cid := call]> (activeCalls st)) in
  ∃ sent thrown,
    broadcastCallUpdate devices st' cid call = (sent, thrown)
    ∧ updateCallStatus devices st cid s now
      = (match thrown with None => Success (Some call) | Some e => Failure e end,
         st',
         (if String.eqb s "ended" then
            match finalizeBegin st' cid with
            | Some (text, _) => [SpeechRequest Summarize cid text]
            | None => []
            end
          else []) ++ sent).
Proof.
  intros H0 call st'. unfold updateCallStatus. rewrite H0. fold call. fold st'.
  destruct (broadcastCallUpdate devices st' cid call) as [sent thrown].
  exists sent, thrown. split; [done|].
  destruct (String.eqb s "ended"); [|done].
  by destruct (finalizeBegin st' cid) as [[text meta]|].
Qed.

Lemma updateCallStatus_not_found devices st cid s now :
  activeCalls st !! cid = None →
  updateCallStatus devices st cid s now = (Failure "Call not found", st, []).
Proof. intros H. unfold updateCallStatus. by rewrite H. Qed.

Lemma withStatus_status call0 s now : status (withStatus call0 s now) = s.
Proof.
  unfold withStatus. destruct (String.eqb s "answered"); [done|].
  by destruct (String.eqb s "ended").
Qed.

(** C1, counterexample. Call [c1] is registered and answered; registering
    [c1] again succeeds and puts a new record in its place, back in status
    [ringing] with a new start time. *)
Lemma second_registration_replaces_the_session :
  status <$> (activeCalls Scenario.answered !! "c1") = Some "answered"
  ∧ Scenario.reRegistered.1.1
    = Success (Some (mkCall "c1" "+15551234567" "d1" 5000 true "ringing" "" 0
                            None None None None))
  ∧ status <$> (activeCalls Scenario.reRegistered.1.2 !! "c1") = Some "ringing"
  ∧ activeCalls Scenario.reRegistered.1.2 !! "c1"
    ≠ activeCalls Scenario.answered !! "c1".
Proof. vm_compute. split_all; congruence. Qed.

(** C1, amended. For a call identifier already in the store,
    [registerCall] reports no duplicate: it puts a new record in status
    [ringing], with the start time of this registration, an empty
    transcript and an empty audio buffer, in place of the session it finds,
    and leaves the sessions of the other identifiers and every observer
    set as they are; a session that had left the state of a registration
    made at this very time is thereby changed.  The result is a success,
    with that record, unless a write to a registered observer of the call
    throws; its error is then the result. *)
Theorem registerCall_replaces_session whatsappReady devices st cid ph dev inc now old :
  activeCalls st !! cid = Some old →
  let fresh := mkCall cid ph dev now inc "ringing" "" 0 None None None None in
  let '(r, st', _) := registerCall whatsappReady devices st cid ph dev inc now in
  activeCalls st' !! cid = Some fresh
  ∧ (status old ≠ "ringing" ∨ transcript old ≠ "" ∨ startTime old ≠ now
     ∨ is_Some (answeredAt old) ∨ is_Some (endedAt old) →
     activeCalls st' !! cid ≠ activeCalls st !! cid)
  ∧ callAudioChunks st' !! cid = Some []
  ∧ callTranscriptions st' !! cid = Some ""
  ∧ (∀ other, other ≠ cid →
       activeCalls st' !! other = activeCalls st !! other
       ∧ callAudioChunks st' !! other = callAudioChunks st !! other
       ∧ callTranscriptions st' !! other = callTranscriptions st !! other)
  ∧ callObservers st' = callObservers st
  ∧ (r = Success (Some fresh)
     ∨ ∃ e observers o d,
         r = Failure e ∧ callObservers st !! cid = Some observers ∧ o ∈ observers
         ∧ devices !! o = Some d ∧ sendError (DeviceManager.ws d) = Some e)
  ∧ (callObservers st !! cid = None → r = Success (Some fresh))
  ∧ (∀ observers, callObservers st !! cid = Some observers →
       allWritable devices observers → r = Success (Some fresh)).
Proof.
  intros Hold fresh.
  destruct (registerCall_unfold whatsappReady devices st cid ph dev inc now)
    as (sent & thrown & Hb & ->). fold fresh in Hb |- *.
  unfold broadcastCallUpdate in Hb. simpl. split_all.
  - apply lookup_insert_eq.
  - rewrite lookup_insert_eq, Hold. intros Hdiff [= <-]. simpl in Hdiff.
    destruct Hdiff as [?|[?|[?|[[? ?]|[? ?]]]]]; done.
  - apply lookup_insert_eq.
  - apply lookup_insert_eq.
  - intros other Hne. by rewrite !lookup_insert_ne.
  - done.
  - destruct thrown as [e|]; [right|by left].
    apply broadcast_thrown in Hb as (obs & o & d & ? & ? & ? & ?).
    by exists e, obs, o, d.
  - intros Hn. rewrite broadcast_unobserved in Hb by done. by injection Hb as <- <-.
  - intros obs Ho Hw. erewrite broadcast_writable in Hb by done. by injection Hb as <- <-.
Qed.

Lemma updateCallStatus_lookup devices st cid s now call0 :
  activeCalls st !! cid = Some call0 →
  activeCalls (updateCallStatus devices st cid s now).1.2 !! cid
  = Some (withStatus call0 s now).
Proof.
  intros H0.
  destruct (updateCallStatus_unfold devices st cid s now call0 H0)
    as (sent & thrown & _ & ->).
  simpl. apply lookup_insert_eq.
Qed.

Lemma statusHistory_follows_updates devices cid now updates :
  ∀ st call0, activeCalls st !! cid = Some call0 →
              statusHistory devices st cid updates now = Some <$> updates.
Proof.
  induction updates as [|s rest IH]; intros st call0 H0; [done|]. simpl.
  rewrite (updateCallStatus_lookup _ _ _ _ _ _ H0). simpl.
  rewrite withStatus_status. f_equal.
  eapply IH. by apply updateCallStatus_lookup.
Qed.

(** C2, counterexample. Call [c1] goes from [ringing] to [ended]; an update
    to [in_progress] then succeeds and is stored, although [in_progress] is
    no legal successor of [ended]. *)
Lemma status_steps_back_after_ended :
  status <$> (activeCalls Scenario.endedEarly !! "c1") = Some "ended"
  ∧ Spec.legalSuccessor "ended" "in_progress" = false
  ∧ (∃ call, Scenario.resumed.1.1 = Success (Some call))
  ∧ status <$> (activeCalls Scenario.resumed.1.2 !! "c1") = Some "in_progress".
Proof. vm_compute. split_all; try done. by eexists. Qed.

(** C2, amended. For every registered call, [updateCallStatus] checks no
    transition: whatever the current status, the new status is stored, and
    the result is a success with the updated record unless a write to a
    registered observer of the call throws; its error is then the result,
    the status being stored all the same.  The statuses a reader finds
    stored after each of a sequence of updates are those of the updates,
    in their order, whatever it is. *)
Theorem updateCallStatus_stores_any_status devices st cid newStatus now call0 :
  activeCalls st !! cid = Some call0 →
  let '(r, st', _) := updateCallStatus devices st cid newStatus now in
  ∃ call,
    activeCalls st' !! cid = Some call
    ∧ status call = newStatus
    ∧ (r = Success (Some call)
       ∨ ∃ e observers o d,
           r = Failure e ∧ callObservers st !! cid = Some observers ∧ o ∈ observers
           ∧ devices !! o = Some d ∧ sendError (DeviceManager.ws d) = Some e)
    ∧ (callObservers st !! cid = None → r = Success (Some call))
    ∧ (∀ observers, callObservers st !! cid = Some observers →
         allWritable devices observers → r = Success (Some call))
    ∧ (∀ updates, statusHistory devices st cid updates now = Some <$> updates).
Proof.
  intros H0.
  destruct (updateCallStatus_unfold devices st cid newStatus now call0 H0)
    as (sent & thrown & Hb & ->).
  unfold broadcastCallUpdate in Hb.
  exists (withStatus call0 newStatus now). simpl. split_all;
    [| | | | | intros updates; by eapply statusHistory_follows_updates].
  - apply lookup_insert_eq.
  - apply withStatus_status.
  - destruct thrown as [e|]; [right|by left].
    apply broadcast_thrown in Hb as (obs & o & d & ? & ? & ? & ?).
    by exists e, obs, o, d.
  - intros Hn. rewrite broadcast_unobserved in Hb by done. by injection Hb as <- <-.
  - intros obs Ho Hw. erewrite broadcast_writable in Hb by done. by injection Hb as <- <-.
Qed.

Lemma withStatus_other call0 s now :
  s ≠ "answered" → s ≠ "ended" → withStatus call0 s now = set_status call0 s.
Proof.
  intros Ha He. unfold withStatus.
  destruct (String.eqb_spec s "answered"); [done|].
  by destruct (String.eqb_spec s "ended").
Qed.

(** C4, counterexample. Call [c1], answered at 1000 ms, is ended at
    43000 ms: the duration is 42.  A second [ended] update at 53000 ms
    computes the duration again: it is 52, and [endedAt] has moved. *)
Lemma duration_is_computed_at_each_ended_update :
  duration <$> (activeCalls Scenario.ended !! "c1") = Some (Some 42%Z)
  ∧ endedAt <$> (activeCalls Scenario.ended !! "c1") = Some (Some 43000%Z)
  ∧ duration <$> (activeCalls Scenario.endedAgain !! "c1") = Some (Some 52%Z)
  ∧ endedAt <$> (activeCalls Scenario.endedAgain !! "c1") = Some (Some 53000%Z)
  ∧ activeCalls Scenario.endedAgain !! "c1" ≠ activeCalls Scenario.ended !! "c1".
Proof. vm_compute. split_all; congruence. Qed.

(** C4, amended. Registration initializes the status [ringing].  For every
    registered call, an update to [answered] sets [answeredAt] to the time
    of the update; every update to [ended], the first one and any later
    one, sets [endedAt] to the time of the update and computes the duration
    as the number of milliseconds from [answeredAt], or from [startTime] if
    the call was not answered, to [endedAt], divided by 1000 and rounded to
    the nearest integer: an [ended] update 42 seconds after [answeredAt]
    gives 42.  An update to another status leaves [answeredAt], [endedAt]
    and [duration] as they are. *)
Theorem status_timestamps_and_duration devices st cid call0 :
  activeCalls st !! cid = Some call0 →
  (∀ whatsappReady state ph dev inc now,
     status <$> (activeCalls (registerCall whatsappReady devices state cid ph dev inc now).1.2
                 !! cid) = Some "ringing")
  ∧ (∀ now, ∃ call,
       activeCalls (updateCallStatus devices st cid "answered" now).1.2 !! cid = Some call
       ∧ status call = "answered" ∧ answeredAt call = Some now
       ∧ endedAt call = endedAt call0 ∧ duration call = duration call0)
  ∧ (∀ now, ∃ call,
       activeCalls (updateCallStatus devices st cid "ended" now).1.2 !! cid = Some call
       ∧ status call = "ended" ∧ endedAt call = Some now
       ∧ answeredAt call = answeredAt call0
       ∧ duration call
         = Some (Js.round_seconds (now - default (startTime call0) (answeredAt call0))))
  ∧ (∀ t, answeredAt call0 = Some t → ∃ call,
       activeCalls (updateCallStatus devices st cid "ended" (t + 42000)).1.2 !! cid
       = Some call
       ∧ duration call = Some 42%Z)
  ∧ (∀ s now, s ≠ "answered" → s ≠ "ended" → ∃ call,
       activeCalls (updateCallStatus devices st cid s now).1.2 !! cid = Some call
       ∧ status call = s ∧ answeredAt call = answeredAt call0
       ∧ endedAt call = endedAt call0 ∧ duration call = duration call0).
Proof.
  intros H0. split_all.
  - intros w state ph dev inc now.
    destruct (registerCall_unfold w devices state cid ph dev inc now)
      as (sent & thrown & _ & ->).
    simpl. by rewrite lookup_insert_eq.
  - intros now. eexists. split; [by apply updateCallStatus_lookup|]. done.
  - intros now. eexists. split; [by apply updateCallStatus_lookup|]. done.
  - intros t Ht. eexists. split; [by apply updateCallStatus_lookup|].
    simpl. rewrite Ht. simpl. unfold Js.round_seconds. f_equal.
    replace (t + 42000 - t + 500)%Z with 42500%Z by lia. done.
  - intros s now Ha He. eexists. split; [by apply updateCallStatus_lookup|].
    rewrite withStatus_other by done. done.
Qed.

(** *** The list of active calls *)

Lemma getActiveCalls_elem st c :
  c ∈ getActiveCalls st ↔ ∃ cid, activeCalls st !! cid = Some c.
Proof.
  unfold getActiveCalls. rewrite list_elem_of_fmap. split.
  - intros ([cid c'] & -> & Hin). exists cid. by apply elem_of_map_to_list in Hin.
  - intros (cid & Hc). exists (cid, c). split; [done|]. by apply elem_of_map_to_list.
Qed.

(** C9, counterexample. Call [c1] has ended, its finalization is done and
    the cleanup of the timer has run and dropped the audio buffer: the
    list of active calls is still the session of [c1], in status
    [ended]. *)
Lemma ended_session_stays_listed :
  callAudioChunks Scenario.expired !! "c1" = None
  ∧ getActiveCalls Scenario.expired
    = [mkCall "c1" "+15551234567" "d1" 0 true "ended" " hello" 0
              None (Some 1000%Z) (Some 1%Z) (Some "hello")].
Proof. by vm_compute. Qed.

(** C9, amended. [getActiveCalls] returns every session of the store,
    whatever its status and however long ago it ended: a session is in the
    list exactly when the store has it under some identifier.  The cleanup
    that runs 60 seconds after the finalization discards the audio buffer
    of the call and nothing else, so that a call that has ended is listed
    before and after it. *)
Theorem getActiveCalls_lists_every_session devices st cid call0 now :
  activeCalls st !! cid = Some call0 →
  let st1 := (updateCallStatus devices st cid "ended" now).1.2 in
  (∀ state c, c ∈ getActiveCalls state ↔ ∃ id, activeCalls state !! id = Some c)
  ∧ (∀ state id, getActiveCalls (cleanupCall state id) = getActiveCalls state
                 ∧ callAudioChunks (cleanupCall state id) !! id = None)
  ∧ (∃ call, status call = "ended" ∧ endedAt call = Some now
             ∧ call ∈ getActiveCalls st1
             ∧ call ∈ getActiveCalls (cleanupCall st1 cid))
  ∧ cleanupDelay = 60000%Z.
Proof.
  intros H0 st1. split_all.
  - apply getActiveCalls_elem.
  - intros state id. split; [done|]. apply lookup_delete_eq.
  - exists (withStatus call0 "ended" now).
    assert (Hin : withStatus call0 "ended" now ∈ getActiveCalls st1).
    { apply getActiveCalls_elem. exists cid. by apply updateCallStatus_lookup. }
    done.
  - done.
Qed.

(** *** Counting events *)

Lemma count_app p a b : count p (a ++ b) = count p a + count p b.
Proof. unfold count. by rewrite filter_app, length_app. Qed.

Lemma count_none p evs : Forall (λ e, p e = false) evs → count p evs = 0.
Proof.
  unfold count. induction 1 as [|e evs He _ IH]; [done|].
  rewrite filter_cons_False; [done|]. by rewrite He.
Qed.

Lemma count_all p evs : Forall (λ e, p e = true) evs → count p evs = length evs.
Proof.
  unfold count. induction 1 as [|e evs He _ IH]; [done|].
  rewrite filter_cons_True by done. simpl. by rewrite IH.
Qed.

Lemma sendEach_sends devices observers m :
  Forall (λ e, ∃ w, e = WsSend w m) (sendEach devices observers m).1.
Proof.
  induction observers as [|o rest IH]; simpl; [constructor|].
  destruct (DeviceManager.getDevice devices o) as [d|]; [|done].
  destruct (ws_send (DeviceManager.ws d)); [constructor|].
  destruct (sendEach devices rest m) as [sent thrown]. simpl in *.
  constructor; [by eexists | done].
Qed.

Lemma broadcast_sends devices st cid m :
  Forall (λ e, ∃ w, e = WsSend w m) (broadcast devices st cid m).1.
Proof.
  unfold broadcast. destruct (callObservers st !! cid) as [obs|]; [|constructor].
  case_bool_decide; [constructor|]. apply sendEach_sends.
Qed.

Lemma broadcast_count_none p devices st cid m :
  (∀ w, p (WsSend w m) = false) → count p (broadcast devices st cid m).1 = 0.
Proof.
  intros Hp. apply count_none.
  eapply Forall_impl; [apply broadcast_sends|]. by intros e [w ->].
Qed.

(** *** Audio ingest *)

Lemma truthy_or_else v d : d ≠ "" → Js.truthy (Some (Js.or_else v d)) = true.
Proof.
  intros Hd. apply String.eqb_neq in Hd.
  unfold Js.truthy, Js.or_else. destruct v as [s|].
  - destruct (String.eqb s "") eqn:Hs; [by rewrite Hd | by rewrite Hs].
  - by rewrite Hd.
Qed.

Lemma response_is_no_attempt processSpeech devices st cid cid' t now :
  transcriptionAttempts cid'
    (processTranscriptForResponse processSpeech devices st cid t now) = 0.
Proof.
  unfold transcriptionAttempts, processTranscriptForResponse.
  destruct (activeCalls st !! cid) as [call|]; [|done].
  change (?e :: ?l) with ([e] ++ l). rewrite count_app.
  replace (count _ [SpeechRequest Respond cid t]) with 0 by done. simpl.
  destruct (Js.truthy _); [|done].
  destruct (DeviceManager.getDevice _ _) as [d|].
  - destruct (ws_send _); [done|].
    change (?e :: ?l) with ([e] ++ l). rewrite count_app.
    unfold broadcastAiResponse. by rewrite broadcast_count_none.
  - unfold broadcastAiResponse. by rewrite broadcast_count_none.
Qed.

Lemma skipsTranscription_spec n :
  skipsTranscription n = false ↔ n ≤ 1 ∨ n mod 20 = 0.
Proof.
  unfold skipsTranscription.
  destruct (Nat.eqb_spec (n mod 20) 0) as [E|E], (Nat.ltb_spec 1 n) as [L|L]; simpl.
  all: split; [intros ? | intros [?|?]]; try done; try lia; try tauto.
Qed.

Lemma count_one p e : p e = true → count p [e] = 1.
Proof. intros H. unfold count. by rewrite filter_cons_True. Qed.

Lemma attempt_counts cid text :
  count (isTranscriptionAttempt cid) [SpeechRequest Transcribe cid text] = 1.
Proof. apply count_one. simpl. by rewrite bool_decide_eq_true_2. Qed.

(** One fragment for a registered call with [chunks] in its buffer. *)
Lemma processCallAudio_step processSpeech devices st cid f now call chunks :
  activeCalls st !! cid = Some call →
  callAudioChunks st !! cid = Some chunks →
  ∃ r st' evs,
    processCallAudio processSpeech devices st cid f now = (r, st', evs)
    ∧ is_Some (activeCalls st' !! cid)
    ∧ callAudioChunks st' !! cid = Some (chunks ++ [BufferFromBase64 f])
    ∧ transcriptionAttempts cid evs
      = if skipsTranscription (S (length chunks)) then 0 else 1.
Proof.
  intros Hc Ha. unfold processCallAudio, processAudioForTranscription.
  rewrite Hc, Ha. simpl. rewrite lookup_insert_eq. simpl.
  rewrite length_app. simpl. rewrite Nat.add_1_r.
  destruct (skipsTranscription (S (length chunks))) eqn:Hs.
  - simpl. eexists _, _, _. split; [done|]. simpl.
    rewrite lookup_insert_eq. by rewrite Hc.
  - rewrite Hc. rewrite truthy_or_else by done.
    destruct (broadcastTranscriptionUpdate _ _ _ _ _ _) as [sent thrown] eqn:Hb.
    assert (Hsent : transcriptionAttempts cid sent = 0).
    { replace sent with (sent, thrown).1 by done. rewrite <- Hb.
      unfold broadcastTranscriptionUpdate. by apply broadcast_count_none. }
    destruct thrown as [e|]; eexists _, _, _; (split; [done|]); simpl;
      rewrite !lookup_insert_eq; (split; [done|]); (split; [done|]).
    + unfold transcriptionAttempts in *.
      change (?e :: ?l) with ([e] ++ l). by rewrite count_app, Hsent, attempt_counts.
    + unfold transcriptionAttempts in *.
      change (?e :: ?l) with ([e] ++ l). rewrite !count_app, Hsent.
      pose proof (response_is_no_attempt processSpeech devices) as Hr.
      unfold transcriptionAttempts in Hr. by rewrite Hr, attempt_counts.
Qed.

Lemma firstAndTwentieths_S k :
  firstAndTwentieths (S k)
  = firstAndTwentieths k + if skipsTranscription (S k) then 0 else 1.
Proof.
  destruct k as [|k]; [done|].
  unfold firstAndTwentieths, skipsTranscription.
  pose proof (Nat.div_mod_eq (S (S k)) 20) as H1.
  pose proof (Nat.div_mod_eq (S k) 20) as H2.
  pose proof (Nat.mod_upper_bound (S (S k)) 20) as H3.
  pose proof (Nat.mod_upper_bound (S k) 20) as H4.
  replace (1 <? S (S k)) with true by (symmetry; apply Nat.ltb_lt; lia).
  replace (S (S k) =? 0) with false by done.
  replace (S k =? 0) with false by done.
  specialize (H3 ltac:(lia)). specialize (H4 ltac:(lia)).
  destruct (Nat.eqb_spec (S (S k) mod 20) 0) as [E|E]; cbn [negb andb];
    set (q1 := S (S k) / 20) in *; set (q2 := S k / 20) in *;
    set (r1 := S (S k) mod 20) in *; set (r2 := S k mod 20) in *;
    clearbody q1 q2 r1 r2; lia.
Qed.

Lemma ingestAll_from processSpeech devices cid now fragments :
  ∀ st call chunks,
    activeCalls st !! cid = Some call →
    callAudioChunks st !! cid = Some chunks →
    let '(st', evs) := ingestAll processSpeech devices st cid fragments now in
    is_Some (activeCalls st' !! cid)
    ∧ callAudioChunks st' !! cid = Some (chunks ++ (BufferFromBase64 <$> fragments))
    ∧ firstAndTwentieths (length chunks) + transcriptionAttempts cid evs
      = firstAndTwentieths (length chunks + length fragments).
Proof.
  induction fragments as [|f rest IH]; intros st call chunks Hc Ha; simpl.
  - rewrite Hc, Ha, app_nil_r, Nat.add_0_r. split_all; [by eexists | done |].
    by rewrite Nat.add_0_r.
  - destruct (processCallAudio_step processSpeech devices st cid f now call chunks Hc Ha)
      as (r & st1 & evs & -> & [call1 Hc1] & Ha1 & Hn).
    specialize (IH st1 call1 _ Hc1 Ha1).
    destruct (ingestAll processSpeech devices st1 cid rest now) as [st2 evs'].
    destruct IH as (Hc2 & Ha2 & Hn2). split_all; [done | |].
    + by rewrite Ha2, <- app_assoc.
    + unfold transcriptionAttempts in *. rewrite count_app, Hn.
      rewrite length_app in Hn2. simpl in Hn2.
      rewrite Nat.add_1_r, firstAndTwentieths_S in Hn2.
      replace (length chunks + S (length rest)) with (S (length chunks) + length rest) by lia.
      lia.
Qed.

(** C5, counterexample. The first fragment of the freshly registered call
    [c1] is handed to transcription when it is ingested, so that the
    fragments 1 to 19 trigger one transcription attempt and not none. *)
Lemma first_fragment_is_transcribed :
  (processCallAudio Scenario.speech ∅ Scenario.registered "c1" "AAAA" 500).2
  = [SpeechRequest Transcribe "c1" "Audio chunk 1 from call with +15551234567";
     SpeechRequest Respond "c1" "hello"]
  ∧ length Scenario.nineteen = 19
  ∧ transcriptionAttempts "c1" Scenario.afterNineteen.2 = 1.
Proof. by vm_compute. Qed.

(** C5, amended. For a freshly registered call, a transcription attempt is
    triggered by the first fragment ingested and by every 20th one, and by
    no other fragment: the fragments 2 to 19 are buffered without an
    attempt.  Ingesting the fragments 1 to 19 triggers one attempt, that of
    the first fragment, and ingesting the 20th triggers one more. *)
Theorem transcription_on_first_and_every_20th
    processSpeech whatsappReady devices devices' st cid ph dev inc t0 now :
  let st0 := (registerCall whatsappReady devices st cid ph dev inc t0).1.2 in
  (∀ fragments,
     transcriptionAttempts cid
       (ingestAll processSpeech devices' st0 cid fragments now).2
     = firstAndTwentieths (length fragments))
  ∧ (∀ before f,
       let st_k := (ingestAll processSpeech devices' st0 cid before now).1 in
       let k := S (length before) in
       transcriptionAttempts cid
         (processCallAudio processSpeech devices' st_k cid f now).2
       = if bool_decide (k = 1 ∨ k mod 20 = 0) then 1 else 0)
  ∧ (∀ fragments, length fragments = 19 →
       transcriptionAttempts cid
         (ingestAll processSpeech devices' st0 cid fragments now).2 = 1
       ∧ ∀ f, transcriptionAttempts cid
                (processCallAudio processSpeech devices' 
                   (ingestAll processSpeech devices' st0 cid fragments now).1
                   cid f now).2 = 1).
Proof.
  intros st0.
  destruct (registerCall_unfold whatsappReady devices st cid ph dev inc t0)
    as (sent & thrown & _ & Hreg).
  assert (Hc : activeCalls st0 !! cid
               = Some (mkCall cid ph dev t0 inc "ringing" "" 0 None None None None)).
  { unfold st0. rewrite Hreg. simpl. apply lookup_insert_eq. }
  assert (Ha : callAudioChunks st0 !! cid = Some []).
  { unfold st0. rewrite Hreg. simpl. apply lookup_insert_eq. }
  assert (Hall : ∀ fragments,
            transcriptionAttempts cid
              (ingestAll processSpeech devices' st0 cid fragments now).2
            = firstAndTwentieths (length fragments)).
  { intros fragments.
    pose proof (ingestAll_from processSpeech devices' cid now fragments st0 _ _ Hc Ha) as H.
    destruct (ingestAll _ _ _ _ _ _) as [st' evs]. by destruct H as (_ & _ & H). }
  assert (Hone : ∀ before f,
            transcriptionAttempts cid
              (processCallAudio processSpeech devices'
                 (ingestAll processSpeech devices' st0 cid before now).1 cid f now).2
            = if skipsTranscription (S (length before)) then 0 else 1).
  { intros before f.
    pose proof (ingestAll_from processSpeech devices' cid now before st0 _ _ Hc Ha) as H.
    destruct (ingestAll _ _ _ _ _ _) as [st' evs]. destruct H as ([call' Hc'] & Ha' & _).
    simpl in *.
    destruct (processCallAudio_step processSpeech devices' st' cid f now _ _ Hc' Ha')
      as (r & st2 & evs2 & -> & _ & _ & Hn).
    simpl. by rewrite Hn, length_fmap. }
  split_all.
  - exact Hall.
  - intros before f st_k k. unfold st_k, k. rewrite Hone.
    pose proof (skipsTranscription_spec (S (length before))) as Hs.
    destruct (skipsTranscription _); case_bool_decide as Hk; try done.
    + exfalso. assert (true = false); [|done]. apply Hs. lia.
    + exfalso. apply Hk. destruct Hs as [Hs _]. specialize (Hs eq_refl). lia.
  - intros fragments Hlen. split.
    + by rewrite Hall, Hlen.
    + intros f. by rewrite Hone, Hlen.
Qed.

(** *** Finalization *)

Lemma count_cons p e evs :
  count p (e :: evs) = (if p e then 1 else 0) + count p evs.
Proof.
  unfold count. destruct (p e) eqn:He.
  - by rewrite filter_cons_True.
  - rewrite filter_cons_False; [done|]. by rewrite He.
Qed.

Lemma broadcast_writable_default devices st cid m :
  allWritable devices (default [] (callObservers st !! cid)) →
  broadcast devices st cid m
  = ((λ d, WsSend (DeviceManager.ws d) m)
       <$> present devices (default [] (callObservers st !! cid)), None).
Proof.
  intros Hw. destruct (callObservers st !! cid) as [obs|] eqn:Ho; simpl in *.
  - by apply broadcast_writable.
  - by apply broadcast_unobserved.
Qed.

Lemma count_sends p m (ds : list DeviceManager.Device) :
  (∀ w, p (WsSend w m) = true) →
  count p ((λ d, WsSend (DeviceManager.ws d) m) <$> ds) = length ds.
Proof.
  intros Hp. rewrite count_all; [apply length_fmap|].
  apply Forall_fmap, Forall_forall. intros d _. apply Hp.
Qed.

Lemma count_sends_none p m (ds : list DeviceManager.Device) :
  (∀ w, p (WsSend w m) = false) →
  count p ((λ d, WsSend (DeviceManager.ws d) m) <$> ds) = 0.
Proof.
  intros Hp. apply count_none, Forall_fmap, Forall_forall. intros d _. apply Hp.
Qed.

(** One settled update to [ended] of a registered call: [k] is 1 when the
    accumulated transcript has something other than white space, else 0. *)
Lemma settled_ended processSpeech w devices st cid now later call0 :
  activeCalls st !! cid = Some call0 →
  let text := default "" (callTranscriptions st !! cid) in
  let obs := default [] (callObservers st !! cid) in
  let k := if Js.trim_is_empty text then 0 else 1 in
  ∃ r st2 evs,
    updateCallStatusSettled processSpeech w devices st cid "ended" now later
    = (r, st2, evs)
    ∧ (∃ call, activeCalls st2 !! cid = Some call ∧ status call = "ended"
               ∧ endedAt call = Some now)
    ∧ callTranscriptions st2 = callTranscriptions st
    ∧ callObservers st2 = callObservers st
    ∧ count (isSummaryRequest cid) evs = k
    ∧ (allWritable devices obs →
         count (isCleanupTimer cid) evs = k
         ∧ count (isSummaryBroadcast cid) evs = k * length (present devices obs)).
Proof.
  intros H0 text obs k. unfold updateCallStatusSettled.
  destruct (updateCallStatus_unfold devices st cid "ended" now call0 H0)
    as (sent & thrown & Hb & ->).
  assert (Hsent : ∀ p, (∀ w' m', p (WsSend w' (MsgCallUpdate cid m')) = false) →
                       count p sent = 0).
  { intros p Hp. replace sent with (sent, thrown).1 by done. rewrite <- Hb.
    unfold broadcastCallUpdate. apply broadcast_count_none. intros w'. apply Hp. }
  change (String.eqb "ended" "ended") with true. cbv iota.
  set (call := withStatus call0 "ended" now) in *.
  set (st1 := set_activeCalls st (<[cid:=call]> (activeCalls st))) in *.
  assert (Hc1 : activeCalls st1 !! cid = Some call) by apply lookup_insert_eq.
  unfold finalizeBegin. rewrite Hc1.
  change (callTranscriptions st1) with (callTranscriptions st). fold text.
  unfold k. destruct (Js.trim_is_empty text) eqn:Hblank.
  - exists (match thrown with None => Success (Some call) | Some e => Failure e end),
      st1, ([] ++ sent).
    split; [done|]. split; [by exists call|]. split; [done|]. split; [done|].
    simpl. split; [by apply Hsent|]. intros _. split; by apply Hsent.
  - unfold finalizeResume. rewrite Hc1.
    set (reply := processSpeech text _).
    set (st2 := set_activeCalls st1 _).
    destruct (broadcastCallSummary devices st2 cid reply later) as [sent2 thrown2] eqn:Hb2.
    eexists _, st2, _. split; [done|].
    split; [exists (set_summary call reply); split; [apply lookup_insert_eq | done]|].
    split; [done|]. split; [done|].
    assert (Hnotice : ∀ p, (∀ c t, p (WhatsAppSummary c t) = false) →
              count p (if Js.truthy reply && w
                       then [WhatsAppSummary cid (default "" reply)] else []) = 0).
    { intros p Hp. destruct (Js.truthy reply && w); [|done].
      by rewrite count_cons, Hp. }
    split.
    + rewrite !count_app, count_cons, Hsent, Hnotice by done.
      replace (count (isSummaryRequest cid) sent2) with 0.
      * simpl. rewrite bool_decide_eq_true_2 by done. by destruct thrown2.
      * replace sent2 with (sent2, thrown2).1 by done. rewrite <- Hb2.
        unfold broadcastCallSummary. by rewrite broadcast_count_none.
    + intros Hw. unfold broadcastCallSummary in Hb2.
      rewrite broadcast_writable_default in Hb2 by done.
      injection Hb2 as <- <-.
      change (callObservers st2) with (callObservers st). fold obs.
      rewrite !count_app, !count_cons, !Hsent, !Hnotice by done.
      rewrite count_sends_none by done.
      rewrite count_sends by (intros w'; simpl; by rewrite bool_decide_eq_true_2).
      simpl. rewrite bool_decide_eq_true_2 by done.
      change (count _ []) with 0. lia.
Qed.

Lemma endRepeatedly_counts processSpeech w devices cid now n :
  ∀ st call0,
    activeCalls st !! cid = Some call0 →
    let text := default "" (callTranscriptions st !! cid) in
    let obs := default [] (callObservers st !! cid) in
    let k := if Js.trim_is_empty text then 0 else 1 in
    let evs := (endRepeatedly processSpeech w devices st cid n now).2 in
    count (isSummaryRequest cid) evs = n * k
    ∧ (allWritable devices obs →
         count (isCleanupTimer cid) evs = n * k
         ∧ count (isSummaryBroadcast cid) evs = n * (k * length (present devices obs))).
Proof.
  induction n as [|n IH]; intros st call0 H0 text obs k; [done|]. simpl.
  destruct (settled_ended processSpeech w devices st cid now now call0 H0)
    as (r & st1 & evs1 & -> & (call1 & Hc1 & _) & Ht & Ho & Hreq & Hrest).
  specialize (IH st1 call1 Hc1). simpl in IH. rewrite Ht, Ho in IH.
  destruct (endRepeatedly processSpeech w devices st1 cid n now) as [st2 evs2].
  simpl in *. destruct IH as [IHreq IHrest]. rewrite !count_app. split.
  - fold text k in Hreq, IHreq |- *. lia.
  - intros Hw. destruct (Hrest Hw) as [H1 H2]. destruct (IHrest Hw) as [H3 H4].
    fold text obs k in H1, H2, H3, H4 |- *. lia.
Qed.

(** C3, counterexample. Call [c1] has a transcript and one observer; two
    status updates to [ended] run the finalize step twice: two summary
    requests, two summary broadcasts to the observer and two cleanup
    timers. *)
Lemma finalize_runs_twice :
  count (isSummaryRequest "c1") Scenario.endedTwice.2 = 2
  ∧ count (isSummaryBroadcast "c1") Scenario.endedTwice.2 = 2
  ∧ count (isCleanupTimer "c1") Scenario.endedTwice.2 = 2.
Proof. by vm_compute. Qed.

(** C3, amended. The finalize step has no guard: it runs at every status
    update to [ended].  For a registered call whose accumulated transcript
    is not blank, [n] such updates make [n] summary requests and, when the
    sockets of the registered observers take writes, broadcast the summary
    [n] times to each of them and schedule the cleanup [n] times.  For a
    call whose transcript is blank, the step stops before the summary and
    none of the three happens. *)
Theorem finalize_runs_at_every_ended_update
    processSpeech whatsappReady devices st cid call0 now n :
  activeCalls st !! cid = Some call0 →
  let observers := default [] (callObservers st !! cid) in
  let evs := (endRepeatedly processSpeech whatsappReady devices st cid n now).2 in
  let watching := length (present devices observers) in
  (Js.trim_is_empty (default "" (callTranscriptions st !! cid)) = false →
     count (isSummaryRequest cid) evs = n
     ∧ (allWritable devices observers →
          count (isSummaryBroadcast cid) evs = n * watching
          ∧ count (isCleanupTimer cid) evs = n))
  ∧ (Js.trim_is_empty (default "" (callTranscriptions st !! cid)) = true →
       count (isSummaryRequest cid) evs = 0
       ∧ (allWritable devices observers →
            count (isSummaryBroadcast cid) evs = 0
            ∧ count (isCleanupTimer cid) evs = 0)).
Proof.
  intros H0 observers evs watching.
  destruct (endRepeatedly_counts processSpeech whatsappReady devices cid now n st call0 H0)
    as [Hreq Hrest].
  fold evs observers in Hreq, Hrest. fold watching in Hrest.
  split; intros Hblank; rewrite Hblank in *; (split; [lia|]);
    intros Hw; destruct (Hrest Hw) as [Htimer Hcast]; split; lia.
Qed.

End CallProofs.

(** * The theorems at the concrete runs *)

Module Instances.
Import CallService.

Lemma observers_writable (names : list string) :
  allWritable Scenario.observers names.
Proof.
  intros o d _ Hd. unfold Scenario.observers, DeviceManager.registerDevice in Hd.
  simpl in Hd. apply lookup_insert_Some in Hd as [[_ <-]|[_ Hd]]; [done|].
  apply lookup_insert_Some in Hd as [[_ <-]|[_ Hd]]; [done|].
  by rewrite lookup_empty in Hd.
Defined.

(** Registering [c1] again while it is answered. *)
Lemma registerCall_replaces_session_at_c1 :
  is_Some (activeCalls Scenario.answered !! "c1")
  ∧ activeCalls Scenario.reRegistered.1.2 !! "c1"
    = Some (mkCall "c1" "+15551234567" "d1" 5000 true "ringing" "" 0
                   None None None None).
Proof.
  assert (H : activeCalls Scenario.answered !! "c1"
              = Some (mkCall "c1" "+15551234567" "d1" 0 true "answered" "" 0
                             (Some 1000%Z) None None None))
    by (vm_compute; reflexivity).
  split; [by rewrite H|].
  pose proof (CallProofs.registerCall_replaces_session Scenario.whatsapp ∅
                Scenario.answered "c1" "+15551234567" "d1" true 5000 _ H) as T.
  unfold Scenario.reRegistered.
  destruct (registerCall _ _ _ _ _ _ _ _) as [[r st'] evs]. apply T.
Defined.

(** Setting [c1] to [in_progress] after it has ended. *)
Lemma updateCallStatus_stores_any_status_at_c1 :
  activeCalls Scenario.endedEarly !! "c1"
  = Some (mkCall "c1" "+15551234567" "d1" 0 true "ended" "" 0
                 None (Some 1000%Z) (Some 1%Z) None)
  ∧ ∃ call, activeCalls Scenario.resumed.1.2 !! "c1" = Some call
            ∧ status call = "in_progress".
Proof.
  assert (H : activeCalls Scenario.endedEarly !! "c1"
              = Some (mkCall "c1" "+15551234567" "d1" 0 true "ended" "" 0
                             None (Some 1000%Z) (Some 1%Z) None))
    by (vm_compute; reflexivity).
  split; [exact H|].
  pose proof (CallProofs.updateCallStatus_stores_any_status ∅ Scenario.endedEarly
                "c1" "in_progress" 2000 _ H) as T.
  unfold Scenario.resumed.
  destruct (updateCallStatus _ _ _ _ _) as [[r st'] evs].
  destruct T as (call & T1 & T2 & _). by exists call.
Defined.

(** Ending [c1], which has a transcript and the observer [o1], twice. *)
Lemma finalize_runs_at_every_ended_update_at_c1 :
  is_Some (activeCalls Scenario.heard !! "c1")
  ∧ allWritable Scenario.observers (default [] (callObservers Scenario.heard !! "c1"))
  ∧ Js.trim_is_empty (default "" (callTranscriptions Scenario.heard !! "c1")) = false
  ∧ count (isSummaryRequest "c1") Scenario.endedTwice.2 = 2
  ∧ count (isSummaryBroadcast "c1") Scenario.endedTwice.2 = 2
  ∧ count (isCleanupTimer "c1") Scenario.endedTwice.2 = 2.
Proof.
  assert (H : activeCalls Scenario.heard !! "c1"
              = Some (mkCall "c1" "+15551234567" "d1" 0 true "ringing" " hello" 0
                             None None None None))
    by (vm_compute; reflexivity).
  split; [by rewrite H|]. split; [apply observers_writable|].
  assert (Hb : Js.trim_is_empty (default "" (callTranscriptions Scenario.heard !! "c1"))
               = false) by (vm_compute; reflexivity).
  split; [exact Hb|].
  pose proof (CallProofs.finalize_runs_at_every_ended_update Scenario.speech
                Scenario.whatsapp Scenario.observers Scenario.heard "c1" _ 1000 2 H)
    as [T _].
  destruct (T Hb) as [T1 T2]. split; [exact T1|].
  exact (T2 (observers_writable _)).
Defined.

(** Scenario A: [c1] is answered at 1000 ms and ended 42 seconds later. *)
Lemma status_timestamps_and_duration_at_c1 :
  activeCalls Scenario.answered !! "c1"
  = Some (mkCall "c1" "+15551234567" "d1" 0 true "answered" "" 0
                 (Some 1000%Z) None None None)
  ∧ ∃ call, activeCalls Scenario.ended !! "c1" = Some call
            ∧ duration call = Some 42%Z.
Proof.
  assert (H : activeCalls Scenario.answered !! "c1"
              = Some (mkCall "c1" "+15551234567" "d1" 0 true "answered" "" 0
                             (Some 1000%Z) None None None))
    by (vm_compute; reflexivity).
  split; [exact H|].
  pose proof (CallProofs.status_timestamps_and_duration ∅ Scenario.answered "c1" _ H)
    as (_ & _ & _ & T & _).
  apply (T 1000%Z eq_refl).
Defined.

(** Scenario B: nineteen fragments for the fresh call [c1]. *)
Lemma transcription_on_first_and_every_20th_at_c1 :
  length Scenario.nineteen = 19
  ∧ transcriptionAttempts "c1" Scenario.afterNineteen.2 = 1
  ∧ transcriptionAttempts "c1"
      (processCallAudio Scenario.speech ∅ Scenario.afterNineteen.1 "c1" "AAAA" 500).2 = 1.
Proof.
  assert (H : length Scenario.nineteen = 19) by reflexivity.
  split; [exact H|].
  pose proof (CallProofs.transcription_on_first_and_every_20th Scenario.speech
                Scenario.whatsapp ∅ ∅ initial "c1" "+15551234567" "d1" true 0 500)
    as (_ & _ & T).
  destruct (T Scenario.nineteen H) as [T1 T2]. split; [exact T1 | exact (T2 "AAAA")].
Defined.

(** Scenario C: [o1], [o2] and the unregistered [ghost] observe [c1]. *)
Lemma broadcastTranscriptionUpdate_delivers_until_a_write_throws_at_c1 :
  callObservers Scenario.threeObservers !! "c1" = Some ["o1"; "o2"; "ghost"]
  ∧ allWritable Scenario.observers ["o1"; "o2"; "ghost"]
  ∧ broadcastTranscriptionUpdate Scenario.observers Scenario.threeObservers
      "c1" "hi" false 7
    = ([WsSend (Scenario.socket "o1") (MsgCallTranscript "c1" "hi" false 7);
        WsSend (Scenario.socket "o2") (MsgCallTranscript "c1" "hi" false 7)], None).
Proof.
  assert (H : callObservers Scenario.threeObservers !! "c1"
              = Some ["o1"; "o2"; "ghost"]) by (vm_compute; reflexivity).
  split; [exact H|]. split; [apply observers_writable|].
  pose proof (CallProofs.broadcastTranscriptionUpdate_delivers_until_a_write_throws
                Scenario.observers Scenario.threeObservers "c1" "hi" false 7 _ H) as T.
  destruct (broadcastTranscriptionUpdate _ _ _ _ _ _) as [sent thrown].
  destruct T as (_ & _ & T3 & T4 & _).
  destruct (T4 (observers_writable _)) as [-> _].
  rewrite (proj2 T3 (observers_writable _)). vm_compute. reflexivity.
Defined.

(** [c1], ended at 1000 ms, and the cleanup of its audio. *)
Lemma getActiveCalls_lists_every_session_at_c1 :
  is_Some (activeCalls Scenario.heard !! "c1")
  ∧ ∃ call, status call = "ended" ∧ endedAt call = Some 1000%Z
      ∧ call ∈ getActiveCalls
                 (cleanupCall (updateCallStatus Scenario.observers Scenario.heard
                                 "c1" "ended" 1000).1.2 "c1").
Proof.
  assert (H : activeCalls Scenario.heard !! "c1"
              = Some (mkCall "c1" "+15551234567" "d1" 0 true "ringing" " hello" 0
                             None None None None))
    by (vm_compute; reflexivity).
  split; [by rewrite H|].
  pose proof (CallProofs.getActiveCalls_lists_every_session Scenario.observers
                Scenario.heard "c1" _ 1000 H) as (_ & _ & (call & T1 & T2 & _ & T3) & _).
  by exists call.
Defined.

(** A write to [o1], connected at time 0, at 5000 ms. *)
Lemma delivery_refreshes_lastActive_at_o1 :
  Scenario.observers !! "o1"
  = Some (DeviceManager.mkDevice "o1" (Scenario.socket "o1") 0 0 [] true)
  ∧ (DeviceManager.sendToDevice Scenario.observers "o1" (MsgJson "{}") 5000).1.2 !! "o1"
    = Some (DeviceManager.mkDevice "o1" (Scenario.socket "o1") 0 5000 [] true).
Proof.
  assert (H : Scenario.observers !! "o1"
              = Some (DeviceManager.mkDevice "o1" (Scenario.socket "o1") 0 0 [] true))
    by (vm_compute; reflexivity).
  split; [exact H|].
  pose proof (RegistryProofs.delivery_refreshes_lastActive Scenario.observers "o1" _
                (MsgJson "{}") 5000 H) as [T _].
  specialize (T eq_refl).
  destruct (DeviceManager.sendToDevice _ _ _ _) as [[ok ds] evs].
  destruct T as (_ & T & _). exact T.
Defined.

(** [o1] disconnects. *)
Lemma onClose_touches_registry_only_at_o1 :
  "o2" ≠ "o1"
  ∧ Router.devices Scenario.disconnected !! "o2"
    = Router.devices (Router.onCallObserve Scenario.connected "o1" "c1") !! "o2".
Proof.
  assert (H : "o2" ≠ "o1") by discriminate.
  split; [exact H|].
  pose proof (RouterProofs.onClose_touches_registry_only
                (Router.onCallObserve Scenario.connected "o1" "c1") "o1")
    as (_ & T & _).
  apply (T "o2" H).
Defined.

(** The message of type [bogus], and the message whose type is an object
    with an own [toString]. *)
Lemma onMessage_replies_only_on_exception_at_bogus :
  Scenario.bogus ≠ Js.JNull
  ∧ (∀ t, t ∈ Router.knownTypes → Router.type Scenario.bogus ≠ Some (Js.JString t))
  ∧ Js.template (Router.type Scenario.bogus) = Some "bogus"
  ∧ Router.onMessage Scenario.neverRejects "x" (Scenario.socket "x")
      (Router.JsonValue Scenario.bogus)
    = (Some (Router.WarnUnknown (Some (Js.JString "bogus"))),
       [LogWarn "Unknown message type: bogus"])
  ∧ Js.template (Router.type Scenario.unprintable) = None
  ∧ Router.onMessage Scenario.neverRejects "x" (Scenario.socket "x")
      (Router.JsonValue Scenario.unprintable)
    = (None, [WsSend (Scenario.socket "x") Router.errorReply]).
Proof.
  assert (Hn : Scenario.bogus ≠ Js.JNull) by discriminate.
  assert (H : ∀ t, t ∈ Router.knownTypes
                   → Router.type Scenario.bogus ≠ Some (Js.JString t)).
  { intros t Ht. unfold Router.knownTypes in Ht.
    repeat (apply elem_of_cons in Ht as [->|Ht]; [discriminate|]).
    by apply elem_of_nil in Ht. }
  assert (Hs : Js.template (Router.type Scenario.bogus) = Some "bogus")
    by reflexivity.
  assert (Hu : Js.template (Router.type Scenario.unprintable) = None)
    by reflexivity.
  split; [exact Hn|]. split; [exact H|]. split; [exact Hs|].
  pose proof (RouterProofs.onMessage_replies_only_on_exception Scenario.neverRejects
                "x" (Scenario.socket "x"))
    as (T1 & _ & _ & _ & _ & _ & _ & _ & T9 & T10 & _).
  split; [exact (T1 Scenario.bogus "bogus" Hn H Hs)|].
  split; [exact Hu|].
  rewrite (T9 Scenario.unprintable Hu). by rewrite (T10 eq_refl).
Defined.

End Instances.

(** * Further properties of the code *)

(** ** The connection registry *)

Module RegistryFacts.
Import DeviceManager.

(** X1. [registerDevice] never fails: the identifier is bound to a new
    entry with the given socket, both timestamps at the time of the call,
    no device information and the active flag set, whether the identifier
    was bound before or not; the other entries are kept, and the registry
    grows by one entry exactly when the identifier was not bound. *)
Theorem registerDevice_binds (devices : gmap string Device) i w now :
  let '(device, devices') := registerDevice devices i w now in
  device = mkDevice i w now now [] true
  ∧ getDevice devices' i = Some device
  ∧ (∀ j, j ≠ i → getDevice devices' j = getDevice devices j)
  ∧ (devices !! i = None → size devices' = S (size devices))
  ∧ (is_Some (devices !! i) → size devices' = size devices).
Proof.
  unfold registerDevice, getDevice. split; [done|].
  split; [apply lookup_insert_eq|].
  split; [intros j Hj; by apply lookup_insert_ne|]. split.
  - intros Hn. by apply map_size_insert_None.
  - intros Hs. by apply map_size_insert_Some.
Qed.

Lemma registerDevice_binds_at_o1 :
  is_Some (Scenario.observers !! "o1")
  ∧ size (registerDevice Scenario.observers "o1" (Example.brokenSocket "o1") 9).2
    = size Scenario.observers.
Proof.
  assert (H : is_Some (Scenario.observers !! "o1")) by (vm_compute; by eexists).
  split; [exact H|].
  pose proof (registerDevice_binds Scenario.observers "o1"
                (Example.brokenSocket "o1") 9) as T.
  destruct (registerDevice _ _ _ _) as [device devices'].
  destruct T as (_ & _ & _ & _ & T). exact (T H).
Defined.

(** X2. [unregisterDevice] removes the entry of the identifier and no
    other, does nothing when the identifier is not bound, is idempotent,
    and undoes the registration of an identifier that was not bound. *)
Theorem unregisterDevice_undoes_registration (devices : gmap string Device) i :
  getDevice (unregisterDevice devices i) i = None
  ∧ (∀ j, j ≠ i → getDevice (unregisterDevice devices i) j = getDevice devices j)
  ∧ (devices !! i = None → unregisterDevice devices i = devices)
  ∧ unregisterDevice (unregisterDevice devices i) i = unregisterDevice devices i
  ∧ (devices !! i = None →
     ∀ w now, unregisterDevice (registerDevice devices i w now).2 i = devices).
Proof.
  rewrite !RouterProofs.unregisterDevice_delete. unfold getDevice.
  split; [apply lookup_delete_eq|].
  split; [intros j Hj; by apply lookup_delete_ne|].
  split; [intros Hn; by apply delete_id|].
  split; [by rewrite delete_delete_eq|].
  intros Hn w now. rewrite RouterProofs.unregisterDevice_delete. simpl.
  rewrite delete_insert_eq. by apply delete_id.
Qed.

Lemma unregisterDevice_undoes_registration_at_o3 :
  Scenario.observers !! "o3" = None
  ∧ unregisterDevice (registerDevice Scenario.observers "o3" (Scenario.socket "o3") 5).2 "o3"
    = Scenario.observers.
Proof.
  assert (H : Scenario.observers !! "o3" = None) by (vm_compute; reflexivity).
  split; [exact H|].
  pose proof (unregisterDevice_undoes_registration Scenario.observers "o3")
    as (_ & _ & _ & _ & T).
  exact (T H (Scenario.socket "o3") 5%Z).
Defined.

Lemma assoc_lookup {A : Type} k (l : list (string * A)) :
  Js.assoc k l = (list_to_map l : gmap string A) !! k.
Proof.
  induction l as [|[k' v] l IH]; [done|]. simpl. case_bool_decide as H.
  - subst. by rewrite lookup_insert_eq.
  - by rewrite lookup_insert_ne.
Qed.

Lemma insert_index_lookup {A : Type} n (kv : string * A) l k :
  Js.array_index kv.1 = Some n →
  (list_to_map (Js.insert_index n kv l) : gmap string A) !! k
  = (list_to_map (kv :: l) : gmap string A) !! k.
Proof.
  intros Hn. induction l as [|kv' l IH]; [done|]. simpl.
  destruct (Js.array_index kv'.1) as [m|] eqn:Hm; [|done].
  destruct (m <? n)%N eqn:Hlt; [|done].
  assert (Hne : kv'.1 ≠ kv.1).
  { intros E. rewrite E, Hn in Hm. injection Hm as <-.
    by rewrite N.ltb_irrefl in Hlt. }
  simpl. destruct (decide (kv'.1 = k)) as [<-|Hk].
  - by rewrite lookup_insert_eq, lookup_insert_ne, lookup_insert_eq.
  - rewrite lookup_insert_ne by done. rewrite IH. simpl.
    destruct (decide (kv.1 = k)) as [<-|Hk'].
    + by rewrite !lookup_insert_eq.
    + by rewrite !lookup_insert_ne.
Qed.

Lemma own_keys_lookup {A : Type} (l : list (string * A)) k :
  (list_to_map (Js.own_keys l) : gmap string A) !! k
  = (list_to_map l : gmap string A) !! k.
Proof.
  unfold Js.own_keys. rewrite list_to_map_app, lookup_union.
  assert (Hi : (list_to_map
                  (foldr (λ kv sorted,
                            match Js.array_index kv.1 with
                            | Some n => Js.insert_index n kv sorted
                            | None => sorted
                            end) [] l) : gmap string A) !! k
               = match Js.array_index k with
                 | Some _ => (list_to_map l : gmap string A) !! k
                 | None => None
                 end).
  { induction l as [|kv l IH]; simpl.
    - by destruct (Js.array_index k).
    - destruct (Js.array_index kv.1) as [n|] eqn:Hn.
      + rewrite insert_index_lookup by done. simpl.
        destruct (decide (kv.1 = k)) as [<-|Hk].
        * by rewrite Hn, !lookup_insert_eq.
        * rewrite !lookup_insert_ne by done. exact IH.
      + rewrite IH. destruct (Js.array_index k) eqn:Hk; [|done].
        rewrite lookup_insert_ne; [done|]. intros E. by rewrite E, Hk in Hn. }
  assert (Ho : (list_to_map (filter (λ kv, Js.array_index kv.1 = None) l)
                : gmap string A) !! k
               = match Js.array_index k with
                 | Some _ => None
                 | None => (list_to_map l : gmap string A) !! k
                 end).
  { clear Hi. induction l as [|kv l IH]; simpl.
    - by destruct (Js.array_index k).
    - destruct (Js.array_index kv.1) as [n|] eqn:Hn.
      + rewrite filter_cons_False by (by rewrite Hn). rewrite IH.
        destruct (Js.array_index k) eqn:Hk; [done|].
        rewrite lookup_insert_ne; [done|]. intros E. by rewrite E, Hk in Hn.
      + rewrite filter_cons_True by done. simpl.
        destruct (decide (kv.1 = k)) as [<-|Hk].
        * by rewrite Hn, !lookup_insert_eq.
        * rewrite !lookup_insert_ne by done. exact IH. }
  rewrite Hi, Ho. destruct (Js.array_index k); by destruct (list_to_map l !! k).
Qed.

Lemma merge_info_map (old info : list (string * string)) :
  (list_to_map (merge_info old info) : gmap string string)
  = list_to_map info ∪ list_to_map old.
Proof.
  apply map_eq. intros k. unfold merge_info.
  rewrite own_keys_lookup, list_to_map_app, !lookup_union.
  assert (Hold : (list_to_map
                    ((λ kv, (kv.1, default kv.2 (Js.assoc kv.1 info))) <$> old)
                  : gmap string string) !! k
                 = match (list_to_map old : gmap string string) !! k with
                   | Some v => Some (default v ((list_to_map info : gmap string string) !! k))
                   | None => None
                   end).
  { induction old as [|[k' v] old IH]; [done|]. simpl.
    destruct (decide (k' = k)) as [->|Hk].
    - by rewrite !lookup_insert_eq, assoc_lookup.
    - by rewrite !lookup_insert_ne. }
  assert (Hnew : (list_to_map (filter (λ kv, kv.1 ∉ old.*1) info)
                  : gmap string string) !! k
                 = match (list_to_map old : gmap string string) !! k with
                   | Some _ => None
                   | None => (list_to_map info : gmap string string) !! k
                   end).
  { clear Hold. destruct ((list_to_map old : gmap string string) !! k) as [v|] eqn:Ho.
    - apply not_elem_of_list_to_map. intros Hk.
      apply list_elem_of_fmap in Hk as ([k' v'] & -> & Hk).
      apply list_elem_of_filter in Hk as [Hk _]. simpl in Hk.
      simpl in Ho. destruct (decide (k' ∈ old.*1)) as [|Hn]; [done|].
      apply (not_elem_of_list_to_map_1 (M := gmap string)) in Hn. congruence.
    - apply not_elem_of_list_to_map in Ho.
      induction info as [|[k' v'] info IH]; [done|].
      destruct (decide (k' ∈ old.*1)) as [Hin|Hin].
      + rewrite filter_cons_False by (simpl; tauto). simpl.
        rewrite lookup_insert_ne; [done|]. by intros ->.
      + rewrite filter_cons_True by done. simpl.
        destruct (decide (k' = k)) as [->|Hne].
        * by rewrite !lookup_insert_eq.
        * by rewrite !lookup_insert_ne. }
  rewrite Hold, Hnew.
  destruct ((list_to_map old : gmap string string) !! k) as [v|]; simpl.
  - by destruct ((list_to_map info : gmap string string) !! k).
  - by destruct ((list_to_map info : gmap string string) !! k).
Qed.

(** X3. [updateDeviceInfo] does nothing for an identifier that is not
    bound.  For a bound one it merges the fields given into the device
    information, a field given replacing the one of the same name and the
    other fields kept, sets [lastActive] to the time of the call, and leaves
    the socket, the connection time, the active flag and all other entries
    as they are. *)
Theorem updateDeviceInfo_merges (devices : gmap string Device) i info now :
  (devices !! i = None → updateDeviceInfo devices i info now = devices)
  ∧ (∀ d, devices !! i = Some d →
       ∃ d', updateDeviceInfo devices i info now !! i = Some d'
         ∧ (list_to_map (deviceInfo d') : gmap string string)
           = list_to_map info ∪ list_to_map (deviceInfo d)
         ∧ lastActive d' = now
         ∧ id d' = id d ∧ ws d' = ws d ∧ connectedAt d' = connectedAt d
         ∧ isActive d' = isActive d
         ∧ ∀ j, j ≠ i → updateDeviceInfo devices i info now !! j = devices !! j).
Proof.
  unfold updateDeviceInfo. split.
  - by intros ->.
  - intros d ->. eexists. split; [apply lookup_insert_eq|]. simpl.
    split; [apply merge_info_map|]. repeat (split; [done|]).
    intros j Hj. by apply lookup_insert_ne.
Qed.

Lemma updateDeviceInfo_merges_at_o1 :
  Scenario.observers !! "o1"
  = Some (mkDevice "o1" (Scenario.socket "o1") 0 0 [] true)
  ∧ ∃ d', updateDeviceInfo Scenario.observers "o1" [("model", "Pixel")] 7 !! "o1" = Some d'
          ∧ lastActive d' = 7%Z.
Proof.
  assert (H : Scenario.observers !! "o1"
              = Some (mkDevice "o1" (Scenario.socket "o1") 0 0 [] true))
    by (vm_compute; reflexivity).
  split; [exact H|].
  pose proof (updateDeviceInfo_merges Scenario.observers "o1" [("model", "Pixel")] 7)
    as [_ T].
  destruct (T _ H) as (d' & T1 & _ & T2 & _). by exists d'.
Defined.

(** X4. [sendToDevice] answers [true] exactly when the identifier is bound
    and the socket takes the write; it then makes that one write.  When it
    answers [false], whether the identifier is unknown or the write threw,
    the registry is left as it was and nothing has been written. *)
Theorem sendToDevice_true_iff (devices : gmap string Device) i m now :
  let '(ok, devices', evs) := sendToDevice devices i m now in
  (ok = true ↔ ∃ d, devices !! i = Some d ∧ sendError (ws d) = None)
  ∧ (ok = true → ∃ d, devices !! i = Some d ∧ evs = [WsSend (ws d) m])
  ∧ (ok = false → devices' = devices ∧ evs = []).
Proof.
  unfold sendToDevice, ws_send.
  destruct (devices !! i) as [d|] eqn:Hd.
  - destruct (sendError (ws d)) as [e|] eqn:He.
    + split; [|done]. split; [done|]. intros (d' & [= <-] & Hn). congruence.
    + split; [|split; [by exists d | done]]. split; [|done]. by exists d.
  - split; [|done]. split; [done|]. by intros (d & ? & _).
Qed.

Lemma sendToDevice_true_iff_at_d2 :
  (sendToDevice Example.mixed "d2" (MsgJson "{}") 5).1.1 = false
  ∧ (sendToDevice Example.mixed "d2" (MsgJson "{}") 5).1.2 = Example.mixed.
Proof.
  assert (H : (sendToDevice Example.mixed "d2" (MsgJson "{}") 5).1.1 = false)
    by (vm_compute; reflexivity).
  split; [exact H|].
  pose proof (sendToDevice_true_iff Example.mixed "d2" (MsgJson "{}") 5) as T.
  destruct (sendToDevice _ _ _ _) as [[ok devices'] evs].
  destruct T as (_ & _ & T). by destruct (T H).
Defined.

Lemma size_filter_split {A} (P : string * A → Prop) `{!∀ x, Decision (P x)}
    (m : gmap string A) :
  size (filter P m) + size (filter (λ x, ¬ P x) m) = size m.
Proof.
  rewrite <- map_size_disj_union by apply map_disjoint_filter_complement.
  by rewrite map_filter_union_complement.
Qed.

(** X5. [broadcastToAll] tries every entry once: the two counts it
    returns add up to the number of entries, the successes are the entries
    whose socket took the write and the writes made are as many, the same
    message each; an entry whose write threw is counted as failed and stops
    nothing.  No entry is added or removed. *)
Theorem broadcastToAll_counts (devices : gmap string Device) m now :
  let '(status, devices', evs) := broadcastToAll devices m now in
  successCount status + failedCount status = size devices
  ∧ successCount status
    = size (filter (λ kv, sendError (ws kv.2) = None) devices)
  ∧ length evs = successCount status
  ∧ (∀ e, e ∈ evs ↔ ∃ i d, devices !! i = Some d ∧ sendError (ws d) = None
                            ∧ e = WsSend (ws d) m)
  ∧ dom devices' = dom devices
  ∧ size devices' = size devices.
Proof.
  unfold broadcastToAll. simpl.
  set (ok := filter (λ kv, delivered kv.2 = true) devices).
  assert (Hle : size ok ≤ size devices)
    by apply map_subseteq_size, map_filter_subseteq.
  assert (Hok : ok = filter (λ kv, sendError (ws kv.2) = None) devices).
  { apply map_filter_ext. intros i d _. unfold delivered, ws_send. simpl.
    by rewrite bool_decide_eq_true. }
  split; [lia|]. split; [by rewrite Hok|].
  split; [by rewrite length_fmap, length_map_to_list|]. split.
  - intros e. rewrite list_elem_of_fmap. split.
    + intros ([i d] & -> & Hin). apply elem_of_map_to_list in Hin.
      rewrite Hok in Hin. apply map_lookup_filter_Some in Hin as [Hd Hw].
      by exists i, d.
    + intros (i & d & Hd & Hw & ->). exists (i, d). split; [done|].
      apply elem_of_map_to_list. rewrite Hok. by apply map_lookup_filter_Some.
  - split; [apply dom_fmap_L | apply map_size_fmap].
Qed.

Lemma broadcastToAll_counts_at_mixed :
  (broadcastToAll Example.mixed (MsgJson "{}") 5).1.1 = mkStatus 1 1.
Proof.
  pose proof (broadcastToAll_counts Example.mixed (MsgJson "{}") 5) as T.
  destruct (broadcastToAll _ _ _) as [[[s f] devices'] evs]. simpl in *.
  destruct T as (T1 & T2 & _). rewrite T2 in T1 |- *.
  f_equal. change (size Example.mixed) with 2 in T1.
  change (size (filter _ Example.mixed)) with 1 in T1. lia.
Defined.

(** X6. [cleanInactiveDevices] removes exactly the entries whose
    [lastActive] lies more than the threshold before the time of the run,
    closes the socket of each, and returns their number: the number
    removed and the number kept add up to the number there was.  A second
    run at the same time with the same threshold removes nothing. *)
Theorem cleanInactiveDevices_partitions (devices : gmap string Device) maxT now :
  let '(count, devices', evs) := cleanInactiveDevices devices maxT now in
  count + size devices' = size devices
  ∧ length evs = count
  ∧ (∀ i d, devices' !! i = Some d
            ↔ devices !! i = Some d ∧ (now - lastActive d ≤ maxT)%Z)
  ∧ (∀ e, e ∈ evs ↔ ∃ i d, devices !! i = Some d
                            ∧ (now - lastActive d > maxT)%Z ∧ e = WsClose (ws d))
  ∧ cleanInactiveDevices devices' maxT now = (0, devices', []).
Proof.
  unfold cleanInactiveDevices. simpl.
  set (kept := filter (λ kv, ¬ inactive now maxT kv.2) devices).
  assert (Hnone : filter (λ kv : string * Device, inactive now maxT kv.2) kept = ∅).
  { apply map_empty_filter. intros i d Hd. unfold kept in Hd.
    by apply map_lookup_filter_Some in Hd as [_ Hd]. }
  split; [apply size_filter_split|].
  split; [by rewrite length_fmap, length_map_to_list|]. split; [|split].
  - intros i d. unfold kept. rewrite map_lookup_filter_Some. unfold inactive. simpl.
    split; intros [? ?]; (split; [done | lia]).
  - intros e. rewrite list_elem_of_fmap. split.
    + intros ([i d] & -> & Hin). apply elem_of_map_to_list in Hin.
      apply map_lookup_filter_Some in Hin as [Hd Hw]. by exists i, d.
    + intros (i & d & Hd & Hw & ->). exists (i, d). split; [done|].
      apply elem_of_map_to_list. by apply map_lookup_filter_Some.
  - rewrite Hnone, map_to_list_empty, map_filter_id; [done|].
    intros i d Hd. unfold kept in Hd.
    by apply map_lookup_filter_Some in Hd as [_ Hd].
Qed.

Lemma cleanInactiveDevices_partitions_at_observers :
  (cleanInactiveDevices Scenario.observers defaultMaxInactiveTime 1800001).1.1 = 2.
Proof.
  pose proof (cleanInactiveDevices_partitions Scenario.observers
                defaultMaxInactiveTime 1800001) as T.
  destruct (cleanInactiveDevices _ _ _) as [[count devices'] evs].
  destruct T as (T & _ & Hk & _). simpl.
  assert (Hsize : size devices' = 0).
  { apply map_size_empty_iff, map_eq. intros i. rewrite lookup_empty.
    destruct (devices' !! i) as [d|] eqn:Hd; [|done].
    apply Hk in Hd as [Hd Hle]. exfalso.
    unfold Scenario.observers, registerDevice in Hd. simpl in Hd.
    apply lookup_insert_Some in Hd as [[_ <-]|[_ Hd]]; [simpl in Hle; vm_compute in Hle; done|].
    apply lookup_insert_Some in Hd as [[_ <-]|[_ Hd]]; [simpl in Hle; vm_compute in Hle; done|].
    by rewrite lookup_empty in Hd. }
  change (size Scenario.observers) with 2 in T. lia.
Defined.

(** X7. [getAllDevices] gives one view per entry of the registry, with the
    identifier, the two timestamps, the device information and the active
    flag of the entry. *)
Theorem getAllDevices_views (devices : gmap string Device) :
  length (getAllDevices devices) = size devices
  ∧ ∀ v, v ∈ getAllDevices devices
         ↔ ∃ i d, devices !! i = Some d
                  ∧ v = mkView (id d) (connectedAt d) (lastActive d)
                               (deviceInfo d) (isActive d).
Proof.
  unfold getAllDevices. split; [by rewrite length_fmap, length_map_to_list|].
  intros v. rewrite list_elem_of_fmap. split.
  - intros ([i d] & -> & Hin). apply elem_of_map_to_list in Hin. by exists i, d.
  - intros (i & d & Hd & ->). exists (i, d). split; [done|].
    by apply elem_of_map_to_list.
Qed.

Lemma getAllDevices_views_at_observers :
  length (getAllDevices Scenario.observers) = 2.
Proof.
  destruct (getAllDevices_views Scenario.observers) as [T _].
  rewrite T. reflexivity.
Defined.

End RegistryFacts.

(** ** Observers and fan-out *)

Module ObserverFacts.
Import CallService.

Lemma set_add_elem o s x : x ∈ Js.set_add o s ↔ x = o ∨ x ∈ s.
Proof.
  unfold Js.set_add. case_bool_decide as Hin.
  - split; [by right|]. by intros [->|?].
  - rewrite elem_of_app, list_elem_of_singleton. tauto.
Qed.

Lemma set_add_NoDup o s : NoDup s → NoDup (Js.set_add o s).
Proof.
  intros Hs. unfold Js.set_add. case_bool_decide as Hin; [done|].
  apply NoDup_app. split; [done|]. split; [|apply NoDup_singleton].
  intros x Hx Hx'. apply list_elem_of_singleton in Hx'. by subst x.
Qed.

Lemma set_add_again o s : Js.set_add o (Js.set_add o s) = Js.set_add o s.
Proof.
  unfold Js.set_add at 1. rewrite bool_decide_eq_true_2; [done|].
  apply set_add_elem. by left.
Qed.

Lemma set_delete_elem o s x : x ∈ Js.set_delete o s ↔ x ∈ s ∧ x ≠ o.
Proof. unfold Js.set_delete. rewrite list_elem_of_filter. tauto. Qed.

Lemma set_delete_absent o s : o ∉ s → Js.set_delete o s = s.
Proof.
  intros Ho. unfold Js.set_delete. induction s as [|y s IH]; [done|].
  rewrite filter_cons_True by set_solver. f_equal. apply IH. set_solver.
Qed.

Lemma set_delete_add o s : o ∉ s → Js.set_delete o (Js.set_add o s) = s.
Proof.
  intros Ho. unfold Js.set_add. rewrite bool_decide_eq_false_2 by done.
  unfold Js.set_delete. rewrite filter_app.
  rewrite filter_cons_False by (intros H; by apply H). simpl.
  rewrite app_nil_r. by apply set_delete_absent.
Qed.

(** X8. [addCallObserver] makes the client a member of the observer set of
    the call, at the end of it if it was no member and without a second
    copy if it was; it is idempotent, needs no registered call of that
    identifier, and changes neither the observer set of another call nor
    a session, an audio buffer or a transcription. *)
Theorem addCallObserver_adds_once st cid o :
  let st' := addCallObserver st cid o in
  let before := default [] (callObservers st !! cid) in
  ∃ after,
    callObservers st' !! cid = Some after
    ∧ (∀ x, x ∈ after ↔ x = o ∨ x ∈ before)
    ∧ (o ∈ before → after = before)
    ∧ (o ∉ before → after = before ++ [o])
    ∧ (NoDup before → NoDup after)
    ∧ addCallObserver st' cid o = st'
    ∧ (∀ c, c ≠ cid → callObservers st' !! c = callObservers st !! c)
    ∧ activeCalls st' = activeCalls st
    ∧ callAudioChunks st' = callAudioChunks st
    ∧ callTranscriptions st' = callTranscriptions st.
Proof.
  intros st' before. exists (Js.set_add o before).
  unfold st', addCallObserver. simpl. fold before.
  split; [apply lookup_insert_eq|]. split; [apply set_add_elem|].
  split; [intros Hin; unfold Js.set_add; by rewrite bool_decide_eq_true_2|].
  split; [intros Hin; unfold Js.set_add; by rewrite bool_decide_eq_false_2|].
  split; [apply set_add_NoDup|]. split.
  - unfold set_callObservers. simpl. rewrite lookup_insert_eq. simpl.
    by rewrite set_add_again, insert_insert_eq.
  - split; [intros c Hc; by apply lookup_insert_ne|]. done.
Qed.

Lemma addCallObserver_adds_once_at_c1 :
  ("o1" ∉ default [] (callObservers Scenario.registered !! "c1"))
  ∧ callObservers (addCallObserver Scenario.registered "c1" "o1") !! "c1"
    = Some ["o1"].
Proof.
  assert (H : "o1" ∉ default [] (callObservers Scenario.registered !! "c1"))
    by (vm_compute; apply not_elem_of_nil).
  split; [exact H|].
  destruct (addCallObserver_adds_once Scenario.registered "c1" "o1")
    as (after & T1 & _ & _ & T2 & _).
  rewrite T1. f_equal. exact (T2 H).
Defined.

(** X9. [removeCallObserver] does nothing when the call has no observer
    set; otherwise it takes the client out of the set and keeps the other
    members in their order.  Removing a client that was added to an
    existing set it was no member of gives the set back; when the call had
    no set, the empty set that [addCallObserver] created stays. *)
Theorem removeCallObserver_removes st cid o :
  (callObservers st !! cid = None → removeCallObserver st cid o = st)
  ∧ (∀ before, callObservers st !! cid = Some before →
       ∃ after,
         callObservers (removeCallObserver st cid o) !! cid = Some after
         ∧ (∀ x, x ∈ after ↔ x ∈ before ∧ x ≠ o)
         ∧ after = filter (λ x, x ≠ o) before
         ∧ (o ∉ before → after = before)
         ∧ (NoDup before → NoDup after)
         ∧ (∀ c, c ≠ cid →
              callObservers (removeCallObserver st cid o) !! c = callObservers st !! c))
  ∧ (∀ before, callObservers st !! cid = Some before → o ∉ before →
       callObservers (removeCallObserver (addCallObserver st cid o) cid o) !! cid
       = Some before)
  ∧ (callObservers st !! cid = None →
       callObservers (removeCallObserver (addCallObserver st cid o) cid o) !! cid
       = Some []).
Proof.
  unfold removeCallObserver. split; [by intros ->|]. split; [|split].
  - intros before ->. exists (Js.set_delete o before). simpl.
    split; [apply lookup_insert_eq|]. split; [apply set_delete_elem|].
    split; [done|]. split; [apply set_delete_absent|].
    split; [apply NoDup_filter|]. intros c Hc. by apply lookup_insert_ne.
  - intros before Hb Ho. unfold addCallObserver. simpl.
    rewrite lookup_insert_eq. simpl. rewrite lookup_insert_eq, Hb. simpl.
    by rewrite set_delete_add.
  - intros Hn. unfold addCallObserver. simpl.
    rewrite lookup_insert_eq. simpl. rewrite lookup_insert_eq, Hn. simpl.
    by rewrite set_delete_add by apply not_elem_of_nil.
Qed.

Lemma removeCallObserver_removes_at_c1 :
  callObservers Scenario.threeObservers !! "c1" = Some ["o1"; "o2"; "ghost"]
  ∧ callObservers (removeCallObserver Scenario.threeObservers "c1" "o2") !! "c1"
    = Some ["o1"; "ghost"].
Proof.
  assert (H : callObservers Scenario.threeObservers !! "c1"
              = Some ["o1"; "o2"; "ghost"]) by (vm_compute; reflexivity).
  split; [exact H|].
  destruct (removeCallObserver_removes Scenario.threeObservers "c1" "o2")
    as (_ & T & _).
  destruct (T _ H) as (after & T1 & _ & T2 & _). rewrite T1, T2. reflexivity.
Defined.

Lemma broadcast_stops devices st cid before o after d e m :
  callObservers st !! cid = Some (before ++ o :: after) →
  allWritable devices before →
  devices !! o = Some d →
  sendError (DeviceManager.ws d) = Some e →
  broadcast devices st cid m
  = ((λ d', WsSend (DeviceManager.ws d') m) <$> present devices before, Some e).
Proof.
  intros Ho Hw Hd He. unfold broadcast. rewrite Ho.
  rewrite bool_decide_eq_false_2 by (rewrite length_app; simpl; lia).
  clear Ho. induction before as [|b before IH]; simpl.
  - unfold DeviceManager.getDevice, ws_send. by rewrite Hd, He.
  - assert (Hw' : allWritable devices before).
    { intros x dx Hx. apply Hw. by apply list_elem_of_further. }
    unfold present. simpl. unfold DeviceManager.getDevice, ws_send.
    destruct (devices !! b) as [db|] eqn:Hb; simpl.
    + rewrite (Hw b db); [|apply list_elem_of_here|done].
      unfold present in IH. by rewrite (IH Hw').
    + by apply IH.
Qed.

(** X10. The loop shared by [broadcastCallUpdate],
    [broadcastTranscriptionUpdate], [broadcastAiResponse] and
    [broadcastCallSummary] has no [try]: when the socket of a registered
    observer throws on the write, the observers subscribed before it have
    got the message, the observers subscribed after it get nothing, and the
    error leaves the method. *)
Theorem broadcast_stops_at_broken_socket devices st cid before o after d e :
  callObservers st !! cid = Some (before ++ o :: after) →
  allWritable devices before →
  devices !! o = Some d →
  sendError (DeviceManager.ws d) = Some e →
  let sends m := (λ d', WsSend (DeviceManager.ws d') m) <$> present devices before in
  (∀ call, broadcastCallUpdate devices st cid call
           = (sends (MsgCallUpdate cid (set_transcript call "")), Some e))
  ∧ (∀ t isFinal now, broadcastTranscriptionUpdate devices st cid t isFinal now
                      = (sends (MsgCallTranscript cid t isFinal now), Some e))
  ∧ (∀ r now, broadcastAiResponse devices st cid r now
              = (sends (MsgCallAiResponse cid r now), Some e))
  ∧ (∀ s now, broadcastCallSummary devices st cid s now
              = (sends (MsgCallSummary cid s now), Some e)).
Proof.
  intros Ho Hw Hd He sends.
  unfold broadcastCallUpdate, broadcastTranscriptionUpdate, broadcastAiResponse,
    broadcastCallSummary, sends.
  repeat split; intros; by eapply broadcast_stops.
Qed.

Lemma mixed_d1_writable : allWritable Example.mixed ["d1"].
Proof.
  intros x dx Hx Hdx. apply list_elem_of_singleton in Hx as ->.
  vm_compute in Hdx. by injection Hdx as <-.
Defined.

Lemma broadcast_stops_at_broken_socket_at_c1 :
  callObservers Example.watched !! "c1" = Some (["d1"] ++ "d2" :: ["o1"])
  ∧ allWritable Example.mixed ["d1"]
  ∧ Example.mixed !! "d2"
    = Some (DeviceManager.mkDevice "d2" (Example.brokenSocket "d2") 0 0 [] true)
  ∧ broadcastTranscriptionUpdate Example.mixed Example.watched "c1" "hi" false 7
    = ([WsSend (Scenario.socket "d1") (MsgCallTranscript "c1" "hi" false 7)],
       Some "WebSocket is not open").
Proof.
  assert (H1 : callObservers Example.watched !! "c1" = Some (["d1"] ++ "d2" :: ["o1"]))
    by (vm_compute; reflexivity).
  assert (H2 : Example.mixed !! "d2"
               = Some (DeviceManager.mkDevice "d2" (Example.brokenSocket "d2") 0 0 [] true))
    by (vm_compute; reflexivity).
  split; [exact H1|]. split; [exact mixed_d1_writable|]. split; [exact H2|].
  destruct (broadcast_stops_at_broken_socket Example.mixed Example.watched "c1"
              ["d1"] "d2" ["o1"] _ "WebSocket is not open" H1 mixed_d1_writable H2 eq_refl)
    as (_ & T & _).
  rewrite T. reflexivity.
Defined.

End ObserverFacts.

(** ** Sessions under sequences of requests *)

Module SessionFacts.
Import CallService Requests.

Lemma append_assoc (a b c : string) : (a +:+ b) +:+ c = a +:+ b +:+ c.
Proof.
  induction a as [|x a IH]; [done|].
  change (String x ((a +:+ b) +:+ c) = String x (a +:+ b +:+ c)). by rewrite IH.
Qed.

Lemma append_nil_r (a : string) : a +:+ "" = a.
Proof.
  induction a as [|x a IH]; [done|].
  change (String x (a +:+ "") = String x a). by rewrite IH.
Qed.

Lemma withStatus_keeps call0 s now :
  let call := withStatus call0 s now in
  callId call = callId call0 ∧ phoneNumber call = phoneNumber call0
  ∧ deviceId call = deviceId call0 ∧ startTime call = startTime call0
  ∧ isIncoming call = isIncoming call0 ∧ transcript call = transcript call0
  ∧ processingTime call = processingTime call0 ∧ summary call = summary call0
  ∧ ((is_Some (endedAt call0) ↔ is_Some (duration call0)) →
     (is_Some (endedAt call) ↔ is_Some (duration call))).
Proof.
  unfold withStatus.
  destruct (String.eqb s "answered"); [repeat (split; [done|]); by simpl|].
  destruct (String.eqb s "ended"); [|repeat (split; [done|]); by simpl].
  repeat (split; [done|]). intros _. simpl. by eexists.
Qed.

(** The state [updateCallStatusSettled] leaves. *)
Lemma settled_state processSpeech w devices st cid s now later :
  let st' := (updateCallStatusSettled processSpeech w devices st cid s now later).1.2 in
  (activeCalls st !! cid = None → st' = st)
  ∧ (∀ call0, activeCalls st !! cid = Some call0 →
       ∃ call', st' = set_activeCalls st (<[cid := call']> (activeCalls st))
         ∧ (call' = withStatus call0 s now
            ∨ ∃ reply, call' = set_summary (withStatus call0 s now) reply)).
Proof.
  unfold updateCallStatusSettled. split.
  - intros Hn. rewrite CallProofs.updateCallStatus_not_found by done.
    unfold finalizeBegin. rewrite Hn. by destruct (String.eqb s "ended").
  - intros call0 H0.
    destruct (CallProofs.updateCallStatus_unfold devices st cid s now call0 H0)
      as (sent & thrown & _ & ->).
    set (call := withStatus call0 s now).
    set (st1 := set_activeCalls st (<[cid:=call]> (activeCalls st))).
    assert (Hc1 : activeCalls st1 !! cid = Some call) by apply lookup_insert_eq.
    destruct (String.eqb s "ended"); [|exists call; by split; [|left]].
    unfold finalizeBegin. rewrite Hc1.
    destruct (Js.trim_is_empty _); [exists call; by split; [|left]|].
    unfold finalizeResume. rewrite Hc1.
    destruct (broadcastCallSummary _ _ _ _ _) as [sent2 thrown2].
    eexists. split; [|right; by eexists]. simpl.
    unfold set_activeCalls. simpl. by rewrite insert_insert_eq.
Qed.

(** The state [processCallAudio] leaves. *)
Lemma audio_state processSpeech devices st cid f now :
  let st' := (processCallAudio processSpeech devices st cid f now).1.2 in
  (activeCalls st !! cid = None → st' = st)
  ∧ (∀ call, activeCalls st !! cid = Some call →
       callAudioChunks st'
       = <[cid := default [] (callAudioChunks st !! cid) ++ [BufferFromBase64 f]]>
           (callAudioChunks st)
       ∧ callObservers st' = callObservers st
       ∧ ((activeCalls st' = activeCalls st
           ∧ callTranscriptions st' = callTranscriptions st)
          ∨ ∃ delta,
              activeCalls st'
              = <[cid := set_transcript call (transcript call +:+ " " +:+ delta)]>
                  (activeCalls st)
              ∧ callTranscriptions st'
                = <[cid := transcript call +:+ " " +:+ delta]> (callTranscriptions st))).
Proof.
  unfold processCallAudio. split; [by intros ->|]. intros call ->.
  assert (Hchunks : match callAudioChunks st !! cid with
                    | Some stored => stored ++ [BufferFromBase64 f]
                    | None => [BufferFromBase64 f]
                    end
                    = default [] (callAudioChunks st !! cid) ++ [BufferFromBase64 f])
    by by destruct (callAudioChunks st !! cid).
  rewrite Hchunks.
  destruct (processAudioForTranscription _ _ _) as [update requested].
  destruct (Js.truthy update); [|simpl; by split; [|split; [|left]]].
  destruct (broadcastTranscriptionUpdate _ _ _ _ _ _) as [sent thrown].
  destruct thrown; simpl; (split; [done|]); (split; [done|]); right; by eexists.
Qed.

Lemma consistent_initial : Consistent initial.
Proof. by constructor; intros cid x; simpl; rewrite lookup_empty. Qed.

Lemma consistent_call st cid call0 call' :
  Consistent st →
  activeCalls st !! cid = Some call0 →
  callId call' = callId call0 → transcript call' = transcript call0 →
  processingTime call' = processingTime call0 →
  (is_Some (endedAt call') ↔ is_Some (duration call')) →
  Consistent (set_activeCalls st (<[cid := call']> (activeCalls st))).
Proof.
  intros [I1 I2 I3 I4 I5 I6 I7] H0 Hid Ht Hp He.
  constructor; simpl; intros k x.
  - destruct (decide (k = cid)) as [->|Hne].
    + rewrite lookup_insert_eq. intros [= <-]. rewrite Ht. by apply I1.
    + rewrite lookup_insert_ne by done. apply I1.
  - destruct (decide (k = cid)) as [->|Hne].
    + rewrite lookup_insert_eq. intros [= <-]. rewrite Hid. by apply (I2 _ call0).
    + rewrite lookup_insert_ne by done. apply I2.
  - intros Hk. destruct (decide (k = cid)) as [->|Hne].
    + by rewrite lookup_insert_eq.
    + rewrite lookup_insert_ne by done. by apply (I3 _ x).
  - intros Hk. destruct (decide (k = cid)) as [->|Hne].
    + by rewrite lookup_insert_eq.
    + rewrite lookup_insert_ne by done. by apply (I4 _ x).
  - apply I5.
  - destruct (decide (k = cid)) as [->|Hne].
    + rewrite lookup_insert_eq. by intros [= <-].
    + rewrite lookup_insert_ne by done. apply I6.
  - destruct (decide (k = cid)) as [->|Hne].
    + rewrite lookup_insert_eq. intros [= <-]. rewrite Hp. by apply (I7 cid).
    + rewrite lookup_insert_ne by done. apply I7.
Qed.

Lemma consistent_register st cid ph dev inc now :
  Consistent st →
  Consistent (mkState
    (<[cid := mkCall cid ph dev now inc "ringing" "" 0 None None None None]>
       (activeCalls st))
    (<[cid := []]> (callAudioChunks st))
    (<[cid := ""]> (callTranscriptions st))
    (callObservers st)).
Proof.
  intros [I1 I2 I3 I4 I5 I6 I7].
  constructor; simpl; intros k x.
  - destruct (decide (k = cid)) as [->|Hne].
    + rewrite !lookup_insert_eq. by intros [= <-].
    + rewrite !lookup_insert_ne by done. apply I1.
  - destruct (decide (k = cid)) as [->|Hne].
    + rewrite lookup_insert_eq. by intros [= <-].
    + rewrite lookup_insert_ne by done. apply I2.
  - destruct (decide (k = cid)) as [->|Hne].
    + rewrite !lookup_insert_eq. by eexists.
    + rewrite !lookup_insert_ne by done. apply I3.
  - destruct (decide (k = cid)) as [->|Hne].
    + rewrite !lookup_insert_eq. by eexists.
    + rewrite !lookup_insert_ne by done. apply I4.
  - apply I5.
  - destruct (decide (k = cid)) as [->|Hne].
    + rewrite lookup_insert_eq. intros [= <-]. simpl. split; by intros [? ?].
    + rewrite lookup_insert_ne by done. apply I6.
  - destruct (decide (k = cid)) as [->|Hne].
    + rewrite lookup_insert_eq. by intros [= <-].
    + rewrite lookup_insert_ne by done. apply I7.
Qed.

Lemma consistent_audio st st' cid call chunks :
  Consistent st →
  activeCalls st !! cid = Some call →
  callAudioChunks st' = <[cid := chunks]> (callAudioChunks st) →
  callObservers st' = callObservers st →
  ((activeCalls st' = activeCalls st
    ∧ callTranscriptions st' = callTranscriptions st)
   ∨ ∃ t, activeCalls st' = <[cid := set_transcript call t]> (activeCalls st)
          ∧ callTranscriptions st' = <[cid := t]> (callTranscriptions st)) →
  Consistent st'.
Proof.
  intros [I1 I2 I3 I4 I5 I6 I7] H0 Ha Ho Hcase.
  assert (Hkeep : ∀ k, is_Some (activeCalls st !! k) → is_Some (activeCalls st' !! k)).
  { intros k Hk. destruct Hcase as [[-> _]|(t & -> & _)]; [done|].
    destruct (decide (k = cid)) as [->|Hne];
      [by rewrite lookup_insert_eq | by rewrite lookup_insert_ne]. }
  constructor; intros k x.
  - destruct Hcase as [[-> ->]|(t & -> & ->)]; [apply I1|].
    destruct (decide (k = cid)) as [->|Hne].
    + rewrite !lookup_insert_eq. by intros [= <-].
    + rewrite !lookup_insert_ne by done. apply I1.
  - destruct Hcase as [[-> _]|(t & -> & _)]; [apply I2|].
    destruct (decide (k = cid)) as [->|Hne].
    + rewrite lookup_insert_eq. intros [= <-]. by apply (I2 _ call).
    + rewrite lookup_insert_ne by done. apply I2.
  - rewrite Ha. intros Hk. apply Hkeep. destruct (decide (k = cid)) as [->|Hne].
    + by rewrite H0.
    + rewrite lookup_insert_ne in Hk by done. by apply (I3 _ x).
  - intros Hk. destruct Hcase as [[-> Ht]|(t & -> & Ht)]; rewrite Ht in Hk.
    + by apply (I4 _ x).
    + destruct (decide (k = cid)) as [->|Hne].
      * by rewrite lookup_insert_eq.
      * rewrite lookup_insert_ne in Hk by done.
        rewrite lookup_insert_ne by done. by apply (I4 _ x).
  - rewrite Ho. apply I5.
  - destruct Hcase as [[-> _]|(t & -> & _)]; [apply I6|].
    destruct (decide (k = cid)) as [->|Hne].
    + rewrite lookup_insert_eq. intros [= <-]. simpl. by apply (I6 cid).
    + rewrite lookup_insert_ne by done. apply I6.
  - destruct Hcase as [[-> _]|(t & -> & _)]; [apply I7|].
    destruct (decide (k = cid)) as [->|Hne].
    + rewrite lookup_insert_eq. intros [= <-]. simpl. by apply (I7 cid).
    + rewrite lookup_insert_ne by done. apply I7.
Qed.

Lemma consistent_observers st cid observers :
  Consistent st → NoDup observers →
  Consistent (set_callObservers st (<[cid := observers]> (callObservers st))).
Proof.
  intros [I1 I2 I3 I4 I5 I6 I7] Hn.
  constructor; simpl; try done. intros k x.
  destruct (decide (k = cid)) as [->|Hne].
  - rewrite lookup_insert_eq. by intros [= <-].
  - rewrite lookup_insert_ne by done. apply I5.
Qed.

Lemma consistent_cleanup st cid : Consistent st → Consistent (cleanupCall st cid).
Proof.
  intros [I1 I2 I3 I4 I5 I6 I7].
  constructor; simpl; try done. intros k x Hk.
  apply lookup_delete_Some in Hk as [_ Hk]. by apply (I3 _ x).
Qed.

Lemma serve_consistent processSpeech w st r :
  Consistent st → Consistent (serve processSpeech w st r).
Proof.
  intros Hst. destruct r as [[devices request] now].
  destruct request as [cid ph dev inc | cid s | cid f | cid o | cid o | cid]; simpl.
  - destruct (CallProofs.registerCall_unfold w devices st cid ph dev inc now)
      as (sent & thrown & _ & ->).
    simpl. by apply consistent_register.
  - destruct (settled_state processSpeech w devices st cid s now now)
      as [Hnone Hsome].
    destruct (activeCalls st !! cid) as [call0|] eqn:H0.
    + destruct (Hsome _ eq_refl) as (call' & -> & Hcall').
      pose proof (withStatus_keeps call0 s now)
        as (? & _ & _ & _ & _ & ? & ? & _ & He).
      apply (consistent_call st cid call0); try done.
      * by destruct Hcall' as [->|[reply ->]].
      * by destruct Hcall' as [->|[reply ->]].
      * by destruct Hcall' as [->|[reply ->]].
      * destruct Hst as [_ _ _ _ _ I6 _].
        destruct Hcall' as [->|[reply ->]]; apply He, (I6 cid); done.
    + by rewrite Hnone.
  - destruct (audio_state processSpeech devices st cid f now) as [Hnone Hsome].
    destruct (activeCalls st !! cid) as [call|] eqn:H0.
    + destruct (Hsome _ eq_refl) as (Ha & Ho & Hcase).
      apply (consistent_audio st _ cid call _ Hst H0 Ha Ho).
      destruct Hcase as [?|(delta & ? & ?)]; [by left|right; by eexists].
    + by rewrite Hnone.
  - unfold addCallObserver. apply consistent_observers; [done|].
    apply ObserverFacts.set_add_NoDup.
    destruct (callObservers st !! cid) as [obs|] eqn:Ho; simpl.
    + destruct Hst as [_ _ _ _ I5 _ _]. by apply (I5 cid).
    + apply NoDup_nil_2.
  - unfold removeCallObserver.
    destruct (callObservers st !! cid) as [obs|] eqn:Ho; [|done].
    apply consistent_observers; [done|]. apply NoDup_filter.
    destruct Hst as [_ _ _ _ I5 _ _]. by apply (I5 cid).
  - by apply consistent_cleanup.
Qed.

Lemma serveAll_consistent processSpeech whatsappReady
    (rs : list (gmap string DeviceManager.Device * Request * Z)) st :
  Consistent st → Consistent (serveAll processSpeech whatsappReady st rs).
Proof.
  unfold serveAll. revert st.
  induction rs as [|r rs IH]; intros st Hst; [done|]. simpl.
  apply IH. by apply serve_consistent.
Qed.

(** X11. Whatever requests the call service has served since it was
    created, its maps agree: a session is stored under its own call
    identifier, an audio buffer or a transcription exists only for a call
    that has a session, no observer set holds a client twice, a session
    has an end time exactly when it has a duration, and [processingTime]
    is still 0, no request ever assigning it. *)
Theorem served_maps_agree processSpeech whatsappReady
    (rs : list (gmap string DeviceManager.Device * Request * Z)) :
  let st := serveAll processSpeech whatsappReady initial rs in
  (∀ cid call, activeCalls st !! cid = Some call →
     callId call = cid ∧ processingTime call = 0%Z
     ∧ (is_Some (endedAt call) ↔ is_Some (duration call)))
  ∧ (∀ cid, is_Some (callAudioChunks st !! cid) ∨ is_Some (callTranscriptions st !! cid) →
       is_Some (activeCalls st !! cid))
  ∧ (∀ cid observers, callObservers st !! cid = Some observers → NoDup observers).
Proof.
  intros st.
  destruct (serveAll_consistent processSpeech whatsappReady rs initial
              consistent_initial) as [I1 I2 I3 I4 I5 I6 I7].
  fold st in I1, I2, I3, I4, I5, I6, I7. split; [|split].
  - intros cid call Hc. split; [by apply I2|]. split; [by apply (I7 cid) | by apply (I6 cid)].
  - intros cid [[x Hx]|[x Hx]]; [by apply (I3 _ x) | by apply (I4 _ x)].
  - apply I5.
Qed.

Lemma served_maps_agree_at_c1 :
  is_Some (callAudioChunks
             (serveAll Scenario.speech Scenario.whatsapp initial
                [(∅, Register "c1" "+15551234567" "d1" true, 0%Z);
                 (∅, Audio "c1" "AAAA", 500%Z);
                 (∅, Status "c1" "ended", 1000%Z)]) !! "c1")
  ∧ is_Some (activeCalls
               (serveAll Scenario.speech Scenario.whatsapp initial
                  [(∅, Register "c1" "+15551234567" "d1" true, 0%Z);
                   (∅, Audio "c1" "AAAA", 500%Z);
                   (∅, Status "c1" "ended", 1000%Z)]) !! "c1").
Proof.
  set (rs := [(∅, Register "c1" "+15551234567" "d1" true, 0%Z);
              (∅, Audio "c1" "AAAA", 500%Z); (∅, Status "c1" "ended", 1000%Z)]).
  assert (H : is_Some (callAudioChunks
                (serveAll Scenario.speech Scenario.whatsapp initial rs) !! "c1"))
    by (vm_compute; by eexists).
  split; [exact H|].
  pose proof (served_maps_agree Scenario.speech Scenario.whatsapp rs) as (_ & T & _).
  apply T. by left.
Defined.

(** X12. When the requests are served one after the other, each to its
    end, the transcription the service keeps for a call, from which the
    summary is made, is the transcript of the session of that call. *)
Theorem served_transcription_is_transcript processSpeech whatsappReady
    (rs : list (gmap string DeviceManager.Device * Request * Z)) cid call :
  activeCalls (serveAll processSpeech whatsappReady initial rs) !! cid = Some call →
  callTranscriptions (serveAll processSpeech whatsappReady initial rs) !! cid
  = Some (transcript call).
Proof.
  intros Hc.
  destruct (serveAll_consistent processSpeech whatsappReady rs initial
              consistent_initial) as [I1 _ _ _ _ _ _].
  by apply I1.
Qed.

Lemma served_transcription_is_transcript_at_c1 :
  activeCalls
    (serveAll Scenario.speech Scenario.whatsapp initial
       [(∅, Register "c1" "+15551234567" "d1" true, 0%Z);
        (∅, Audio "c1" "AAAA", 500%Z)]) !! "c1"
  = Some (mkCall "c1" "+15551234567" "d1" 0 true "ringing" " hello" 0
                 None None None None)
  ∧ callTranscriptions
      (serveAll Scenario.speech Scenario.whatsapp initial
         [(∅, Register "c1" "+15551234567" "d1" true, 0%Z);
          (∅, Audio "c1" "AAAA", 500%Z)]) !! "c1"
    = Some " hello".
Proof.
  set (rs := [(∅, Register "c1" "+15551234567" "d1" true, 0%Z);
              (∅, Audio "c1" "AAAA", 500%Z)]).
  assert (H : activeCalls (serveAll Scenario.speech Scenario.whatsapp initial rs) !! "c1"
              = Some (mkCall "c1" "+15551234567" "d1" 0 true "ringing" " hello" 0
                             None None None None))
    by (vm_compute; reflexivity).
  split; [exact H|].
  exact (served_transcription_is_transcript Scenario.speech Scenario.whatsapp rs
           "c1" _ H).
Defined.

Lemma serve_session processSpeech w st r cid c :
  activeCalls st !! cid = Some c →
  ∃ c', activeCalls (serve processSpeech w st r) !! cid = Some c'
    ∧ (¬ registers cid r →
       callId c' = callId c ∧ phoneNumber c' = phoneNumber c
       ∧ deviceId c' = deviceId c ∧ startTime c' = startTime c
       ∧ isIncoming c' = isIncoming c
       ∧ ∃ suffix, transcript c' = transcript c +:+ suffix).
Proof.
  intros Hc.
  assert (Hsame : ∃ c', Some c = Some c'
            ∧ (¬ registers cid r →
               callId c' = callId c ∧ phoneNumber c' = phoneNumber c
               ∧ deviceId c' = deviceId c ∧ startTime c' = startTime c
               ∧ isIncoming c' = isIncoming c
               ∧ ∃ suffix, transcript c' = transcript c +:+ suffix)).
  { exists c. split; [done|]. intros _. repeat (split; [done|]).
    exists "". by rewrite append_nil_r. }
  destruct r as [[devices request] now].
  destruct request as [k ph dev inc | k s | k f | k o | k o | k]; simpl.
  - destruct (CallProofs.registerCall_unfold w devices st k ph dev inc now)
      as (sent & thrown & _ & ->). simpl.
    destruct (decide (k = cid)) as [->|Hne].
    + rewrite lookup_insert_eq. eexists. split; [done|].
      intros Hr. exfalso. by apply Hr.
    + rewrite lookup_insert_ne, Hc by done. exact Hsame.
  - destruct (settled_state processSpeech w devices st k s now now) as [Hnone Hsome].
    destruct (activeCalls st !! k) as [call0|] eqn:H0.
    + destruct (Hsome _ eq_refl) as (call' & -> & Hcall'). simpl.
      destruct (decide (k = cid)) as [->|Hne].
      * rewrite lookup_insert_eq. exists call'. split; [done|]. intros _.
        rewrite Hc in H0. injection H0 as <-.
        pose proof (withStatus_keeps c s now) as (? & ? & ? & ? & ? & ? & _).
        destruct Hcall' as [->|[reply ->]]; simpl; repeat (split; [done|]);
          exists ""; rewrite append_nil_r; done.
      * rewrite lookup_insert_ne, Hc by done. exact Hsame.
    + rewrite Hnone, Hc by done. exact Hsame.
  - destruct (audio_state processSpeech devices st k f now) as [Hnone Hsome].
    destruct (activeCalls st !! k) as [call|] eqn:H0.
    + destruct (Hsome _ eq_refl) as (_ & _ & [[-> _]|(delta & -> & _)]).
      * rewrite Hc. exact Hsame.
      * destruct (decide (k = cid)) as [->|Hne].
        -- rewrite lookup_insert_eq. eexists. split; [done|]. intros _.
           rewrite Hc in H0. injection H0 as <-. simpl.
           repeat (split; [done|]). by eexists.
        -- rewrite lookup_insert_ne, Hc by done. exact Hsame.
    + rewrite Hnone, Hc by done. exact Hsame.
  - rewrite Hc. exact Hsame.
  - unfold removeCallObserver. destruct (callObservers st !! k); simpl;
      rewrite Hc; exact Hsame.
  - rewrite Hc. exact Hsame.
Qed.

(** X13. No request removes a session: a call that is in the store stays
    in it whatever requests follow.  As long as none of them registers the
    call again, its identifier, phone number, device, start time and
    direction stay as they are and its transcript is only extended at the
    end. *)
Theorem sessions_are_kept processSpeech whatsappReady
    (rs : list (gmap string DeviceManager.Device * Request * Z)) :
  ∀ st cid c,
    activeCalls st !! cid = Some c →
    ∃ c', activeCalls (serveAll processSpeech whatsappReady st rs) !! cid = Some c'
      ∧ (Forall (λ r, ¬ registers cid r) rs →
         callId c' = callId c ∧ phoneNumber c' = phoneNumber c
         ∧ deviceId c' = deviceId c ∧ startTime c' = startTime c
         ∧ isIncoming c' = isIncoming c
         ∧ ∃ suffix, transcript c' = transcript c +:+ suffix).
Proof.
  unfold serveAll. induction rs as [|r rs IH]; intros st cid c Hc; simpl.
  - exists c. split; [done|]. intros _. repeat (split; [done|]).
    exists "". by rewrite append_nil_r.
  - destruct (serve_session processSpeech whatsappReady st r cid c Hc)
      as (c1 & Hc1 & Hstep).
    destruct (IH _ cid c1 Hc1) as (c' & Hc' & Hrest).
    exists c'. split; [done|]. intros Hall.
    apply Forall_cons in Hall as [Hr Hrs].
    destruct (Hstep Hr) as (? & ? & ? & ? & ? & [s1 Hs1]).
    destruct (Hrest Hrs) as (? & ? & ? & ? & ? & [s2 Hs2]).
    repeat (split; [congruence|]).
    exists (s1 +:+ s2). by rewrite Hs2, Hs1, append_assoc.
Qed.

Lemma sessions_are_kept_at_c1 :
  activeCalls Scenario.registered !! "c1"
  = Some (mkCall "c1" "+15551234567" "d1" 0 true "ringing" "" 0 None None None None)
  ∧ ∃ c', activeCalls
            (serveAll Scenario.speech Scenario.whatsapp Scenario.registered
               [(∅, Audio "c1" "AAAA", 500%Z); (∅, Status "c1" "ended", 1000%Z);
                (∅, Cleanup "c1", 61000%Z)]) !! "c1" = Some c'
          ∧ startTime c' = 0%Z.
Proof.
  assert (H : activeCalls Scenario.registered !! "c1"
              = Some (mkCall "c1" "+15551234567" "d1" 0 true "ringing" "" 0
                             None None None None))
    by (vm_compute; reflexivity).
  split; [exact H|].
  destruct (sessions_are_kept Scenario.speech Scenario.whatsapp
              [(∅, Audio "c1" "AAAA", 500%Z); (∅, Status "c1" "ended", 1000%Z);
               (∅, Cleanup "c1", 61000%Z)] Scenario.registered "c1" _ H)
    as (c' & T1 & T2).
  exists c'. split; [exact T1|].
  assert (Hall : Forall (λ r, ¬ registers "c1" r)
            [(∅, Audio "c1" "AAAA", 500%Z); (∅, Status "c1" "ended", 1000%Z);
             (∅, Cleanup "c1", 61000%Z)])
    by (repeat constructor; simpl; tauto).
  by destruct (T2 Hall) as (_ & _ & _ & -> & _).
Defined.

End SessionFacts.

(** ** Audio, responses and summaries *)

Module PipelineFacts.
Import CallService.

(** One fragment for a registered call, whether it has a buffer or not. *)
Lemma processCallAudio_any_buffer processSpeech devices st cid f now call :
  activeCalls st !! cid = Some call →
  let chunks := default [] (callAudioChunks st !! cid) in
  ∃ r st' evs,
    processCallAudio processSpeech devices st cid f now = (r, st', evs)
    ∧ is_Some (activeCalls st' !! cid)
    ∧ callAudioChunks st' = <[cid := chunks ++ [BufferFromBase64 f]]> (callAudioChunks st)
    ∧ transcriptionAttempts cid evs
      = (if skipsTranscription (S (length chunks)) then 0 else 1)
    ∧ (skipsTranscription (S (length chunks)) = true →
       r = Success None ∧ evs = []
       ∧ st' = set_callAudioChunks st
                 (<[cid := chunks ++ [BufferFromBase64 f]]> (callAudioChunks st))).
Proof.
  intros Hc chunks. unfold processCallAudio, processAudioForTranscription.
  rewrite Hc.
  assert (Hchunks : match callAudioChunks st !! cid with
                    | Some stored => stored ++ [BufferFromBase64 f]
                    | None => [BufferFromBase64 f]
                    end = chunks ++ [BufferFromBase64 f])
    by (unfold chunks; by destruct (callAudioChunks st !! cid)).
  rewrite Hchunks. simpl. rewrite lookup_insert_eq. simpl.
  rewrite length_app. simpl. rewrite Nat.add_1_r.
  destruct (skipsTranscription (S (length chunks))) eqn:Hs.
  - simpl. eexists _, _, _. split; [done|]. simpl. rewrite Hc. by repeat split.
  - rewrite Hc. rewrite CallProofs.truthy_or_else by done.
    destruct (broadcastTranscriptionUpdate _ _ _ _ _ _) as [sent thrown] eqn:Hb.
    assert (Hsent : transcriptionAttempts cid sent = 0).
    { replace sent with (sent, thrown).1 by done. rewrite <- Hb.
      unfold broadcastTranscriptionUpdate. by apply CallProofs.broadcast_count_none. }
    destruct thrown as [e|]; eexists _, _, _; (split; [done|]); simpl;
      rewrite !lookup_insert_eq; (split; [done|]); (split; [done|]);
      (split; [|done]).
    + unfold transcriptionAttempts in *.
      change (?e :: ?l) with ([e] ++ l).
      by rewrite CallProofs.count_app, Hsent, CallProofs.attempt_counts.
    + unfold transcriptionAttempts in *.
      change (?e :: ?l) with ([e] ++ l). rewrite !CallProofs.count_app, Hsent.
      pose proof (CallProofs.response_is_no_attempt processSpeech devices) as Hr.
      unfold transcriptionAttempts in Hr. by rewrite Hr, CallProofs.attempt_counts.
Qed.

Lemma ingestAll_buffer processSpeech devices cid now fragments :
  ∀ st call,
    activeCalls st !! cid = Some call →
    let st' := (ingestAll processSpeech devices st cid fragments now).1 in
    is_Some (activeCalls st' !! cid)
    ∧ (fragments ≠ [] →
       callAudioChunks st' !! cid
       = Some (default [] (callAudioChunks st !! cid) ++ (BufferFromBase64 <$> fragments)))
    ∧ ∀ other, other ≠ cid →
        callAudioChunks st' !! other = callAudioChunks st !! other.
Proof.
  induction fragments as [|f rest IH]; intros st call Hc; simpl.
  - by rewrite Hc.
  - destruct (processCallAudio_any_buffer processSpeech devices st cid f now call Hc)
      as (r & st1 & evs & -> & [call1 Hc1] & Ha1 & _).
    specialize (IH st1 call1 Hc1).
    assert (Hrest : rest = [] ∨ rest ≠ []) by (destruct rest; [by left | by right]).
    destruct (ingestAll processSpeech devices st1 cid rest now) as [st2 evs'] eqn:Hi.
    simpl in *. destruct IH as (Hc2 & Ha2 & Hother). split; [done|]. split.
    + intros _. destruct Hrest as [->|Hne].
      * simpl in Hi. injection Hi as <- <-.
        by rewrite Ha1, lookup_insert_eq.
      * rewrite Ha2 by done. rewrite Ha1, lookup_insert_eq. simpl.
        by rewrite <- app_assoc.
    + intros other Hne. rewrite Hother by done. rewrite Ha1.
      by rewrite lookup_insert_ne.
Qed.

(** X14. [processCallAudio] fails with [Call not found], changing and
    sending nothing, for a call that has no session.  For a call that has
    one it appends the fragment to the audio buffer of the call whatever
    the result it returns, so that fragments ingested one after the other
    are in the buffer in the order of their arrival, after what the buffer
    held, and the buffers of other calls are not touched.  A fragment that
    is not handed to transcription changes nothing but the buffer and
    sends nothing. *)
Theorem audio_buffer_keeps_arrival_order processSpeech devices st cid now :
  (activeCalls st !! cid = None →
   ∀ f, processCallAudio processSpeech devices st cid f now
        = (Failure "Call not found", st, []))
  ∧ (∀ call, activeCalls st !! cid = Some call →
       let chunks := default [] (callAudioChunks st !! cid) in
       (∀ f, callAudioChunks (processCallAudio processSpeech devices st cid f now).1.2
               !! cid = Some (chunks ++ [BufferFromBase64 f]))
       ∧ (∀ fragments, fragments ≠ [] →
            callAudioChunks (ingestAll processSpeech devices st cid fragments now).1
              !! cid = Some (chunks ++ (BufferFromBase64 <$> fragments)))
       ∧ (∀ fragments other, other ≠ cid →
            callAudioChunks (ingestAll processSpeech devices st cid fragments now).1
              !! other = callAudioChunks st !! other)
       ∧ (∀ f, skipsTranscription (S (length chunks)) = true →
            ∃ st', processCallAudio processSpeech devices st cid f now
                   = (Success None, st', [])
                   ∧ activeCalls st' = activeCalls st
                   ∧ callTranscriptions st' = callTranscriptions st
                   ∧ callObservers st' = callObservers st)).
Proof.
  split.
  - intros Hn f. unfold processCallAudio. by rewrite Hn.
  - intros call Hc chunks. split; [|split; [|split]].
    + intros f.
      destruct (processCallAudio_any_buffer processSpeech devices st cid f now call Hc)
        as (r & st' & evs & -> & _ & Ha & _).
      simpl. by rewrite Ha, lookup_insert_eq.
    + intros fragments Hne.
      by destruct (ingestAll_buffer processSpeech devices cid now fragments st call Hc)
        as (_ & T & _); apply T.
    + intros fragments other Hne.
      by destruct (ingestAll_buffer processSpeech devices cid now fragments st call Hc)
        as (_ & _ & T); apply T.
    + intros f Hs.
      destruct (processCallAudio_any_buffer processSpeech devices st cid f now call Hc)
        as (r & st' & evs & Heq & _ & _ & _ & T).
      destruct (T Hs) as (-> & -> & ->). by eexists.
Qed.

Lemma audio_buffer_keeps_arrival_order_at_c1 :
  is_Some (activeCalls Scenario.registered !! "c1")
  ∧ callAudioChunks
      (ingestAll Scenario.speech ∅ Scenario.registered "c1" ["AAAA"; "BBBB"] 500).1
      !! "c1" = Some [BufferFromBase64 "AAAA"; BufferFromBase64 "BBBB"].
Proof.
  assert (H : activeCalls Scenario.registered !! "c1"
              = Some (mkCall "c1" "+15551234567" "d1" 0 true "ringing" "" 0
                             None None None None))
    by (vm_compute; reflexivity).
  split; [by rewrite H|].
  destruct (audio_buffer_keeps_arrival_order Scenario.speech ∅ Scenario.registered
              "c1" 500) as [_ T].
  destruct (T _ H) as (_ & T2 & _).
  exact (T2 ["AAAA"; "BBBB"] ltac:(discriminate)).
Defined.

(** X15. Once [cleanupCall] has dropped the audio buffer of a call, the
    next fragment for that call starts a new buffer that holds it alone,
    and, being the first fragment of that buffer, is handed to
    transcription at once. *)
Theorem fragment_after_cleanup_is_transcribed processSpeech devices st cid call f now :
  activeCalls st !! cid = Some call →
  let '(_, st', evs) :=
    processCallAudio processSpeech devices (cleanupCall st cid) cid f now in
  callAudioChunks (cleanupCall st cid) !! cid = None
  ∧ callAudioChunks st' !! cid = Some [BufferFromBase64 f]
  ∧ transcriptionAttempts cid evs = 1.
Proof.
  intros Hc.
  assert (Hc' : activeCalls (cleanupCall st cid) !! cid = Some call) by done.
  destruct (processCallAudio_any_buffer processSpeech devices (cleanupCall st cid)
              cid f now call Hc') as (r & st' & evs & -> & _ & Ha & Hn & _).
  simpl in Ha, Hn. rewrite lookup_delete_eq in Ha, Hn. simpl in Ha, Hn.
  split; [apply lookup_delete_eq|]. split; [|done].
  by rewrite Ha, lookup_insert_eq.
Qed.

Lemma fragment_after_cleanup_is_transcribed_at_c1 :
  is_Some (activeCalls Scenario.expired !! "c1")
  ∧ transcriptionAttempts "c1"
      (processCallAudio Scenario.speech ∅ (cleanupCall Scenario.expired "c1")
         "c1" "CCCC" 70000).2 = 1.
Proof.
  assert (H : activeCalls Scenario.expired !! "c1"
              = Some (mkCall "c1" "+15551234567" "d1" 0 true "ended" " hello" 0
                             None (Some 1000%Z) (Some 1%Z) (Some "hello")))
    by (vm_compute; reflexivity).
  split; [by rewrite H|].
  pose proof (fragment_after_cleanup_is_transcribed Scenario.speech ∅
                Scenario.expired "c1" _ "CCCC" 70000 H) as T.
  destruct (processCallAudio _ _ _ _ _ _) as [[r st'] evs].
  by destruct T as (_ & _ & T).
Defined.

(** X16. A failure of [processCallAudio] is no rollback.  When the
    fragment is handed to transcription and the socket of a registered
    observer throws on the transcript broadcast, the result is a failure
    with the error of that socket; yet the fragment is in the buffer, the
    delta is appended to the transcript of the session and to the stored
    transcription, the observers subscribed before the broken one have got
    it, and no response is asked of the speech service for it. *)
Theorem audio_failure_is_no_rollback
    processSpeech devices st cid call f now before o after d e :
  activeCalls st !! cid = Some call →
  skipsTranscription (S (length (default [] (callAudioChunks st !! cid)))) = false →
  callObservers st !! cid = Some (before ++ o :: after) →
  allWritable devices before →
  devices !! o = Some d →
  sendError (DeviceManager.ws d) = Some e →
  ∃ text delta st',
    processCallAudio processSpeech devices st cid f now
    = (Failure e, st',
       SpeechRequest Transcribe cid text
       :: ((λ d', WsSend (DeviceManager.ws d') (MsgCallTranscript cid delta false now))
             <$> present devices before))
    ∧ delta ≠ ""
    ∧ activeCalls st' !! cid
      = Some (set_transcript call (transcript call +:+ " " +:+ delta))
    ∧ callTranscriptions st' !! cid = Some (transcript call +:+ " " +:+ delta)
    ∧ callAudioChunks st' !! cid
      = Some (default [] (callAudioChunks st !! cid) ++ [BufferFromBase64 f]).
Proof.
  intros Hc Hs Ho Hw Hd He.
  unfold processCallAudio, processAudioForTranscription. rewrite Hc.
  assert (Hchunks : match callAudioChunks st !! cid with
                    | Some stored => stored ++ [BufferFromBase64 f]
                    | None => [BufferFromBase64 f]
                    end
                    = default [] (callAudioChunks st !! cid) ++ [BufferFromBase64 f])
    by by destruct (callAudioChunks st !! cid).
  rewrite Hchunks. simpl. rewrite lookup_insert_eq. simpl.
  rewrite length_app. simpl. rewrite Nat.add_1_r, Hs, Hc.
  rewrite CallProofs.truthy_or_else by done. simpl.
  unfold broadcastTranscriptionUpdate.
  erewrite ObserverFacts.broadcast_stops; [|exact Ho|done|done|done].
  eexists _, _, _. split; [done|]. simpl. rewrite !lookup_insert_eq.
  split; [|done].
  intros Hempty. pose proof (CallProofs.truthy_or_else
    (processSpeech
       ("Audio chunk " +:+ pretty (S (length (default [] (callAudioChunks st !! cid))))
        +:+ " from call with " +:+ phoneNumber call)
       (mkMeta cid None None true)) "Unintelligible audio") as Ht.
  simpl in Ht. rewrite Hempty in Ht. by specialize (Ht ltac:(done)).
Qed.

Lemma audio_failure_is_no_rollback_at_c1 :
  is_Some (activeCalls Example.watched !! "c1")
  ∧ (processCallAudio Scenario.speech Example.mixed Example.watched "c1" "AAAA" 500).1.1
    = Failure "WebSocket is not open"
  ∧ is_Some (callTranscriptions
      (processCallAudio Scenario.speech Example.mixed Example.watched "c1" "AAAA" 500).1.2
      !! "c1").
Proof.
  assert (H0 : activeCalls Example.watched !! "c1"
               = Some (mkCall "c1" "+15551234567" "d1" 0 true "ringing" "" 0
                              None None None None))
    by (vm_compute; reflexivity).
  assert (H1 : callObservers Example.watched !! "c1" = Some (["d1"] ++ "d2" :: ["o1"]))
    by (vm_compute; reflexivity).
  assert (H2 : Example.mixed !! "d2"
               = Some (DeviceManager.mkDevice "d2" (Example.brokenSocket "d2") 0 0 [] true))
    by (vm_compute; reflexivity).
  split; [by rewrite H0|].
  destruct (audio_failure_is_no_rollback Scenario.speech Example.mixed Example.watched
              "c1" _ "AAAA" 500 ["d1"] "d2" ["o1"] _ "WebSocket is not open"
              H0 eq_refl H1 ObserverFacts.mixed_d1_writable H2 eq_refl)
    as (text & delta & st' & -> & _ & _ & T2 & _).
  simpl. split; [done|]. rewrite T2. by eexists.
Defined.

(** X17. When the speech service answers a transcript delta, the answer
    is written as a [speak] command to the device that owns the call, if it
    is registered, and broadcast to the observers of the call.  A device
    that is not registered keeps nothing from the observers; but when the
    write to the device throws, the broadcast is skipped and no observer
    gets the answer.  Without an answer nothing is written. *)
Theorem response_delivery processSpeech devices st cid call t now :
  activeCalls st !! cid = Some call →
  let reply := processSpeech t (mkMeta cid (Some (phoneNumber call)) None true) in
  let evs := processTranscriptForResponse processSpeech devices st cid t now in
  (Js.truthy reply = false → evs = [SpeechRequest Respond cid t])
  ∧ (∀ r, reply = Some r → r ≠ "" →
       let cast := (broadcastAiResponse devices st cid r now).1 in
       (devices !! deviceId call = None → evs = SpeechRequest Respond cid t :: cast)
       ∧ (∀ d, devices !! deviceId call = Some d →
               sendError (DeviceManager.ws d) = None →
               evs = SpeechRequest Respond cid t
                     :: WsSend (DeviceManager.ws d) (MsgCallCommand cid "speak" r)
                     :: cast)
       ∧ (∀ d e, devices !! deviceId call = Some d →
                 sendError (DeviceManager.ws d) = Some e →
                 evs = [SpeechRequest Respond cid t])).
Proof.
  intros Hc reply evs. unfold evs, processTranscriptForResponse.
  rewrite Hc. fold reply. split.
  - by intros ->.
  - intros r Hr Hne. rewrite Hr. simpl.
    apply String.eqb_neq in Hne. rewrite Hne. simpl.
    unfold DeviceManager.getDevice, ws_send. split; [by intros ->|]. split.
    + intros d -> Hw. by rewrite Hw.
    + intros d e -> Hw. by rewrite Hw.
Qed.

Lemma response_delivery_at_c1 :
  activeCalls Example.watched !! "c1"
  = Some (mkCall "c1" "+15551234567" "d1" 0 true "ringing" "" 0 None None None None)
  ∧ processTranscriptForResponse Scenario.speech
      (DeviceManager.registerDevice ∅ "d1" (Example.brokenSocket "d1") 0).2
      Example.watched "c1" "hi" 7
    = [SpeechRequest Respond "c1" "hi"].
Proof.
  assert (H0 : activeCalls Example.watched !! "c1"
               = Some (mkCall "c1" "+15551234567" "d1" 0 true "ringing" "" 0
                              None None None None))
    by (vm_compute; reflexivity).
  split; [exact H0|].
  destruct (response_delivery Scenario.speech
              (DeviceManager.registerDevice ∅ "d1" (Example.brokenSocket "d1") 0).2
              Example.watched "c1" _ "hi" 7 H0) as [_ T].
  destruct (T "hello" eq_refl ltac:(discriminate)) as (_ & _ & T3).
  exact (T3 _ "WebSocket is not open" eq_refl eq_refl).
Defined.

(** X18. A status update to [ended], settled, leaves the session with the
    status, end time and duration of the update and, when the stored
    transcription of the call is not blank, with the summary the speech
    service gave for that transcription, asked for with the phone number
    of the call, the duration just computed and [inProgress] false; a
    nullish reply is stored as such.  When the transcription is blank the
    summary is left as it was. *)
Theorem ended_call_gets_summary processSpeech whatsappReady devices st cid call0 now later :
  activeCalls st !! cid = Some call0 →
  let text := default "" (callTranscriptions st !! cid) in
  let ended := withStatus call0 "ended" now in
  let meta := mkMeta cid (Some (phoneNumber call0))
                (Some (Js.round_seconds
                         (now - default (startTime call0) (answeredAt call0)))) false in
  let st' := (updateCallStatusSettled processSpeech whatsappReady devices st
                cid "ended" now later).1.2 in
  (Js.trim_is_empty text = false →
     activeCalls st' !! cid = Some (set_summary ended (processSpeech text meta)))
  ∧ (Js.trim_is_empty text = true →
       activeCalls st' !! cid = Some ended ∧ summary ended = summary call0)
  ∧ status ended = "ended" ∧ endedAt ended = Some now
  ∧ callTranscriptions st' = callTranscriptions st
  ∧ callAudioChunks st' = callAudioChunks st.
Proof.
  intros H0 text ended meta st'. unfold st', updateCallStatusSettled.
  destruct (CallProofs.updateCallStatus_unfold devices st cid "ended" now call0 H0)
    as (sent & thrown & _ & ->).
  change (String.eqb "ended" "ended") with true. cbv iota.
  fold ended.
  set (st1 := set_activeCalls st (<[cid:=ended]> (activeCalls st))).
  assert (Hc1 : activeCalls st1 !! cid = Some ended) by apply lookup_insert_eq.
  unfold finalizeBegin. rewrite Hc1.
  change (callTranscriptions st1) with (callTranscriptions st). fold text.
  destruct (Js.trim_is_empty text) eqn:Hblank.
  - split; [done|]. split; [by intros _|]. done.
  - unfold finalizeResume. rewrite Hc1.
    destruct (broadcastCallSummary _ _ _ _ _) as [sent2 thrown2].
    simpl. rewrite lookup_insert_eq. split; [by intros _|]. split; [done|]. done.
Qed.

Lemma ended_call_gets_summary_at_c1 :
  is_Some (activeCalls Scenario.heard !! "c1")
  ∧ summary <$> (activeCalls
                   (updateCallStatusSettled Scenario.speech Scenario.whatsapp
                      Scenario.observers Scenario.heard "c1" "ended" 1000 2000).1.2
                 !! "c1") = Some (Some "hello").
Proof.
  assert (H : activeCalls Scenario.heard !! "c1"
              = Some (mkCall "c1" "+15551234567" "d1" 0 true "ringing" " hello" 0
                             None None None None))
    by (vm_compute; reflexivity).
  split; [by rewrite H|].
  destruct (ended_call_gets_summary Scenario.speech Scenario.whatsapp
              Scenario.observers Scenario.heard "c1" _ 1000 2000 H) as [T _].
  rewrite T; [reflexivity | vm_compute; reflexivity].
Defined.

End PipelineFacts.

(** ** The HTTP routes *)

Module RouteFacts.
Import CallService Http CallRoutes.

Lemma truthy_default v : Js.truthy v = true → v = Some (default "" v) ∧ default "" v ≠ "".
Proof.
  destruct v as [s|]; [|done]. simpl. intros H. split; [done|].
  intros ->. done.
Qed.

(** X19. Each POST route of the call service answers 400 when a field it
    requires is missing or empty, and [/status] and [/command] also when
    the status or the command is not one of those listed; it then leaves
    the call service as it was and sends nothing. *)
Theorem post_routes_reject_incomplete_requests processSpeech whatsappReady devices st now :
  (∀ callId phoneNumber deviceId isIncoming,
     Js.truthy callId = false ∨ Js.truthy phoneNumber = false
     ∨ Js.truthy deviceId = false →
     postRegister whatsappReady devices st callId phoneNumber deviceId isIncoming now
     = (mkResponse 400 (Error "callId, phoneNumber, and deviceId are required"), st, []))
  ∧ (∀ callId status,
       Js.truthy callId = false ∨ Js.truthy status = false →
       postStatus devices st callId status now
       = (mkResponse 400 (Error "callId and status are required"), st, []))
  ∧ (∀ callId status,
       Js.truthy callId = true → Js.truthy status = true →
       default "" status ∉ statuses →
       postStatus devices st callId status now
       = (mkResponse 400 (Error "Invalid status"), st, []))
  ∧ (∀ callId audio,
       Js.truthy callId = false ∨ Js.truthy audio = false →
       postAudio processSpeech devices st callId audio now
       = (mkResponse 400 (Error "callId and audio are required"), st, []))
  ∧ (∀ callId command text,
       Js.truthy callId = false ∨ Js.truthy command = false →
       postCommand devices st callId command text
       = (mkResponse 400 (Error "callId and command are required"), []))
  ∧ (∀ callId command text,
       Js.truthy callId = true → Js.truthy command = true →
       default "" command ∉ commands →
       postCommand devices st callId command text
       = (mkResponse 400 (Error "Invalid command"), []))
  ∧ (∀ callId clientId,
       Js.truthy clientId = false →
       postObserve st callId clientId
       = (mkResponse 400 (Error "clientId is required"), st)).
Proof.
  repeat split.
  - intros c p d i H. unfold postRegister.
    destruct H as [-> | [-> | ->]]; simpl; rewrite ?orb_true_r; done.
  - intros c s H. unfold postStatus.
    destruct H as [-> | ->]; simpl; rewrite ?orb_true_r; done.
  - intros c s Hc Hs Hn. unfold postStatus. rewrite Hc, Hs. simpl.
    by rewrite bool_decide_eq_false_2.
  - intros c a H. unfold postAudio.
    destruct H as [-> | ->]; simpl; rewrite ?orb_true_r; done.
  - intros c k t H. unfold postCommand.
    destruct H as [-> | ->]; simpl; rewrite ?orb_true_r; done.
  - intros c k t Hc Hk Hn. unfold postCommand. rewrite Hc, Hk. simpl.
    by rewrite bool_decide_eq_false_2.
  - intros c k H. unfold postObserve. by rewrite H.
Qed.

Lemma post_routes_reject_incomplete_requests_at_empty :
  Js.truthy (Some "c1") = true ∧ Js.truthy (Some "paused") = true
  ∧ ("paused" ∉ statuses)
  ∧ postStatus ∅ Scenario.registered (Some "c1") (Some "paused") 9
    = (mkResponse 400 (Error "Invalid status"), Scenario.registered, []).
Proof.
  assert (H : "paused" ∉ statuses).
  { unfold statuses. intros Hin.
    repeat (apply elem_of_cons in Hin as [Hin|Hin]; [discriminate|]).
    by apply elem_of_nil in Hin. }
  split; [done|]. split; [done|]. split; [exact H|].
  destruct (post_routes_reject_incomplete_requests Scenario.speech Scenario.whatsapp
              ∅ Scenario.registered 9) as (_ & _ & T & _).
  exact (T (Some "c1") (Some "paused") eq_refl eq_refl H).
Defined.

(** X20. Through [POST /status] a session only ever gets one of the four
    listed statuses: whatever the request, a session the route has changed
    carries the status of the request, and that status is listed.  A
    well-formed request for a call that has no session is answered 500
    with [Call not found], the call service unchanged. *)
Theorem postStatus_stores_listed_statuses devices st bodyCallId bodyStatus now :
  let '(response, st', evs) := postStatus devices st bodyCallId bodyStatus now in
  (∀ cid call, activeCalls st' !! cid = Some call →
               activeCalls st !! cid ≠ Some call →
               bodyStatus = Some (status call)
               ∧ status call ∈ statuses ∧ bodyCallId = Some cid)
  ∧ (Js.truthy bodyCallId = true → Js.truthy bodyStatus = true →
     default "" bodyStatus ∈ statuses →
     activeCalls st !! default "" bodyCallId = None →
     response = mkResponse 500 (Error "Call not found") ∧ st' = st ∧ evs = [])
  ∧ (code response = 200 →
     ∃ call, activeCalls st' !! default "" bodyCallId = Some call
             ∧ status call = default "" bodyStatus).
Proof.
  unfold postStatus.
  destruct (Js.truthy bodyCallId) eqn:Hc; [|simpl; by repeat split].
  destruct (Js.truthy bodyStatus) eqn:Hs; [|simpl; by repeat split]. simpl.
  destruct (truthy_default _ Hc) as [Hcid _].
  destruct (truthy_default _ Hs) as [Hst _].
  case_bool_decide as Hin; [|simpl; by repeat split]. simpl.
  set (cid := default "" bodyCallId) in *. set (s := default "" bodyStatus) in *.
  destruct (activeCalls st !! cid) as [call0|] eqn:H0.
  - destruct (CallProofs.updateCallStatus_unfold devices st cid s now call0 H0)
      as (sent & thrown & _ & ->). split; [|split].
    + intros k call Hk Hne. simpl in Hk.
      destruct (decide (k = cid)) as [->|Hk'].
      * rewrite lookup_insert_eq in Hk. injection Hk as <-.
        rewrite CallProofs.withStatus_status. by rewrite Hst, Hcid.
      * rewrite lookup_insert_ne in Hk by done. done.
    + by intros _ _ _ ?.
    + intros _. eexists. split; [apply lookup_insert_eq|].
      apply CallProofs.withStatus_status.
  - rewrite CallProofs.updateCallStatus_not_found by done. simpl.
    split; [done|]. split; [done|]. done.
Qed.

Lemma postStatus_stores_listed_statuses_at_c1 :
  Js.truthy (Some "c9") = true ∧ Js.truthy (Some "ended") = true
  ∧ "ended" ∈ statuses ∧ activeCalls Scenario.registered !! "c9" = None
  ∧ (postStatus ∅ Scenario.registered (Some "c9") (Some "ended") 9).1.1
    = mkResponse 500 (Error "Call not found").
Proof.
  assert (H1 : "ended" ∈ statuses) by (unfold statuses; repeat constructor).
  assert (H2 : activeCalls Scenario.registered !! "c9" = None)
    by (vm_compute; reflexivity).
  split; [done|]. split; [done|]. split; [exact H1|]. split; [exact H2|].
  pose proof (postStatus_stores_listed_statuses ∅ Scenario.registered
                (Some "c9") (Some "ended") 9) as T.
  destruct (postStatus _ _ _ _ _) as [[response st'] evs].
  destruct T as (_ & T & _). by destruct (T eq_refl eq_refl H1 H2) as (-> & _).
Defined.



(** X22. [POST /command] answers 200 exactly when the request is
    well-formed, the call has a session, the device that owns the call is
    registered and its socket takes the write; it has then written that one
    command to that socket, with the empty string for a missing text.  In
    every other case nothing is written; a call without session is
    answered 500 [Call not found] and a device that is not registered 500
    [Device not connected]. *)
Theorem postCommand_delivers devices st bodyCallId bodyCommand bodyText :
  let cid := default "" bodyCallId in
  let command := default "" bodyCommand in
  let '(response, evs) := postCommand devices st bodyCallId bodyCommand bodyText in
  (code response = 200
   ↔ Js.truthy bodyCallId = true ∧ Js.truthy bodyCommand = true
     ∧ command ∈ commands
     ∧ ∃ call d, activeCalls st !! cid = Some call
                 ∧ devices !! deviceId call = Some d
                 ∧ sendError (DeviceManager.ws d) = None)
  ∧ (code response = 200 →
     ∃ call d, activeCalls st !! cid = Some call
               ∧ devices !! deviceId call = Some d
               ∧ evs = [WsSend (DeviceManager.ws d)
                          (MsgCallCommand cid command (Js.or_else bodyText ""))])
  ∧ (code response ≠ 200 → evs = [])
  ∧ (Js.truthy bodyCallId = true → Js.truthy bodyCommand = true →
     command ∈ commands →
     (activeCalls st !! cid = None →
      response = mkResponse 500 (Error "Call not found"))
     ∧ (∀ call, activeCalls st !! cid = Some call →
                devices !! deviceId call = None →
                response = mkResponse 500 (Error "Device not connected"))).
Proof.
  intros cid command. unfold postCommand.
  destruct (Js.truthy bodyCallId) eqn:Hc; simpl;
    [|split; [split; [done | by intros (? & _)] | by repeat split]].
  destruct (Js.truthy bodyCommand) eqn:Hk; simpl;
    [|split; [split; [done | by intros (_ & ? & _)] | by repeat split]].
  fold cid command. case_bool_decide as Hin; simpl;
    [|split; [split; [done | by intros (_ & _ & ? & _)] | by repeat split]].
  unfold sendCallCommand, DeviceManager.getDevice, ws_send.
  destruct (activeCalls st !! cid) as [call|] eqn:H0; simpl.
  - destruct (devices !! deviceId call) as [d|] eqn:Hd; simpl.
    + destruct (sendError (DeviceManager.ws d)) as [e|] eqn:He; simpl.
      * split; [split; [done|] | ].
        -- intros (_ & _ & _ & call' & d' & [= <-] & Hd' & He').
           rewrite Hd in Hd'. injection Hd' as <-. congruence.
        -- split; [done|]. split; [done|]. intros _ _ _. split; [done|].
           intros call' [= <-]. by rewrite Hd.
      * split; [split; [intros _; repeat (split; [done|]); by exists call, d | done]|].
        split; [intros _; by exists call, d|]. split; [done|].
        intros _ _ _. split; [done|]. intros call' [= <-]. by rewrite Hd.
    + split; [split; [done|] | ].
      * intros (_ & _ & _ & call' & d' & [= <-] & Hd' & _). by rewrite Hd in Hd'.
      * split; [done|]. split; [done|]. intros _ _ _. split; [done|]. by intros.
  - split; [split; [done|] | by repeat split].
    by intros (_ & _ & _ & call' & d' & ? & _).
Qed.

Lemma postCommand_delivers_at_c1 :
  (postCommand Example.mixed Scenario.registered (Some "c1") (Some "speak") None).1
  = mkResponse 200 (Done "Command sent: speak to call c1")
  ∧ (postCommand Example.mixed Scenario.registered (Some "c1") (Some "speak") None).2
    = [WsSend (Scenario.socket "d1") (MsgCallCommand "c1" "speak" "")].
Proof.
  assert (H : (postCommand Example.mixed Scenario.registered (Some "c1")
                 (Some "speak") None).1
              = mkResponse 200 (Done "Command sent: speak to call c1"))
    by (vm_compute; reflexivity).
  split; [exact H|].
  pose proof (postCommand_delivers Example.mixed Scenario.registered
                (Some "c1") (Some "speak") None) as T.
  destruct (postCommand _ _ _ _ _) as [response evs]. simpl in *.
  destruct T as (_ & T & _). subst response.
  destruct (T eq_refl) as (call & d & Hc & Hd & ->).
  vm_compute in Hc. injection Hc as <-. vm_compute in Hd. by injection Hd as <-.
Defined.

(** X23. A GET for a path that matches [/active], in whatever case,
    always answers 200; the count is the number of sessions in the store
    and the list holds every one of them, ended or not.  A GET for any
    other path of one segment reaches [/:callId] with the segment decoded:
    it answers 404 exactly for a call that has no session, and otherwise
    200 with the session.  When the segment does not decode, or the path
    is not one segment, no handler of the file runs. *)
Theorem get_routes_read_the_store decodeURIComponent st :
  (∀ path, matchesActive path = true →
     ∃ calls, get decodeURIComponent st path
              = Some (mkResponse 200 (ActiveCalls (size (activeCalls st)) calls))
              ∧ ∀ call, call ∈ calls ↔ ∃ cid, activeCalls st !! cid = Some call)
  ∧ (∀ path cid,
       matchesActive path = false → oneSegment path = true →
       decodeURIComponent path = Some cid →
       (get decodeURIComponent st path
        = Some (mkResponse 404 (Error "Call not found"))
        ↔ activeCalls st !! cid = None)
       ∧ (∀ call, get decodeURIComponent st path
                  = Some (mkResponse 200 (OneCall call))
                  ↔ activeCalls st !! cid = Some call))
  ∧ (∀ path,
       matchesActive path = false →
       oneSegment path = false ∨ decodeURIComponent path = None →
       get decodeURIComponent st path = None)
  ∧ (∀ path, matchesActive path = true ↔ Js.lower_case path = "active").
Proof.
  split; [|split; [|split]].
  - intros path Hm. unfold get. rewrite Hm. exists (getActiveCalls st). split.
    + unfold getActive, getActiveCalls. by rewrite length_fmap, length_map_to_list.
    + apply CallProofs.getActiveCalls_elem.
  - intros path cid Hm Ho Hs. unfold get. rewrite Hm, Ho, Hs. unfold getOne, getCall.
    destruct (activeCalls st !! cid); split; try intros call;
      split; intros; simplify_eq; done.
  - intros path Hm [Ho|Hs]; unfold get; rewrite Hm.
    + by rewrite Ho.
    + rewrite Hs. by destruct (oneSegment path).
  - intros path. unfold matchesActive. apply bool_decide_eq_true.
Qed.

Lemma get_routes_read_the_store_at_c9 :
  matchesActive "c9" = false
  ∧ oneSegment "c9" = true
  ∧ activeCalls Scenario.expired !! "c9" = None
  ∧ get Example.plain Scenario.expired "c9"
    = Some (mkResponse 404 (Error "Call not found"))
  ∧ matchesActive "Active" = true
  ∧ ∃ calls, get Example.plain Scenario.expired "Active"
             = Some (mkResponse 200 (ActiveCalls 1 calls)).
Proof.
  assert (H : activeCalls Scenario.expired !! "c9" = None) by (vm_compute; reflexivity).
  split; [done|]. split; [done|]. split; [exact H|].
  destruct (get_routes_read_the_store Example.plain Scenario.expired)
    as (T1 & T2 & _).
  split.
  - destruct (T2 "c9" "c9" eq_refl eq_refl eq_refl) as [T _]. by apply T.
  - split; [done|]. destruct (T1 "Active" eq_refl) as (calls & T & _).
    exists calls. exact T.
Defined.

End RouteFacts.

(** ** The HTTP routes of the registry *)

Module EventRouteFacts.
Import DeviceManager Http EventRoutes.

(** X24. [POST /devices/:id/command] answers 400 when the command is
    missing or falsy and 404 exactly when the device is not registered,
    touching nothing in either case.  For a registered device the command
    is written once to its socket and its [lastActive] set to the time of
    the request exactly when the socket takes the write.  The answer is 200
    exactly when, moreover, the command has a string form for the message
    of the answer; it is 500 when the write throws, the registry then as it
    was, and also when the write was made but the command has no string
    form. *)
Theorem postDeviceCommand_answers stringify (devices : gmap string Device)
    i command data now :
  let '(response, devices', evs) :=
    postDeviceCommand stringify devices i command data now in
  (Js.truthy_value command = false →
   response = mkResponse 400 (Error "Command is required")
   ∧ devices' = devices ∧ evs = [])
  ∧ (Js.truthy_value command = true →
     (code response = 404 ↔ devices !! i = None)
     ∧ (code response = 200
        ↔ ∃ d, devices !! i = Some d ∧ sendError (ws d) = None
               ∧ is_Some (Js.template command))
     ∧ (code response = 500
        ↔ ∃ d, devices !! i = Some d
               ∧ (is_Some (sendError (ws d)) ∨ Js.template command = None))
     ∧ (∀ d, devices !! i = Some d → sendError (ws d) = None →
          ∃ c, command = Some c
               ∧ devices' = <[i := set_lastActive d now]> devices
               ∧ evs = [WsSend (ws d) (MsgJson (stringify (CommandMessage c data)))])
     ∧ ((devices !! i = None
         ∨ ∃ d, devices !! i = Some d ∧ is_Some (sendError (ws d))) →
        devices' = devices ∧ evs = [])).
Proof.
  unfold postDeviceCommand, getDevice.
  destruct command as [c|]; [|by split].
  destruct (Js.truthy_value (Some c)) eqn:Hc; simpl; [|by split].
  destruct (devices !! i) as [d|] eqn:Hd.
  - destruct (sendError (ws d)) as [e|] eqn:He.
    + rewrite (RegistryProofs.sendToDevice_failed _ _ d e) by done. simpl.
      split; [done|]. intros _. split; [done|]. split; [|split; [|split]].
      * split; [done|]. intros (d' & [= <-] & ? & _). congruence.
      * split; [|done]. intros _. exists d. split; [done|]. left. by rewrite He.
      * intros d' [= <-]. congruence.
      * done.
    + rewrite (RegistryProofs.sendToDevice_delivered _ _ d) by done. simpl.
      split; [done|]. intros _.
      split; [by destruct (Js.to_string c)|]. split; [|split; [|split]].
      * destruct (Js.to_string c) as [shown|]; simpl.
        -- split; [|done]. intros _. exists d. by rewrite He.
        -- split; [done|]. by intros (d' & _ & _ & [? ?]).
      * destruct (Js.to_string c) as [shown|]; simpl.
        -- split; [done|]. intros (d' & [= <-] & [[e He']|?]); congruence.
        -- split; [|done]. intros _. exists d. split; [done|]. by right.
      * intros d' [= <-] _. by exists c.
      * intros [?|(d' & [= <-] & [e He'])]; congruence.
  - simpl. split; [done|]. intros _. split; [done|]. split; [|split; [|split]].
    + split; [done|]. by intros (d & ? & _).
    + split; [done|]. by intros (d & ? & _).
    + by intros d ?.
    + done.
Qed.

Lemma postDeviceCommand_answers_at_d2 :
  Js.truthy_value (Some (Js.JString "ping")) = true
  ∧ code (postDeviceCommand (λ _, "{}") Example.mixed "d2"
            (Some (Js.JString "ping")) None 9).1.1 = 500
  ∧ Js.truthy_value (Some (Js.JObject [("toString", Js.JNull)])) = true
  ∧ code (postDeviceCommand (λ _, "{}") Example.mixed "d1"
            (Some (Js.JObject [("toString", Js.JNull)])) None 9).1.1 = 500.
Proof.
  split; [done|]. split.
  - pose proof (postDeviceCommand_answers (λ _, "{}") Example.mixed "d2"
                  (Some (Js.JString "ping")) None 9) as T.
    destruct (postDeviceCommand _ _ _ _ _ _) as [[response devices'] evs].
    destruct T as (_ & T). destruct (T eq_refl) as (_ & _ & T3 & _).
    apply T3. eexists. split; [vm_compute; reflexivity|]. left. by eexists.
  - split; [done|].
    pose proof (postDeviceCommand_answers (λ _, "{}") Example.mixed "d1"
                  (Some (Js.JObject [("toString", Js.JNull)])) None 9) as T.
    destruct (postDeviceCommand _ _ _ _ _ _) as [[response devices'] evs].
    destruct T as (_ & T). destruct (T eq_refl) as (_ & _ & T3 & _).
    apply T3. eexists. split; [vm_compute; reflexivity|]. by right.
Defined.

(** X25. [POST /broadcast] answers 400 without a message and touches
    nothing.  With a message it answers 200 whatever the sockets do, even
    when every write throws: the two counts of the answer add up to the
    number of registered devices, the writes made are as many as the
    successes, and no device is added or removed. *)
Theorem postBroadcast_answers stringify (devices : gmap string Device)
    message type now :
  let '(response, devices', evs) :=
    postBroadcast stringify devices message type now in
  (Js.truthy message = false →
   response = mkResponse 400 (Error "Message is required")
   ∧ devices' = devices ∧ evs = [])
  ∧ (Js.truthy message = true →
     ∃ successes failures,
       response = mkResponse 200 (Broadcast successes failures)
       ∧ successes + failures = size devices
       ∧ length evs = successes
       ∧ successes = size (filter (λ kv, sendError (ws kv.2) = None) devices)
       ∧ dom devices' = dom devices).
Proof.
  unfold postBroadcast.
  destruct (Js.truthy message) eqn:Hm; simpl; [|by split].
  split; [done|]. intros _. unfold broadcastToAll. simpl.
  set (ok := filter (λ kv, delivered kv.2 = true) devices).
  assert (Hle : size ok ≤ size devices)
    by apply map_subseteq_size, map_filter_subseteq.
  eexists _, _. split; [done|]. split; [lia|].
  split; [by rewrite length_fmap, length_map_to_list|].
  split; [|apply dom_fmap_L].
  unfold ok. f_equal. apply map_filter_ext. intros k d _.
  unfold delivered, ws_send. simpl. by rewrite bool_decide_eq_true.
Qed.

Lemma postBroadcast_answers_at_mixed :
  Js.truthy (Some "hello") = true
  ∧ ∃ successes failures,
      (postBroadcast (λ _, "{}") Example.mixed (Some "hello") None 9).1.1
      = mkResponse 200 (Broadcast successes failures)
      ∧ successes + failures = 2.
Proof.
  split; [done|].
  pose proof (postBroadcast_answers (λ _, "{}") Example.mixed (Some "hello") None 9) as T.
  destruct (postBroadcast _ _ _ _ _) as [[response devices'] evs].
  destruct T as [_ T]. destruct (T eq_refl) as (s & f & T1 & T2 & _).
  by exists s, f.
Defined.

End EventRouteFacts.

(** ** The authentication middleware *)

Module AuthFacts.
Import Auth.

Lemma split_nonempty sep s : split sep s ≠ [].
Proof.
  destruct s as [|c s]; simpl; [done|].
  destruct (Ascii.eqb c sep); [done|]. by destruct (split sep s).
Qed.

Lemma join_cons sep w ws :
  ws ≠ [] → join sep (w :: ws) = w +:+ String sep (join sep ws).
Proof. by destruct ws. Qed.

Lemma split_cons_other sep c s :
  Ascii.eqb c sep = false →
  ∃ w ws, split sep s = w :: ws ∧ split sep (String c s) = String c w :: ws.
Proof.
  intros Hc. simpl. rewrite Hc.
  destruct (split sep s) as [|w ws] eqn:Hs; [by apply split_nonempty in Hs|].
  by exists w, ws.
Qed.

Lemma join_split sep s : join sep (split sep s) = s.
Proof.
  induction s as [|c s IH]; [done|].
  destruct (Ascii.eqb c sep) eqn:Hc.
  - simpl. rewrite Hc. apply Ascii.eqb_eq in Hc as ->.
    pose proof (split_nonempty sep s) as Hn.
    rewrite join_cons by done. by rewrite IH.
  - destruct (split_cons_other sep c s Hc) as (w & ws & Hs & ->).
    rewrite Hs in IH. destruct ws as [|w' ws].
    + simpl in *. by rewrite IH.
    + rewrite join_cons in IH |- * by done.
      change (String c (w +:+ String sep (join sep (w' :: ws))) = String c s).
      by rewrite IH.
Qed.

Lemma split_no_separator sep s :
  Forall (λ w, occurs sep w = false) (split sep s).
Proof.
  induction s as [|c s IH]; [by constructor|].
  destruct (Ascii.eqb c sep) eqn:Hc.
  - simpl. rewrite Hc. by constructor.
  - destruct (split_cons_other sep c s Hc) as (w & ws & Hs & ->).
    rewrite Hs in IH. apply Forall_cons in IH as [Hw Hws].
    constructor; [|done]. simpl. by rewrite Hc, Hw.
Qed.

Lemma split_word sep w : occurs sep w = false → split sep w = [w].
Proof.
  induction w as [|c w IH]; [done|]. simpl.
  destruct (Ascii.eqb c sep); [done|]. simpl. intros Hw. by rewrite IH.
Qed.

Lemma split_app sep a b :
  occurs sep a = false →
  split sep (a +:+ String sep b) = a :: split sep b.
Proof.
  induction a as [|c a IH]; intros Ha.
  - change (split sep (String sep b) = "" :: split sep b). simpl.
    by rewrite Ascii.eqb_refl.
  - simpl in Ha. destruct (Ascii.eqb c sep) eqn:Hc; [done|]. simpl in Ha.
    change (split sep (String c (a +:+ String sep b)) = String c a :: split sep b).
    simpl. by rewrite Hc, IH.
Qed.

(** Splitting a string at a separator and joining the parts with the
    separator gives the string back; no part holds the separator; and a
    string splits in exactly two parts when it is those two parts, both
    free of the separator, with one separator between them. *)
Lemma split_join_round_trip sep s :
  join sep (split sep s) = s
  ∧ Forall (λ w, occurs sep w = false) (split sep s)
  ∧ ∀ a b, split sep s = [a; b]
           ↔ s = a +:+ String sep b ∧ occurs sep a = false ∧ occurs sep b = false.
Proof.
  split; [apply join_split|]. split; [apply split_no_separator|].
  intros a b. split.
  - intros Hs. pose proof (join_split sep s) as Hj.
    pose proof (split_no_separator sep s) as Hf. rewrite Hs in Hj, Hf.
    apply Forall_cons in Hf as [Ha Hf]. apply Forall_cons in Hf as [Hb _].
    by rewrite <- Hj.
  - intros (-> & Ha & Hb). by rewrite split_app, split_word.
Qed.

(** X26. The middleware hands a request on exactly when its
    [Authorization] header is [Bearer], one space, and a token that is not
    empty, holds no space and verifies; [req.user] is then the payload the
    verification decoded.  Every other request is answered with a
    rejection and not handed on. *)
Theorem authMiddleware_passes_iff {User : Type} (verify : string → option User)
    authorization user :
  authMiddleware verify authorization = Next user
  ↔ ∃ token, authorization = Some ("Bearer " +:+ token)
             ∧ token ≠ "" ∧ occurs space token = false
             ∧ verify token = Some user.
Proof.
  unfold authMiddleware. split.
  - destruct authorization as [s|]; [|done]. simpl.
    destruct (String.eqb s ""); [done|]. simpl.
    destruct (split space s) as [|scheme [|token [|? ?]]] eqn:Hs; try done.
    destruct (String.eqb_spec scheme "Bearer") as [->|]; [|done]. simpl.
    destruct (String.eqb_spec token "") as [->|Hne]; [done|].
    destruct (verify token) as [u|] eqn:Hv; [|done]. intros [= <-].
    exists token. apply split_join_round_trip in Hs as (-> & _ & Hocc).
    by repeat split.
  - intros (token & -> & Hne & Hocc & Hv).
    change (Js.truthy (Some ("Bearer " +:+ token))) with true. simpl.
    change ("" +:+ token) with token. rewrite split_word by done.
    apply String.eqb_neq in Hne. by rewrite Hne, Hv.
Qed.

Lemma authMiddleware_passes_iff_at_alice :
  (∃ token, Some "Bearer t0k3n" = Some ("Bearer " +:+ token)
            ∧ token ≠ "" ∧ occurs space token = false
            ∧ Example.verify token = Some "alice")
  ∧ authMiddleware Example.verify (Some "Bearer t0k3n") = Next "alice".
Proof.
  assert (H : ∃ token, Some "Bearer t0k3n" = Some ("Bearer " +:+ token)
                       ∧ token ≠ "" ∧ occurs space token = false
                       ∧ Example.verify token = Some "alice")
    by (exists "t0k3n"; repeat split; discriminate).
  split; [exact H|].
  by apply (authMiddleware_passes_iff Example.verify (Some "Bearer t0k3n") "alice").
Defined.

End AuthFacts.

(** ** The WebSocket handlers, further *)

Module RouterFacts.
Import Router.

Lemma route_warns_iff connectionId data :
  (∃ t, route connectionId data = WarnUnknown t)
  ↔ ∀ t, t ∈ knownTypes → type data ≠ Some (Js.JString t).
Proof.
  split.
  - intros [t Ht] k Hk Hty. revert Ht. unfold route, typeIs. rewrite Hty.
    unfold knownTypes in Hk.
    repeat (apply elem_of_cons in Hk as [->|Hk];
            [repeat case_bool_decide; congruence|]).
    by apply elem_of_nil in Hk.
  - intros Hu. exists (type data). by apply RouterProofs.route_unknown.
Qed.

(** X27. The message handler has a case for nine types and no other.  A
    message other than [null] is logged as unknown exactly when its type
    is none of the nine strings and can be written into the first log
    line; a missing type is one such, and so is a type that is not a
    string, even one that is written like a known type.  A type without
    string form makes that log line throw before the [switch]: nothing is
    handed on and nothing logged as unknown.  [init] goes to
    [updateDeviceInfo] with the whole message, [notification], [sms] and
    [call] to their handlers, and [command] is accepted and ignored. *)
Theorem route_knows_nine_types rejects connectionId w data :
  data ≠ Js.JNull →
  let '(handed, evs) := onMessage rejects connectionId w (JsonValue data) in
  ((∃ text, LogWarn text ∈ evs)
   ↔ (∀ t, t ∈ knownTypes → type data ≠ Some (Js.JString t))
     ∧ is_Some (Js.template (type data)))
  ∧ (Js.template (type data) = None → handed = None ∧ evs = replyError w)
  ∧ (type data = None →
     handed = Some (WarnUnknown None)
     ∧ evs = [LogWarn "Unknown message type: undefined"])
  ∧ (∀ v shown,
       type data = Some v → (∀ s, v ≠ Js.JString s) → Js.to_string v = Some shown →
       handed = Some (WarnUnknown (Some v))
       ∧ evs = [LogWarn ("Unknown message type: " +:+ shown)])
  ∧ (type data = Some (Js.JString "init") →
     handed = Some (UpdateDeviceInfo connectionId data) ∧ evs = [])
  ∧ (type data = Some (Js.JString "notification") →
     handed = Some (HandleNotification data))
  ∧ (type data = Some (Js.JString "sms") → handed = Some (HandleSMS data))
  ∧ (type data = Some (Js.JString "call") → handed = Some (HandleCall data))
  ∧ (type data = Some (Js.JString "command") → handed = Some Command ∧ evs = [])
  ∧ length knownTypes = 9.
Proof.
  intros Hn. rewrite RouterProofs.onMessage_value by done.
  destruct (Js.template (type data)) as [shown|] eqn:Hs.
  - split; [split|].
    + intros [text Ht]. split; [|done]. apply (route_warns_iff connectionId).
      destruct (route connectionId data) eqn:Hr; try (by eexists);
        exfalso; simpl in Ht;
        (destruct (rejects data0) || idtac);
        try (by apply elem_of_nil in Ht);
        by apply RouterProofs.replyError_elem in Ht.
    + intros [Hu _]. rewrite (RouterProofs.route_unknown _ _ Hu).
      eexists. apply list_elem_of_here.
    + split; [done|]. split; [|split].
      * intros Ht. rewrite RouterProofs.route_unknown by (by rewrite Ht).
        rewrite Ht in Hs |- *. by injection Hs as <-.
      * intros v shown' Ht Hv Hv'.
        rewrite RouterProofs.route_unknown by (rewrite Ht; intros t _ [= E]; by apply (Hv t)).
        rewrite Ht in Hs |- *. simpl in Hs. rewrite Hv' in Hs. by injection Hs as <-.
      * split.
        { intros Ht.
          assert (Hr : route connectionId data = UpdateDeviceInfo connectionId data)
            by (unfold route, typeIs; rewrite Ht; repeat case_bool_decide; congruence).
          by rewrite Hr. }
        split.
        { intros Ht. f_equal. unfold route, typeIs. rewrite Ht.
          repeat case_bool_decide; congruence. }
        split.
        { intros Ht. f_equal. unfold route, typeIs. rewrite Ht.
          repeat case_bool_decide; congruence. }
        split.
        { intros Ht. f_equal. unfold route, typeIs. rewrite Ht.
          repeat case_bool_decide; congruence. }
        split; [|done].
        intros Ht.
        assert (Hr : route connectionId data = Command)
          by (unfold route, typeIs; rewrite Ht; repeat case_bool_decide; congruence).
        by rewrite Hr.
  - split; [split|].
    + intros [text Ht]. by apply RouterProofs.replyError_elem in Ht.
    + by intros [_ [? ?]].
    + split; [done|]. split; [|split].
      * intros Ht. by rewrite Ht in Hs.
      * intros v shown' Ht Hv Hv'. rewrite Ht in Hs. simpl in Hs. congruence.
      * split; [intros Ht; by rewrite Ht in Hs|].
        split; [intros Ht; by rewrite Ht in Hs|].
        split; [intros Ht; by rewrite Ht in Hs|].
        split; [intros Ht; by rewrite Ht in Hs|].
        split; [intros Ht; by rewrite Ht in Hs|done].
Qed.

Lemma route_knows_nine_types_at_init :
  Js.JObject [("type", Js.JString "init")] ≠ Js.JNull
  ∧ onMessage Scenario.neverRejects "x" (Scenario.socket "x")
      (JsonValue (Js.JObject [("type", Js.JString "init")]))
    = (Some (UpdateDeviceInfo "x" (Js.JObject [("type", Js.JString "init")])), [])
  ∧ onMessage Scenario.neverRejects "x" (Scenario.socket "x")
      (JsonValue (Js.JObject [("type", Js.JArray [Js.JString "init"])]))
    = (Some (WarnUnknown (Some (Js.JArray [Js.JString "init"]))),
       [LogWarn "Unknown message type: init"]).
Proof.
  assert (H1 : Js.JObject [("type", Js.JString "init")] ≠ Js.JNull) by discriminate.
  assert (H2 : Js.JObject [("type", Js.JArray [Js.JString "init"])] ≠ Js.JNull)
    by discriminate.
  split; [exact H1|]. split.
  - pose proof (route_knows_nine_types Scenario.neverRejects "x" (Scenario.socket "x")
                  _ H1) as T.
    destruct (onMessage _ _ _ _) as [handed evs].
    destruct T as (_ & _ & _ & _ & T & _). by destruct (T eq_refl) as [-> ->].
  - pose proof (route_knows_nine_types Scenario.neverRejects "x" (Scenario.socket "x")
                  _ H2) as T.
    destruct (onMessage _ _ _ _) as [handed evs].
    destruct T as (_ & _ & _ & T & _).
    destruct (T (Js.JArray [Js.JString "init"]) "init" eq_refl) as [-> ->]; done.
Defined.

(** X28. A connection is registered under its identifier with both
    timestamps at the time it was accepted, and is welcomed with its
    identifier if its socket takes the write.  The handler subscribes to
    [close] after the welcome, so a connection that was welcomed and then
    closes leaves the registry as it was before the connection, if the
    identifier was new; the call service is touched by neither. *)
Theorem connection_comes_and_goes (s : Server) connectionId w now :
  let '(s', evs) := onConnection s connectionId w now in
  devices s' !! connectionId
  = Some (DeviceManager.mkDevice connectionId w now now [] true)
  ∧ calls s' = calls s
  ∧ (sendError w = None →
     evs = [WsSend w (MsgInfo "Connected to everydAI server" connectionId)])
  ∧ (is_Some (sendError w) → evs = [])
  ∧ (sendError w = None → devices s !! connectionId = None →
     onClose s' connectionId = s).
Proof.
  unfold onConnection, onClose, ws_send. simpl.
  split; [apply lookup_insert_eq|]. split; [done|].
  split; [by intros ->|]. split; [by intros [e ->]|].
  intros _ Hn. rewrite RouterProofs.unregisterDevice_delete, delete_insert_eq.
  rewrite delete_id by done. by destruct s.
Qed.

Lemma connection_comes_and_goes_at_o1 :
  devices (mkServer ∅ Scenario.registered) !! "o1" = None
  ∧ onClose Scenario.connected "o1" = mkServer ∅ Scenario.registered.
Proof.
  assert (H : devices (mkServer ∅ Scenario.registered) !! "o1" = None) by done.
  split; [exact H|].
  pose proof (connection_comes_and_goes (mkServer ∅ Scenario.registered) "o1"
                (Scenario.socket "o1") 0) as T.
  unfold Scenario.connected.
  destruct (onConnection _ _ _ _) as [s' evs].
  destruct T as (_ & _ & _ & _ & T). exact (T eq_refl H).
Defined.

End RouterFacts.
